(** * aha-ggregator: Collector, Classifier and Renderer, embedded in Rocq

    The three stages of the pipeline ([scraper.py], [classify.py],
    [generate_html.py]) are modelled function by function.  Python
    dictionaries are finite maps from strings to dynamically typed values,
    Python sets of URLs are finite sets of hash keys, the three JSONL logs
    are lists of decoded lines, and exceptions are explicit outcomes that
    keep the file system as it was when the exception left the function. *)

From stdpp Require Import base gmap sets list strings pretty sorting.
From Stdlib Require Import ZArith Ascii Lia Permutation.

Local Open Scope Z_scope.

#[local] Set Warnings "-clear-no-such-hyp".

(** ** Python values *)

(** The values that [json.loads] produces.  Numbers are integers: every
    number the pipeline compares ([score], [confidence], [curated]) is an
    integer in the data model. *)
#[warnings="-register-all"]
Inductive pyval : Type :=
| VNone
| VBool (b : bool)
| VInt (z : Z)
| VStr (s : string)
| VList (l : list pyval)
| VDict (d : gmap string pyval).

Abbreviation dict := (gmap string pyval).

(** Exceptions that can leave the modelled functions. *)
Inductive exn : Type :=
| TypeError
| AttributeError
| IndexError
| OracleError.

Inductive outcome (A : Type) : Type :=
| Ok (a : A)
| Raise (e : exn).
Arguments Ok {A} a.
Arguments Raise {A} e.

Global Instance exn_eq_dec : EqDecision exn.
Proof. solve_decision. Defined.

Global Instance outcome_eq_dec {A} `{EqDecision A} : EqDecision (outcome A).
Proof. solve_decision. Defined.

Definition obind {A B} (m : outcome A) (f : A -> outcome B) : outcome B :=
  match m with
  | Ok a => f a
  | Raise e => Raise e
  end.

Notation "'let!' x ':=' m 'in' k" := (obind m (fun x => k))
  (at level 10, x name, m at level 100, k at level 200, only parsing).

(** [bool(v)]. *)
Definition truthy (v : pyval) : bool :=
  match v with
  | VNone => false
  | VBool b => b
  | VInt z => negb (z =? 0)
  | VStr s => negb (bool_decide (s = ""))
  | VList l => match l with [] => false | _ :: _ => true end
  | VDict d => negb (bool_decide (d = ∅))
  end.

(** [d.get(k, dflt)] and [d.get(k)]. *)
Definition get (d : dict) (k : string) (dflt : pyval) : pyval :=
  default dflt (d !! k).

Definition get_none (d : dict) (k : string) : pyval := get d k VNone.

(** Hash keys: what a Python [set] or [Counter] stores.  [True] and [1]
    (and [False] and [0]) are equal and hash alike; lists and dicts are
    unhashable. *)
Inductive hkey : Type :=
| KNone
| KInt (z : Z)
| KStr (s : string).

Global Instance hkey_eq_dec : EqDecision hkey.
Proof. solve_decision. Defined.

Definition hkey_to_sum (k : hkey) : unit + (Z + string) :=
  match k with
  | KNone => inl tt
  | KInt z => inr (inl z)
  | KStr s => inr (inr s)
  end.

Definition hkey_of_sum (x : unit + (Z + string)) : hkey :=
  match x with
  | inl _ => KNone
  | inr (inl z) => KInt z
  | inr (inr s) => KStr s
  end.

Global Instance hkey_countable : Countable hkey.
Proof.
  apply (inj_countable' hkey_to_sum hkey_of_sum).
  intros []; reflexivity.
Defined.

Definition hash_key (v : pyval) : option hkey :=
  match v with
  | VNone => Some KNone
  | VBool b => Some (KInt (if b then 1 else 0))
  | VInt z => Some (KInt z)
  | VStr s => Some (KStr s)
  | VList _ => None
  | VDict _ => None
  end.

(** The value as a number, for [<] and [>=]; [bool] is a subclass of
    [int].  Comparing anything else with an [int] raises [TypeError]. *)
Definition as_int (v : pyval) : outcome Z :=
  match v with
  | VBool b => Ok (if b then 1 else 0)
  | VInt z => Ok z
  | _ => Raise TypeError
  end.

(** ** Log files *)

(** A line of a JSONL log, as [json.loads] sees it: [None] when it raises
    [JSONDecodeError], the decoded value otherwise.  A file that does not
    exist is [None]. *)
Abbreviation line := (option pyval).
Abbreviation file := (option (list line)).

Definition file_lines (f : file) : list line := default [] f.

(** The lines that [json.dumps] writes for a list of records. *)
Definition as_lines (recs : list dict) : list line :=
  map (fun d => Some (VDict d)) recs.

(** [open(f, "a")] followed by one [write] per record. *)
Definition append_records (f : file) (recs : list dict) : file :=
  Some (file_lines f ++ as_lines recs).

(** [item.get("url", "")], the identity of a record in all three logs. *)
Definition url_of (item : dict) : pyval := get item "url" (VStr "").

(** The URL key under which the loaders of [scraper.py] and [classify.py]
    enter a log line into their set of known URLs. *)
Definition line_key (ln : line) : option hkey :=
  match ln with
  | Some (VDict d) => hash_key (url_of d)
  | _ => None
  end.

(** The URLs that appear in a log, and in a list of records. *)
Definition log_keys (f : file) : list hkey := omap line_key (file_lines f).

Definition url_keys (ps : list dict) : list hkey :=
  omap (fun p => hash_key (url_of p)) ps.

(** A record carries the URL key [k]: its [url] is truthy and hashes to
    [k]. *)
Definition carries (k : hkey) (p : dict) : Prop :=
  truthy (url_of p) = true ∧ hash_key (url_of p) = Some k.

(** * scraper.py *)

Module Scraper.

(** [deduplicate_posts]: the loop, with [seen_urls] and [unique_posts] as
    accumulators. *)
Fixpoint dedup_loop (posts : list dict) (seen_urls : gset hkey)
    (unique_posts : list dict) : outcome (list dict) :=
  match posts with
  | [] => Ok unique_posts
  | post :: rest =>
      let url := url_of post in
      if truthy url then
        match hash_key url with
        | None => Raise TypeError
        | Some k =>
            if bool_decide (k ∈ seen_urls)
            then dedup_loop rest seen_urls unique_posts
            else dedup_loop rest ({[k]} ∪ seen_urls) (unique_posts ++ [post])
        end
      else dedup_loop rest seen_urls unique_posts
  end.

Definition deduplicate_posts (posts : list dict) : outcome (list dict) :=
  dedup_loop posts ∅ [].

(** [load_existing_urls]: one pass over the lines of the raw log. *)
Fixpoint load_urls_loop (lines : list line) (urls : gset hkey)
    : outcome (gset hkey) :=
  match lines with
  | [] => Ok urls
  | None :: rest => load_urls_loop rest urls
  | Some (VDict item) :: rest =>
      match hash_key (url_of item) with
      | None => Raise TypeError
      | Some k => load_urls_loop rest ({[k]} ∪ urls)
      end
  | Some _ :: _ => Raise AttributeError
  end.

Definition load_existing_urls (data_file : file) : outcome (gset hkey) :=
  match data_file with
  | None => Ok ∅
  | Some lines => load_urls_loop lines ∅
  end.

(** [[p for p in all_posts if p.get("url") not in existing_urls]]. *)
Fixpoint filter_new (all_posts : list dict) (existing_urls : gset hkey)
    : outcome (list dict) :=
  match all_posts with
  | [] => Ok []
  | p :: rest =>
      match hash_key (get_none p "url") with
      | None => Raise TypeError
      | Some k =>
          let! tl := filter_new rest existing_urls in
          Ok (if bool_decide (k ∈ existing_urls) then tl else p :: tl)
      end
  end.

(** [post["scraped_at"] = datetime.utcnow().isoformat()], post by post;
    [utcnow i] is the clock reading taken for the [i]-th post written. *)
Fixpoint stamp (utcnow : nat -> string) (i : nat) (posts : list dict)
    : list dict :=
  match posts with
  | [] => []
  | p :: rest =>
      <["scraped_at" := VStr (utcnow i)]> p :: stamp utcnow (S i) rest
  end.

Definition search_keywords : list string :=
  ["aha moment AI"; "finally clicked AI"; "mind blown ChatGPT";
   "mind blown Claude"; "game changer AI"].

Definition SUBREDDITS : list string :=
  ["ChatGPT"; "ClaudeAI"; "LocalLLaMA"; "artificial"; "MachineLearning";
   "singularity"; "OpenAI"; "Bard"; "perplexity_ai"; "PromptEngineering"].

Definition hn_queries : list string :=
  ["aha moment AI"; "LLM changed"; "Claude AI"; "ChatGPT workflow"].

Section ScrapeAll.

(** What the three fetchers return for each query; they catch their own
    exceptions and return the posts built so far. *)
Variable fetch_reddit_search : string -> list dict.
Variable fetch_reddit_posts : string -> list dict.
Variable fetch_hn_search_algolia : string -> list dict.
Variable utcnow : nat -> string.

Definition fetch_all : list dict :=
  concat (map fetch_reddit_search search_keywords)
  ++ concat (map fetch_reddit_posts (take 5 SUBREDDITS))
  ++ concat (map fetch_hn_search_algolia hn_queries).

(** [scrape_all]: the returned posts (or the exception) and the raw log
    afterwards. *)
Definition scrape_all (data_file : file) : outcome (list dict) * file :=
  match load_existing_urls data_file with
  | Raise e => (Raise e, data_file)
  | Ok existing_urls =>
      match deduplicate_posts fetch_all with
      | Raise e => (Raise e, data_file)
      | Ok all_posts =>
          match filter_new all_posts existing_urls with
          | Raise e => (Raise e, data_file)
          | Ok new_posts =>
              match new_posts with
              | [] => (Ok [], data_file)
              | _ :: _ =>
                  let written := stamp utcnow 0 new_posts in
                  (Ok written, append_records data_file written)
              end
          end
      end
  end.

End ScrapeAll.

(** ** Vocabulary of the properties *)

(** [news] are the posts of [posts] that are the first to carry a URL key
    outside [seen], in the order of [posts]. *)
Inductive firsts : gset hkey -> list dict -> list dict -> Prop :=
| firsts_nil seen : firsts seen [] []
| firsts_no_url seen p rest news :
    truthy (url_of p) = false ->
    firsts seen rest news ->
    firsts seen (p :: rest) news
| firsts_seen seen k p rest news :
    carries k p -> k ∈ seen ->
    firsts seen rest news ->
    firsts seen (p :: rest) news
| firsts_new seen k p rest news :
    carries k p -> k ∉ seen ->
    firsts ({[k]} ∪ seen) rest news ->
    firsts seen (p :: rest) (p :: news).

(** A fetched candidate: the three fetchers build [url] as an f-string
    that starts with the site, or take the non-empty [url] of the hit. *)
Definition fetched (p : dict) : Prop :=
  exists s, p !! "url" = Some (VStr s) ∧ s ≠ "".

(** [url not in seen_urls] can be evaluated. *)
Definition url_hashable (p : dict) : Prop :=
  truthy (url_of p) = true -> is_Some (hash_key (url_of p)).

(** The [url] field is absent or the empty string. *)
Definition lacks_url (p : dict) : Prop :=
  p !! "url" = None ∨ p !! "url" = Some (VStr "").

(** The [url] field is present and not empty. *)
Definition has_url (p : dict) : Prop :=
  exists v, p !! "url" = Some v ∧ truthy v = true.

(** A log that [load_existing_urls] reads to the end: every line that
    decodes is an object whose [url] can be put into a set. *)
Definition loadable (f : file) : Prop :=
  Forall (fun ln : line =>
            match ln with
            | None => True
            | Some (VDict d) => is_Some (hash_key (url_of d))
            | Some _ => False
            end) (file_lines f).

End Scraper.

(** * Python string methods *)

Module PyStr.

(** ASCII white space as [str.strip] and [str.isspace] see it: TAB, LF, VT,
    FF, CR, FS, GS, RS, US and the space. *)
Definition is_space (c : ascii) : bool :=
  let n := nat_of_ascii c in
  ((9 <=? n)%nat && (n <=? 13)%nat)
  || ((28 <=? n)%nat && (n <=? 32)%nat).

Fixpoint lstrip (s : string) : string :=
  match s with
  | EmptyString => EmptyString
  | String c s' => if is_space c then lstrip s' else s
  end.

Fixpoint rstrip (s : string) : string :=
  match s with
  | EmptyString => EmptyString
  | String c s' =>
      match rstrip s' with
      | EmptyString => if is_space c then EmptyString else String c EmptyString
      | r => String c r
      end
  end.

(** [s.strip()]. *)
Definition strip (s : string) : string := rstrip (lstrip s).

(** [s.startswith(p)]. *)
Definition startswith (s p : string) : bool := String.prefix p s.

(** [s[n:]] and [s[:n]]. *)
Fixpoint drop (n : nat) (s : string) : string :=
  match n, s with
  | O, _ => s
  | S _, EmptyString => EmptyString
  | S n', String _ s' => drop n' s'
  end.

Fixpoint take (n : nat) (s : string) : string :=
  match n, s with
  | O, _ => EmptyString
  | S _, EmptyString => EmptyString
  | S n', String c s' => String c (take n' s')
  end.

(** [s.split(sep)] for a non-empty [sep]: the pieces between successive
    occurrences of [sep], found from the left without overlap.  [skip]
    counts the characters of a separator just found that are still to be
    passed over, [cur] is the piece being read. *)
Fixpoint split_go (sep s : string) (skip : nat) (cur : string)
    : list string :=
  match s with
  | EmptyString => [cur]
  | String c s' =>
      match skip with
      | S k => split_go sep s' k cur
      | O =>
          if String.prefix sep s
          then cur :: split_go sep s' (String.length sep - 1) EmptyString
          else split_go sep s' 0 (cur +:+ String c EmptyString)
      end
  end.

Definition split (s sep : string) : list string := split_go sep s 0 "".

(** [s.lower()] on ASCII letters. *)
Definition lower_char (c : ascii) : ascii :=
  let n := nat_of_ascii c in
  if ((65 <=? n)%nat && (n <=? 90)%nat) then ascii_of_nat (n + 32) else c.

Definition upper_char (c : ascii) : ascii :=
  let n := nat_of_ascii c in
  if ((97 <=? n)%nat && (n <=? 122)%nat) then ascii_of_nat (n - 32) else c.

Definition is_alpha (c : ascii) : bool :=
  let n := nat_of_ascii c in
  ((65 <=? n)%nat && (n <=? 90)%nat) || ((97 <=? n)%nat && (n <=? 122)%nat).

Fixpoint lower (s : string) : string :=
  match s with
  | EmptyString => EmptyString
  | String c s' => String (lower_char c) (lower s')
  end.

(** [needle in hay]. *)
Fixpoint contains (needle hay : string) : bool :=
  String.prefix needle hay
  || match hay with
     | EmptyString => false
     | String _ hay' => contains needle hay'
     end.

(** [s.title()]: a letter that follows a letter is lowered, any other
    letter is raised. *)
Fixpoint title_go (after_letter : bool) (s : string) : string :=
  match s with
  | EmptyString => EmptyString
  | String c s' =>
      String (if after_letter then lower_char c else upper_char c)
             (title_go (is_alpha c) s')
  end.

Definition title (s : string) : string := title_go false s.

(** ** Vocabulary of the properties *)

(** The character [c] occurs in [s]. *)
Fixpoint has_char (c : ascii) (s : string) : bool :=
  match s with
  | EmptyString => false
  | String c' s' => bool_decide (c = c') || has_char c s'
  end.

(** An ASCII capital letter. *)
Definition is_upper (c : ascii) : bool :=
  let n := nat_of_ascii c in ((65 <=? n)%nat && (n <=? 90)%nat).

(** A string of white space only. *)
Fixpoint all_space (s : string) : bool :=
  match s with
  | EmptyString => true
  | String c s' => is_space c && all_space s'
  end.

(** The backtick. *)
Definition tick : ascii := ascii_of_nat 96.

End PyStr.

(** * classify.py *)

Module Classify.

(** The four values interpolated into [CLASSIFICATION_PROMPT]; the rest of
    the request is fixed. *)
Record prompt : Type := Prompt {
  p_source : pyval;
  p_title : pyval;
  p_text : pyval;
  p_ai_tool : pyval
}.

(** What [client.messages.create(...)] followed by
    [message.content[0].text] gives: the text of the answer, or an
    exception. *)
Inductive reply : Type :=
| ReplyText (text : string)
| ReplyRaise.

(** Console output, file writes, oracle requests and pauses, in the order
    in which a run performs them.  [i] is the position of the post in
    [posts_to_classify]. *)
Inductive event : Type :=
| ENoRaw
| ENoNew
| EClassifying (n : nat)
| EProgress (i n : nat) (title : pyval)
| ESkipLow (i : nat) (score : Z)
| EOracle (i : nat) (q : prompt)
| EJsonError (i : nat) (response : string)
| EClassifyError (i : nat)
| EAppendClassified (i : nat) (rec : dict)
| EValid (i : nat) (confidence : pyval)
| ENotValid (i : nat) (is_valid confidence : pyval)
| ESleep (i : nat)
| EAppendFinal (rec : dict)
| EAdded (n : nat).

(** The three logs of [data_dir] and what the run has done so far. *)
Record world : Type := World {
  raw_file : file;
  classified_file : file;
  final_file : file;
  trace : list event
}.

(** A computation that reads and writes the world and may raise. *)
Definition M (A : Type) : Type := world -> outcome A * world.

Definition ret {A} (a : A) : M A := fun w => (Ok a, w).

Definition raise {A} (e : exn) : M A := fun w => (Raise e, w).

Definition bind {A B} (m : M A) (f : A -> M B) : M B :=
  fun w =>
    match m w with
    | (Ok a, w') => f a w'
    | (Raise e, w') => (Raise e, w')
    end.

Definition lift {A} (o : outcome A) : M A := fun w => (o, w).

Declare Scope classify_scope.
Delimit Scope classify_scope with classify.
Notation "'let*' x ':=' m 'in' k" := (bind m (fun x => k))
  (at level 10, x name, m at level 100, k at level 200, only parsing)
  : classify_scope.
Notation "m ';;;' k" := (bind m (fun _ => k))
  (at level 100, k at level 200, right associativity, only parsing)
  : classify_scope.
Local Open Scope classify_scope.

Definition emit (e : event) : M unit :=
  fun w => (Ok tt, World (raw_file w) (classified_file w) (final_file w)
                         (trace w ++ [e])).

Definition emits (es : list event) : M unit :=
  fun w => (Ok tt, World (raw_file w) (classified_file w) (final_file w)
                         (trace w ++ es)).

(** [with open(classified_file, "a") as f: f.write(json.dumps(rec))]. *)
Definition append_classified (i : nat) (rec : dict) : M unit :=
  fun w => (Ok tt, World (raw_file w)
                         (append_records (classified_file w) [rec])
                         (final_file w)
                         (trace w ++ [EAppendClassified i rec])).

(** The final log gets all of [valid_moments] under one [open]. *)
Definition append_final (recs : list dict) : M unit :=
  fun w => (Ok tt, World (raw_file w) (classified_file w)
                         (append_records (final_file w) recs)
                         (trace w ++ map EAppendFinal recs)).

(** [v[:n]]: strings and lists can be sliced, anything else raises
    ([TypeError]; [KeyError] for a dict on recent interpreters). *)
Definition slice_to (n : nat) (v : pyval) : outcome pyval :=
  match v with
  | VStr s => Ok (VStr (PyStr.take n s))
  | VList l => Ok (VList (take n l))
  | _ => Raise TypeError
  end.

Definition backtick : string := String (ascii_of_nat 96) EmptyString.

(** The fence of a Markdown code block. *)
Definition fence : string := backtick +:+ backtick +:+ backtick.

(** Lines 71 to 78 of [classify_post]: the text handed to [json.loads]. *)
Definition unwrap_response (text : string) : outcome string :=
  let response_text := PyStr.strip text in
  if PyStr.startswith response_text fence then
    match PyStr.split response_text fence with
    | _ :: inner :: _ =>
        let inner :=
          if PyStr.startswith inner "json" then PyStr.drop 4 inner
          else inner in
        Ok (PyStr.strip inner)
    | _ => Raise IndexError
    end
  else Ok response_text.

(** [{**post, **result, "classified_at": datetime.utcnow().isoformat()}]
    for the [i]-th post: the fields of [result] win over those of [post]. *)
Definition merged (utcnow : nat -> string) (i : nat) (post r : dict) : dict :=
  <["classified_at" := VStr (utcnow i)]> (r ∪ post).
Arguments merged : simpl never.

Section Classifier.

(** [json.loads] on a text: [None] for [JSONDecodeError]. *)
Variable json_loads : string -> option pyval.

(** The oracle: the reply to the request made for the [i]-th post. *)
Variable ask : nat -> prompt -> reply.

(** [datetime.utcnow().isoformat()] as read for the [i]-th post. *)
Variable utcnow : nat -> string.

Variable min_confidence : Z.
Variable min_score : Z.

(** The keyword arguments of [CLASSIFICATION_PROMPT.format]; only the
    slice of [text] can raise. *)
Definition prompt_for (post : dict) : outcome prompt :=
  let! text := slice_to 1500 (get post "text" (VStr "")) in
  Ok (Prompt (get post "source" (VStr "")) (get post "title" (VStr ""))
             text (get post "ai_tool" (VStr "General"))).

(** [classify_post]: the result ([VNone] for Python's [None]) and what
    was printed and requested on the way.  Every exception is caught. *)
Definition classify_post (i : nat) (post : dict) : pyval * list event :=
  match prompt_for post with
  | Raise _ => (VNone, [EClassifyError i])
  | Ok q =>
      match ask i q with
      | ReplyRaise => (VNone, [EOracle i q; EClassifyError i])
      | ReplyText t =>
          match unwrap_response t with
          | Raise _ => (VNone, [EOracle i q; EClassifyError i])
          | Ok response_text =>
              match json_loads response_text with
              | None =>
                  (VNone, [EOracle i q;
                           EJsonError i (PyStr.take 200 response_text)])
              | Some result => (result, [EOracle i q])
              end
          end
      end
  end.

(** Lines 147 to 164: what is done with a truthy [result]. *)
Definition record_result (i : nat) (post : dict) (result : pyval)
    (valid_moments : list dict) : M (list dict) :=
  match result with
  | VDict r =>
      let classified := merged utcnow i post r in
      append_classified i classified ;;;
      if truthy (get_none r "is_valid_aha_moment") then
        let* conf := lift (as_int (get r "confidence" (VInt 0))) in
        if min_confidence <=? conf then
          emit (EValid i (get_none r "confidence")) ;;;
          ret (valid_moments ++ [classified])
        else
          emit (ENotValid i (get_none r "is_valid_aha_moment")
                          (get r "confidence" (VInt 0))) ;;;
          ret valid_moments
      else
        emit (ENotValid i (get_none r "is_valid_aha_moment")
                        (get r "confidence" (VInt 0))) ;;;
        ret valid_moments
  | _ => raise TypeError
  end.

(** The body of the [for i, post in enumerate(posts_to_classify)] loop;
    [n] is [len(posts_to_classify)].  *)
Definition classify_item (n i : nat) (post : dict)
    (valid_moments : list dict) : M (list dict) :=
  let* title := lift (slice_to 50 (get post "title" (VStr ""))) in
  emit (EProgress i n title) ;;;
  let* score := lift (as_int (get post "score" (VInt 0))) in
  if score <? min_score then
    emit (ESkipLow i score) ;;;
    ret valid_moments
  else
    let '(result, evs) := classify_post i post in
    emits evs ;;;
    let* valid_moments :=
      (if truthy result
       then record_result i post result valid_moments
       else ret valid_moments) in
    emit (ESleep i) ;;;
    ret valid_moments.

Fixpoint classify_loop (n : nat) (posts : list dict) (i : nat)
    (valid_moments : list dict) : M (list dict) :=
  match posts with
  | [] => ret valid_moments
  | post :: rest =>
      let* valid_moments := classify_item n i post valid_moments in
      classify_loop n rest (S i) valid_moments
  end.

(** Lines 106 to 115: the URLs of the classified log. *)
Fixpoint load_classified_urls (lines : list line) (urls : gset hkey)
    : outcome (gset hkey) :=
  match lines with
  | [] => Ok urls
  | None :: rest => load_classified_urls rest urls
  | Some (VDict item) :: rest =>
      match hash_key (url_of item) with
      | None => Raise TypeError
      | Some k => load_classified_urls rest ({[k]} ∪ urls)
      end
  | Some _ :: _ => Raise AttributeError
  end.

(** Lines 117 to 126: the raw posts whose URL is not classified yet. *)
Fixpoint load_posts_to_classify (lines : list line)
    (classified_urls : gset hkey) : outcome (list dict) :=
  match lines with
  | [] => Ok []
  | None :: rest => load_posts_to_classify rest classified_urls
  | Some (VDict post) :: rest =>
      match hash_key (get_none post "url") with
      | None => Raise TypeError
      | Some k =>
          let! tl := load_posts_to_classify rest classified_urls in
          Ok (if bool_decide (k ∈ classified_urls) then tl else post :: tl)
      end
  | Some _ :: _ => Raise AttributeError
  end.

(** Lines 106 to 126: [posts_to_classify] for the logs of [w]. *)
Definition posts_to_classify (w : world) : outcome (list dict) :=
  let! classified_urls :=
    load_classified_urls (file_lines (classified_file w)) ∅ in
  load_posts_to_classify (file_lines (raw_file w)) classified_urls.

Definition classify_all : M (list dict) :=
  fun w =>
    match raw_file w with
    | None => (emit ENoRaw ;;; ret []) w
    | Some _ =>
        (let* posts_to_classify := lift (posts_to_classify w) in
         match posts_to_classify with
         | [] => emit ENoNew ;;; ret []
         | _ :: _ =>
             emit (EClassifying (length posts_to_classify)) ;;;
             let* valid_moments :=
               classify_loop (length posts_to_classify)
                             posts_to_classify 0 [] in
             match valid_moments with
             | [] => ret []
             | _ :: _ =>
                 append_final valid_moments ;;;
                 emit (EAdded (length valid_moments)) ;;;
                 ret valid_moments
             end
         end) w
    end.

End Classifier.

(** [load_all_moments]: the lines of the final log that decode, in the
    order of the log; a log that does not exist has none. *)
Definition load_all_moments (final_file : file) : list pyval :=
  omap id (file_lines final_file).

(** ** Vocabulary of the properties *)

(** The position of the post an event belongs to. *)
Definition event_index (e : event) : option nat :=
  match e with
  | EProgress i _ _ | ESkipLow i _ | EOracle i _ | EJsonError i _
  | EClassifyError i | EAppendClassified i _ | EValid i _
  | ENotValid i _ _ | ESleep i => Some i
  | _ => None
  end.

(** The oracle requests of a trace, the records it appends to the
    classified log and those it appends to the final log. *)
Definition oracle_calls (evs : list event) : list (nat * prompt) :=
  omap (fun e => match e with EOracle i q => Some (i, q) | _ => None end) evs.

Definition classified_writes (evs : list event) : list (nat * dict) :=
  omap (fun e => match e with
                 | EAppendClassified i rec => Some (i, rec)
                 | _ => None
                 end) evs.

Definition final_writes (evs : list event) : list dict :=
  omap (fun e => match e with EAppendFinal rec => Some rec | _ => None end) evs.

Definition error_reports (evs : list event) : list nat :=
  omap (fun e => match e with
                 | EJsonError i _ | EClassifyError i => Some i
                 | _ => None
                 end) evs.

(** A log after some records were appended to it, if any were. *)
Definition append_if (f : file) (recs : list dict) : file :=
  match recs with
  | [] => f
  | _ :: _ => append_records f recs
  end.

(** The world after the events [evs]: the logs follow from the trace. *)
Definition extend (w : world) (evs : list event) : world :=
  World (raw_file w)
        (append_if (classified_file w) (map snd (classified_writes evs)))
        (append_if (final_file w) (final_writes evs))
        (trace w ++ evs).

(** Whether a request is still waiting for its pause after the events
    [evs], when [waiting] says so before them; [None] when a request
    follows another with no pause between them. *)
Fixpoint pace (waiting : bool) (evs : list event) : option bool :=
  match evs with
  | [] => Some waiting
  | EOracle _ _ :: rest => if waiting then None else pace true rest
  | ESleep _ :: rest => pace false rest
  | _ :: rest => pace waiting rest
  end.

(** A request or a pause made for the post at position [i]. *)
Definition is_busy (i : nat) (e : event) : bool :=
  match e with
  | EOracle j _ | ESleep j => Nat.eqb i j
  | _ => false
  end.

(** The raw post [p] is still selected for classification after the
    records [recs] were appended to the classified log: none of them has
    its URL. *)
Definition still_pending (recs : list dict) (p : dict) : bool :=
  match hash_key (get_none p "url") with
  | Some k => bool_decide (k ∉ url_keys recs)
  | None => true
  end.

(** The acceptance test of line 160 on an oracle result. *)
Definition accepted (min_confidence : Z) (r : dict) : Prop :=
  truthy (get_none r "is_valid_aha_moment") = true ∧
  exists c, as_int (get r "confidence" (VInt 0)) = Ok c ∧ min_confidence <= c.


(** [m] run from [w] ends with [res] after the events [evs]. *)
Definition runs {A} (m : M A) (w : world) (res : outcome A)
    (evs : list event) : Prop :=
  m w = (res, extend w evs).

Section Vocabulary.

Variable json_loads : string -> option pyval.
Variable ask : nat -> prompt -> reply.
Variable utcnow : nat -> string.
Variable min_confidence min_score : Z.

(** What [classify_post] returns for the [i]-th post. *)
Definition post_result (i : nat) (post : dict) : pyval :=
  (classify_post json_loads ask i post).1.

(** The post passes the engagement floor. *)
Definition scored (post : dict) : Prop :=
  exists s, as_int (get post "score" (VInt 0)) = Ok s ∧ min_score <= s.

(** What one iteration of the loop did for the post at position [i]:
    its events [evs] and the moments [news] it added to
    [valid_moments]. *)
Definition item_ok (i : nat) (post : dict) (evs : list event)
    (news : list dict) : Prop :=
  Forall (fun e => event_index e = Some i) evs ∧
  final_writes evs = [] ∧
  (oracle_calls evs = [] ∨
   exists q, oracle_calls evs = [(i, q)] ∧ prompt_for post = Ok q ∧
     scored post) ∧
  (classified_writes evs = [] ∧ news = [] ∨
   exists r, classified_writes evs = [(i, merged utcnow i post r)] ∧
     post_result i post = VDict r ∧ oracle_calls evs <> [] ∧
     (news = [] ∨
      news = [merged utcnow i post r] ∧ accepted min_confidence r)).

(** What the loop did over [posts], the first of which has position
    [i0]. *)
Definition loop_ok (i0 : nat) (posts : list dict) (evs : list event)
    (news : list dict) : Prop :=
  final_writes evs = [] ∧
  (forall j q, (j, q) ∈ oracle_calls evs ->
     (i0 <= j)%nat ∧
     exists post, posts !! (j - i0)%nat = Some post ∧
       prompt_for post = Ok q ∧ scored post) ∧
  NoDup (oracle_calls evs).*1 ∧
  (forall j rec, (j, rec) ∈ classified_writes evs ->
     (i0 <= j)%nat ∧ j ∈ (oracle_calls evs).*1 ∧
     exists post r, posts !! (j - i0)%nat = Some post ∧
       post_result j post = VDict r ∧ rec = merged utcnow j post r) ∧
  NoDup (classified_writes evs).*1 ∧
  (forall rec, rec ∈ news ->
     exists j post r, (j, rec) ∈ classified_writes evs ∧
       posts !! (j - i0)%nat = Some post ∧
       post_result j post = VDict r ∧ rec = merged utcnow j post r ∧
       accepted min_confidence r).

(** What a whole run did: the events before the loop, those of the loop
    over [posts], and those after it. *)
Definition run_ok (w : world) (evs : list event) : Prop :=
  exists posts pre loop_evs fin news,
    evs = pre ++ loop_evs ++ fin ∧
    (posts = [] ∨ posts_to_classify w = Ok posts) ∧
    loop_ok 0 posts loop_evs news ∧
    oracle_calls pre = [] ∧ classified_writes pre = [] ∧
    final_writes pre = [] ∧
    oracle_calls fin = [] ∧ classified_writes fin = [] ∧
    (final_writes fin = [] ∨ final_writes fin = news).

End Vocabulary.

End Classify.

(** * generate_html.py *)

Module GenerateHtml.

(** ** [list.sort(key=..., reverse=True)] *)

(** Python's sort is stable, also with [reverse=True]: the result is in
    descending key order and elements with equal keys keep the order they
    had.  Exactly one list has these properties, so the algorithm does not
    matter; this is insertion sort.  [lt a b] is [key(a) < key(b)]. *)
Section SortDesc.

Context {A : Type} (lt : A -> A -> bool).

Fixpoint insert_desc (x : A) (l : list A) : list A :=
  match l with
  | [] => [x]
  | y :: r => if lt x y then y :: insert_desc x r else x :: y :: r
  end.

Definition sort_desc (l : list A) : list A := foldr insert_desc [] l.

End SortDesc.

(** ** [load_moments] *)

(** The key [(x.get("curated", False), x.get("confidence", 0))] of a
    moment whose two fields are numbers or booleans.  For other values
    whether Python's sort raises [TypeError] depends on the comparisons it
    happens to make; the model raises. *)
Definition sort_key (x : dict) : outcome (Z * Z) :=
  let! c := as_int (get x "curated" (VBool false)) in
  let! f := as_int (get x "confidence" (VInt 0)) in
  Ok (c, f).

(** Tuple comparison [a < b]. *)
Definition key_lt (a b : Z * Z) : bool :=
  (a.1 <? b.1) || ((a.1 =? b.1) && (a.2 <? b.2)).

(** [x.get] needs a dict. *)
Fixpoint as_dicts (vs : list pyval) : outcome (list dict) :=
  match vs with
  | [] => Ok []
  | VDict d :: rest => let! tl := as_dicts rest in Ok (d :: tl)
  | _ :: _ => Raise AttributeError
  end.

Fixpoint with_keys (ms : list dict) : outcome (list (Z * Z * dict)) :=
  match ms with
  | [] => Ok []
  | m :: rest =>
      let! k := sort_key m in
      let! tl := with_keys rest in
      Ok ((k, m) :: tl)
  end.

Definition sort_moments (keyed : list (Z * Z * dict)) : list dict :=
  map snd (sort_desc (fun a b => key_lt a.1 b.1) keyed).

Definition load_moments (moments_file : file) : outcome (list dict) :=
  let moments := omap id (file_lines moments_file) in
  let! ms := as_dicts moments in
  let! keyed := with_keys ms in
  Ok (sort_moments keyed).

(** ** [analyze_patterns] *)

Definition phrases : list string :=
  ["conversation"; "dialogue"; "partner"; "thinking"; "first-try";
   "accuracy"; "trust"; "time"; "speed"; "document"; "pdf"].

(** A [Counter] whose order is observed ([most_common]): its items in
    insertion order. *)
Abbreviation ordered_counter := (list (string * nat)).

(** [c[k] += 1]. *)
Fixpoint counter_incr (k : string) (c : ordered_counter) : ordered_counter :=
  match c with
  | [] => [(k, 1%nat)]
  | (k', n) :: r =>
      if bool_decide (k = k') then (k', S n) :: r
      else (k', n) :: counter_incr k r
  end.

(** [c.most_common(n)]: the first [n] items of the stable sort by
    descending count. *)
Definition most_common (n : nat) (c : ordered_counter) : ordered_counter :=
  take n (sort_desc (fun a b => (a.2 <? b.2)%nat) c).

(** A [Counter] whose order nobody looks at. *)
Abbreviation counter := (gmap hkey nat).

Definition count_of (c : counter) (k : hkey) : nat := default 0%nat (c !! k).

Definition counter_add (k : hkey) (c : counter) : counter :=
  <[k := S (count_of c k)]> c.

(** The inner loop over the phrase vocabulary. *)
Fixpoint scan_phrases (realization : string) (ps : list string)
    (c : ordered_counter) : ordered_counter :=
  match ps with
  | [] => c
  | phrase :: rest =>
      scan_phrases realization rest
        (if PyStr.contains phrase realization then counter_incr phrase c
         else c)
  end.

Fixpoint count_realizations (moments : list dict) (c : ordered_counter)
    : outcome ordered_counter :=
  match moments with
  | [] => Ok c
  | m :: rest =>
      match get m "realization" (VStr "") with
      | VStr s => count_realizations rest (scan_phrases (PyStr.lower s) phrases c)
      | _ => Raise AttributeError
      end
  end.

(** [Counter(m.get(field, dflt) for m in moments)]. *)
Fixpoint count_field (field : string) (dflt : pyval) (moments : list dict)
    (c : counter) : outcome counter :=
  match moments with
  | [] => Ok c
  | m :: rest =>
      match hash_key (get m field dflt) with
      | None => Raise TypeError
      | Some k => count_field field dflt rest (counter_add k c)
      end
  end.

Fixpoint chars (s : string) : list pyval :=
  match s with
  | EmptyString => []
  | String c s' => VStr (String c EmptyString) :: chars s'
  end.

(** [for lever in v]: the elements of a list, the characters of a string,
    the keys of a dict. *)
Definition iterate (v : pyval) : outcome (list pyval) :=
  match v with
  | VList l => Ok l
  | VStr s => Ok (chars s)
  | VDict d => Ok (map (fun kv => VStr kv.1) (map_to_list d))
  | _ => Raise TypeError
  end.

Fixpoint count_all (vs : list pyval) (c : counter) : outcome counter :=
  match vs with
  | [] => Ok c
  | v :: rest =>
      match hash_key v with
      | None => Raise TypeError
      | Some k => count_all rest (counter_add k c)
      end
  end.

Fixpoint count_levers (moments : list dict) (c : counter) : outcome counter :=
  match moments with
  | [] => Ok c
  | m :: rest =>
      let! ls := iterate (get m "growth_levers" (VList [])) in
      let! c := count_all ls c in
      count_levers rest c
  end.

Record analysis : Type := Analysis {
  patterns : ordered_counter;
  layers : counter;
  levers : counter;
  tools : counter;
  total : nat
}.

Definition analyze_patterns (moments : list dict) : outcome analysis :=
  let! realization_words := count_realizations moments [] in
  let! layers := count_field "layer" (VStr "unknown") moments ∅ in
  let! levers := count_levers moments ∅ in
  let! tools := count_field "ai_tool" (VStr "Unknown") moments ∅ in
  Ok (Analysis (most_common 5 realization_words) layers levers tools
               (length moments)).

(** ** [generate_insights_html] *)

Definition dquote : string := String (ascii_of_nat 34) EmptyString.

(** The local [patterns] of [generate_insights_html]: what the
    "Emerging patterns" card lists. *)
Definition insight_patterns (a : analysis) : list (nat * string) :=
  map (fun wc : string * nat =>
         (wc.2, dquote +:+ PyStr.title wc.1 +:+ dquote
                +:+ " theme appears in realizations"))
      (take 4 (patterns a)).

(** The multiplication sign in UTF-8. *)
Definition times_sign : string :=
  String (ascii_of_nat 195) (String (ascii_of_nat 151) EmptyString).

(** The list items of the card, joined. *)
Definition patterns_html (a : analysis) : string :=
  foldr (fun ct acc =>
           "<li><span class=" +:+ dquote +:+ "count" +:+ dquote +:+ ">"
           +:+ pretty (ct.1 : nat) +:+ times_sign +:+ "</span> "
           +:+ ct.2 +:+ "</li>" +:+ acc)
        "" (insight_patterns a).

(** ** Vocabulary of the properties *)


(** An ordered counter has one entry per key and no zero count. *)
Definition counter_inv (c : ordered_counter) : Prop :=
  NoDup c.*1 ∧ Forall (fun p => (0 < p.2)%nat) c.

(** The lowered [realization] of a moment. *)
Definition realization_of (m : dict) : string :=
  match get m "realization" (VStr "") with
  | VStr s => PyStr.lower s
  | _ => ""
  end.

Definition mentions (phrase : string) (m : dict) : bool :=
  PyStr.contains phrase (realization_of m).

(** The number of moments whose realization mentions [phrase]. *)
Definition phrase_count (phrase : string) (ms : list dict) : nat :=
  length (filter (fun m => mentions phrase m = true) ms).

(** The number of moments whose [field] hashes to [k]. *)
Definition field_count (field : string) (dflt : pyval) (k : hkey)
    (ms : list dict) : nat :=
  length (filter (fun m => hash_key (get m field dflt) = Some k) ms).

Definition levers_of (m : dict) : list pyval :=
  match iterate (get m "growth_levers" (VList [])) with
  | Ok ls => ls
  | Raise _ => []
  end.

(** The number of times [k] occurs among the levers of all moments. *)
Definition lever_count (k : hkey) (ms : list dict) : nat :=
  sum_list (map (fun m => length (filter (fun v => hash_key v = Some k)
                                         (levers_of m))) ms).

(** The count an ordered counter holds for [k]. *)
Fixpoint assoc_count (k : string) (c : ordered_counter) : nat :=
  match c with
  | [] => 0
  | (k', n) :: r => if bool_decide (k = k') then n else assoc_count k r
  end.

(** The line of the "Emerging patterns" card for a phrase and its count. *)
Definition pattern_line (wc : string * nat) : nat * string :=
  (wc.2, dquote +:+ PyStr.title wc.1 +:+ dquote
         +:+ " theme appears in realizations").
(** A moment on which no pass of [analyze_patterns] raises. *)
Definition moment_ok (m : dict) : Prop :=
  (exists s, get m "realization" (VStr "") = VStr s) ∧
  is_Some (hash_key (get m "layer" (VStr "unknown"))) ∧
  (exists ls, iterate (get m "growth_levers" (VList [])) = Ok ls ∧
     Forall (fun v => is_Some (hash_key v)) ls) ∧
  is_Some (hash_key (get m "ai_tool" (VStr "Unknown"))).

End GenerateHtml.

(** * scraper.py: the text predicates and the fetchers *)

Module Fetch.

Definition AHA_KEYWORDS : list string :=
  ["aha moment"; "finally clicked"; "finally understood"; "mind blown";
   "game changer"; "changed everything"; "holy shit"; "blew my mind";
   "lightbulb moment"; "eureka"; "finally get it"; "now I understand";
   "changed how I"; "never going back"; "completely changed"; "revelation";
   "breakthrough"; "wow moment"].

Definition AI_TOOLS : list string :=
  ["claude"; "chatgpt"; "gpt-4"; "gpt4"; "gemini"; "grok"; "perplexity";
   "copilot"; "cursor"; "anthropic"; "openai"; "llm"; "ai assistant";
   "ai tool"].

(** [any(kw in text_lower for kw in kws)]. *)
Definition any_in (kws : list string) (text_lower : string) : bool :=
  existsb (fun kw => PyStr.contains kw text_lower) kws.

Definition has_aha_signal (text : string) : bool :=
  any_in AHA_KEYWORDS (PyStr.lower text).

Definition has_ai_mention (text : string) : bool :=
  any_in AI_TOOLS (PyStr.lower text).

Definition tool_mapping : list (list string * string) :=
  [ (["claude"; "anthropic"], "Claude");
    (["chatgpt"; "gpt-4"; "gpt4"; "openai"], "ChatGPT");
    (["gemini"; "bard"], "Gemini");
    (["grok"], "Grok");
    (["perplexity"], "Perplexity");
    (["copilot"], "Copilot");
    (["cursor"], "Cursor") ].

(** The [for keywords, tool_name in tool_mapping] loop with its early
    [return]. *)
Fixpoint first_tool (mapping : list (list string * string))
    (text_lower : string) : string :=
  match mapping with
  | [] => "General"
  | (keywords, tool_name) :: rest =>
      if any_in keywords text_lower then tool_name
      else first_tool rest text_lower
  end.

Definition extract_ai_tool (text : string) : string :=
  first_tool tool_mapping (PyStr.lower text).

(** [v.get(k, dflt)] on a decoded JSON value: only objects have [get]. *)
Definition get_of (v : pyval) (k : string) (dflt : pyval) : outcome pyval :=
  match v with
  | VDict d => Ok (get d k dflt)
  | _ => Raise AttributeError
  end.

(** [a or b]. *)
Definition py_or (a b : pyval) : pyval := if truthy a then a else b.

(** [v[:n] if v else ""]. *)
Definition excerpt (n : nat) (v : pyval) : outcome pyval :=
  if truthy v then Classify.slice_to n v else Ok (VStr "").

(** The body of a fetcher's loop is run on each record in turn; the
    exception handler around the loop keeps the posts built before the
    exception. *)
Fixpoint collect (build : pyval -> outcome (option dict))
    (records : list pyval) (posts : list dict) : list dict :=
  match records with
  | [] => posts
  | r :: rest =>
      match build r with
      | Raise _ => posts
      | Ok None => collect build rest posts
      | Ok (Some p) => collect build rest (posts ++ [p])
      end
  end.

Section Fetchers.

(** [client.get(url)], [raise_for_status()] and [response.json()]: the
    decoded body, or the exception of any of the three. *)
Variable http : string -> outcome pyval.

(** [str(v)], as an f-string formats a value. *)
Variable py_str : pyval -> string.

Definition full_text_of (title body : pyval) : string :=
  py_str title +:+ " " +:+ py_str body.

(** The post [fetch_reddit_posts] builds from a child of the listing, if
    it passes both filters. *)
Definition reddit_listing_post (subreddit : string) (child : pyval)
    : outcome (option dict) :=
  let! post := get_of child "data" (VDict ∅) in
  let! title := get_of post "title" (VStr "") in
  let! selftext := get_of post "selftext" (VStr "") in
  let full_text := full_text_of title selftext in
  if has_aha_signal full_text && has_ai_mention full_text then
    let! text := excerpt 2000 selftext in
    let! permalink := get_of post "permalink" (VStr "") in
    let! score := get_of post "score" (VInt 0) in
    let! num_comments := get_of post "num_comments" (VInt 0) in
    let! created_utc := get_of post "created_utc" (VInt 0) in
    let! author := get_of post "author" (VStr "") in
    Ok (Some (<["source" := VStr "Reddit"]>
             (<["subreddit" := VStr subreddit]>
             (<["title" := title]>
             (<["text" := text]>
             (<["url" := VStr ("https://reddit.com" +:+ py_str permalink)]>
             (<["score" := score]>
             (<["num_comments" := num_comments]>
             (<["created_utc" := created_utc]>
             (<["author" := author]>
             (<["ai_tool" := VStr (extract_ai_tool full_text)]> ∅)))))))))))
  else Ok None.

(** The post [fetch_reddit_search] builds from a child of the result. *)
Definition reddit_search_post (child : pyval) : outcome (option dict) :=
  let! post := get_of child "data" (VDict ∅) in
  let! title := get_of post "title" (VStr "") in
  let! selftext := get_of post "selftext" (VStr "") in
  let full_text := full_text_of title selftext in
  if has_ai_mention full_text then
    let! subreddit := get_of post "subreddit" (VStr "") in
    let! text := excerpt 2000 selftext in
    let! permalink := get_of post "permalink" (VStr "") in
    let! score := get_of post "score" (VInt 0) in
    let! num_comments := get_of post "num_comments" (VInt 0) in
    let! created_utc := get_of post "created_utc" (VInt 0) in
    let! author := get_of post "author" (VStr "") in
    Ok (Some (<["source" := VStr "Reddit"]>
             (<["subreddit" := subreddit]>
             (<["title" := title]>
             (<["text" := text]>
             (<["url" := VStr ("https://reddit.com" +:+ py_str permalink)]>
             (<["score" := score]>
             (<["num_comments" := num_comments]>
             (<["created_utc" := created_utc]>
             (<["author" := author]>
             (<["ai_tool" := VStr (extract_ai_tool full_text)]> ∅)))))))))))
  else Ok None.

Definition hn_item_url (object_id : pyval) : string :=
  "https://news.ycombinator.com/item?id=" +:+ py_str object_id.

(** The post [fetch_hn_search_algolia] builds from a hit. *)
Definition hn_search_post (hit : pyval) : outcome (option dict) :=
  let! title := get_of hit "title" (VStr "") in
  let! story_text := get_of hit "story_text" (VStr "") in
  let text := py_or story_text (VStr "") in
  let full_text := full_text_of title text in
  if has_ai_mention full_text then
    let! text' := excerpt 2000 text in
    let! url := get_of hit "url" VNone in
    let! object_id := get_of hit "objectID" VNone in
    let! points := get_of hit "points" (VInt 0) in
    let! num_comments := get_of hit "num_comments" (VInt 0) in
    let! created_at_i := get_of hit "created_at_i" (VInt 0) in
    let! author := get_of hit "author" (VStr "") in
    Ok (Some (<["source" := VStr "HackerNews"]>
             (<["title" := title]>
             (<["text" := text']>
             (<["url" := py_or url (VStr (hn_item_url object_id))]>
             (<["hn_url" := VStr (hn_item_url object_id)]>
             (<["score" := points]>
             (<["num_comments" := num_comments]>
             (<["created_utc" := created_at_i]>
             (<["author" := author]>
             (<["ai_tool" := VStr (extract_ai_tool full_text)]> ∅)))))))))))
  else Ok None.

(** [data.get("data", {}).get("children", [])], iterated. *)
Definition reddit_children (data : pyval) : outcome (list pyval) :=
  let! inner := get_of data "data" (VDict ∅) in
  let! children := get_of inner "children" (VList []) in
  GenerateHtml.iterate children.

(** The common shape of the three fetchers: any exception before the loop
    leaves [posts] empty. *)
Definition fetch_with (url : string)
    (records_of : pyval -> outcome (list pyval))
    (build : pyval -> outcome (option dict)) : list dict :=
  match http url with
  | Raise _ => []
  | Ok data =>
      match records_of data with
      | Raise _ => []
      | Ok records => collect build records []
      end
  end.

Definition fetch_reddit_posts (subreddit : string) (limit : nat) : list dict :=
  fetch_with ("https://www.reddit.com/r/" +:+ subreddit
              +:+ "/new.json?limit=" +:+ pretty limit)
             reddit_children (reddit_listing_post subreddit).

Definition fetch_reddit_search (query : string) (limit : nat) : list dict :=
  fetch_with ("https://www.reddit.com/search.json?q=" +:+ query
              +:+ "&sort=relevance&limit=" +:+ pretty limit)
             reddit_children reddit_search_post.

Definition fetch_hn_search_algolia (query : string) (limit : nat)
    : list dict :=
  fetch_with ("https://hn.algolia.com/api/v1/search?query=" +:+ query
              +:+ "&tags=story&hitsPerPage=" +:+ pretty limit)
             (fun data =>
                let! hits := get_of data "hits" (VList []) in
                GenerateHtml.iterate hits)
             hn_search_post.

(** [scrape_all] with the fetchers as it calls them ([limit=50]). *)
Definition scrape_all (utcnow : nat -> string) (data_file : file)
    : outcome (list dict) * file :=
  Scraper.scrape_all (fun q => fetch_reddit_search q 50)
                     (fun s => fetch_reddit_posts s 50)
                     (fun q => fetch_hn_search_algolia q 50)
                     utcnow data_file.

End Fetchers.

(** ** Vocabulary of the properties *)

(** The entries of [AHA_KEYWORDS] without a capital letter. *)
Definition lowercase_keywords : list string :=
  filter (fun kw => forallb (fun c => negb (PyStr.has_char c kw))
                            (map ascii_of_nat (seq 65 26)) = true)
         AHA_KEYWORDS.

(** No keyword of the groups [groups] occurs in [text_lower]. *)
Definition no_match (groups : list (list string * string))
    (text_lower : string) : Prop :=
  Forall (fun g => any_in g.1 text_lower = false) groups.

(** The post the loop body appends for a record, if any. *)
Definition built (build : pyval -> outcome (option dict)) (r : pyval)
    : option dict :=
  match build r with
  | Ok o => o
  | Raise _ => None
  end.

(** The fields every fetcher sets from the text of a record. *)
Definition tagged (source : string) (full_text : string) (p : dict) : Prop :=
  p !! "source" = Some (VStr source) ∧
  p !! "ai_tool" = Some (VStr (extract_ai_tool full_text)) ∧
  has_ai_mention full_text = true.

End Fetch.

(** * collect.py *)

Module Collect.

Import Classify.

Section Main.

Variable fetch_reddit_search fetch_reddit_posts fetch_hn_search_algolia
  : string -> list dict.

(** The clocks of the two steps. *)
Variable scraped_at classified_at : nat -> string.

Variable json_loads : string -> option pyval.
Variable ask : nat -> prompt -> reply.

(** The three logs when [main] ends, normally or with an exception:
    steps 1 and 2 write them, step 3 and the summary only read.  Both
    steps are called with their default arguments. *)
Definition main_logs (w : world) : world :=
  let '(new_posts, raw) :=
    Scraper.scrape_all fetch_reddit_search fetch_reddit_posts
                       fetch_hn_search_algolia scraped_at (raw_file w) in
  let w1 := World raw (classified_file w) (final_file w) (trace w) in
  match new_posts with
  | Raise _ => w1
  | Ok [] => w1
  | Ok (_ :: _) => (classify_all json_loads ask classified_at 60 5 w1).2
  end.

End Main.

End Collect.

(** * Sample inputs *)

(** Concrete posts, logs and oracle answers on which the theorems below are
    instantiated. *)
Module Samples.

Import Classify.

Definition post_a1 : dict :=
  {[ "url" := VStr "https://reddit.com/r/ClaudeAI/a"; "title" := VStr "first";
     "score" := VInt 10 ]}.

Definition post_b : dict :=
  {[ "url" := VStr "https://reddit.com/r/ChatGPT/b"; "title" := VStr "other";
     "score" := VInt 2 ]}.

(** The URL of [post_a1] under another title. *)
Definition post_a2 : dict :=
  {[ "url" := VStr "https://reddit.com/r/ClaudeAI/a"; "title" := VStr "second";
     "score" := VInt 7 ]}.

Definition post_no_url : dict := {[ "title" := VStr "no url" ]}.

Definition post_empty_url : dict :=
  {[ "url" := VStr ""; "title" := VStr "empty url" ]}.

Definition batch : list dict := [post_a1; post_b; post_a2].

Definition batch_without_urls : list dict := [post_no_url; post_empty_url].

(** A network on which the Reddit search for the first keyword finds
    [batch] and every other request finds nothing. *)
Definition reddit_search (q : string) : list dict :=
  if bool_decide (q = "aha moment AI") then batch else [].

Definition no_posts (q : string) : list dict := [].

Definition clock (i : nat) : string := "2026-01-01T00:00:00".

(** A raw log that already holds [post_b]. *)
Definition raw_with_b : file := Some [Some (VDict post_b)].

(** ** Oracle answers *)

Definition nl : string := String (ascii_of_nat 10) EmptyString.

Definition dq : string := String (ascii_of_nat 34) EmptyString.

(** [{"is_valid_aha_moment": true, "confidence": 80}] *)
Definition accept_text : string :=
  "{" +:+ dq +:+ "is_valid_aha_moment" +:+ dq +:+ ": true, "
  +:+ dq +:+ "confidence" +:+ dq +:+ ": 80}".

Definition accept_result : dict :=
  {[ "is_valid_aha_moment" := VBool true; "confidence" := VInt 80 ]}.

(** [{"is_valid_aha_moment": false, "confidence": 80}] *)
Definition reject_text : string :=
  "{" +:+ dq +:+ "is_valid_aha_moment" +:+ dq +:+ ": false, "
  +:+ dq +:+ "confidence" +:+ dq +:+ ": 80}".

Definition reject_result : dict :=
  {[ "is_valid_aha_moment" := VBool false; "confidence" := VInt 80 ]}.

(** [{"quote": "```"}]: a JSON object with a fence inside a string. *)
Definition fence_quote_text : string :=
  "{" +:+ dq +:+ "quote" +:+ dq +:+ ": " +:+ dq +:+ fence +:+ dq +:+ "}".

Definition fence_quote_result : dict := {[ "quote" := VStr fence ]}.

(** [json.loads] on the texts above; it raises on every other text used
    below ("oops" and the truncated object). *)
Definition sample_loads (s : string) : option pyval :=
  if bool_decide (s = accept_text) then Some (VDict accept_result)
  else if bool_decide (s = reject_text) then Some (VDict reject_result)
  else if bool_decide (s = fence_quote_text) then Some (VDict fence_quote_result)
  else None.

(** The same answer in a fenced block with the [json] tag. *)
Definition fenced (body : string) : string :=
  fence +:+ "json" +:+ nl +:+ body +:+ nl +:+ fence.

Definition ask_accept (i : nat) (q : prompt) : reply :=
  ReplyText (fenced accept_text).

Definition ask_reject (i : nat) (q : prompt) : reply := ReplyText reject_text.

Definition ask_garbage (i : nat) (q : prompt) : reply := ReplyText "oops".

(** The raw log holds [post_a1] (score 10) and [post_b] (score 2); nothing
    is classified yet. *)
Definition fresh_world : world :=
  World (Some [Some (VDict post_a1); Some (VDict post_b)]) None None [].

Definition prompt_a1 : prompt :=
  Prompt (VStr "") (VStr "first") (VStr "") (VStr "General").

(** ** Accepted moments *)

(** One moment whose realization mentions five phrases of the
    vocabulary. *)
Definition five_themes : list dict :=
  [ {[ "realization" :=
         VStr "Conversation with a thinking partner builds trust over time";
       "layer" := VStr "how";
       "growth_levers" := VList [VStr "activation"; VStr "retention"];
       "ai_tool" := VStr "Claude" ]} ].

Definition moment_plain : dict :=
  {[ "url" := VStr "u1"; "confidence" := VInt 70 ]}.

Definition moment_curated : dict :=
  {[ "url" := VStr "u2"; "confidence" := VInt 60; "curated" := VBool true ]}.

Definition moment_plain_later : dict :=
  {[ "url" := VStr "u3"; "confidence" := VInt 70 ]}.

(** A final log with an undecodable line between the records. *)
Definition final_log : file :=
  Some [Some (VDict moment_plain); None; Some (VDict moment_curated);
        Some (VDict moment_plain_later)].

End Samples.

(** * Sample network *)

Module Network.

Import Fetch.

(** [str] on the values the samples hold. *)
Definition str_of (v : pyval) : string :=
  match v with
  | VStr s => s
  | VInt z => pretty z
  | VBool true => "True"
  | VBool false => "False"
  | _ => "None"
  end.

Definition child_claude : pyval :=
  VDict {[ "data" := VDict {[
    "title" := VStr "Aha moment with Claude";
    "selftext" := VStr "It finally clicked.";
    "permalink" := VStr "/r/ClaudeAI/comments/1";
    "subreddit" := VStr "ClaudeAI";
    "score" := VInt 12 ]} ]}.

(** A child without AI vocabulary. *)
Definition child_off_topic : pyval :=
  VDict {[ "data" := VDict {[
    "title" := VStr "Mind blown by sourdough";
    "permalink" := VStr "/r/Bread/comments/2" ]} ]}.

(** A child that is not an object. *)
Definition child_broken : pyval := VInt 7.

Definition listing : pyval :=
  VDict {[ "data" := VDict {[
    "children" := VList [child_off_topic; child_claude; child_broken;
                         child_claude] ]} ]}.

Definition hit_with_url : pyval :=
  VDict {[ "title" := VStr "How an LLM changed my workflow";
           "url" := VStr "https://example.org/llm";
           "objectID" := VStr "41"; "points" := VInt 30 ]}.

Definition hit_without_url : pyval :=
  VDict {[ "title" := VStr "Ask HN: ChatGPT workflow";
           "story_text" := VStr "What is yours?";
           "objectID" := VStr "42" ]}.

Definition hits : pyval :=
  VDict {[ "hits" := VList [hit_with_url; hit_without_url] ]}.

(** Reddit answers every request with [listing], Algolia with [hits]. *)
Definition http (url : string) : outcome pyval :=
  if PyStr.contains "reddit.com" url then Ok listing else Ok hits.

Definition reddit_post : dict :=
  {[ "source" := VStr "Reddit"; "subreddit" := VStr "ClaudeAI";
     "title" := VStr "Aha moment with Claude";
     "text" := VStr "It finally clicked.";
     "url" := VStr "https://reddit.com/r/ClaudeAI/comments/1";
     "score" := VInt 12; "num_comments" := VInt 0; "created_utc" := VInt 0;
     "author" := VStr ""; "ai_tool" := VStr "Claude" ]}.

Definition hn_post : dict :=
  {[ "source" := VStr "HackerNews";
     "title" := VStr "Ask HN: ChatGPT workflow";
     "text" := VStr "What is yours?";
     "url" := VStr "https://news.ycombinator.com/item?id=42";
     "hn_url" := VStr "https://news.ycombinator.com/item?id=42";
     "score" := VInt 0; "num_comments" := VInt 0; "created_utc" := VInt 0;
     "author" := VStr ""; "ai_tool" := VStr "ChatGPT" ]}.

End Network.


(** * Sample answers *)

Module Replies.

Import Classify.

(** [json.loads] that also decodes the array [[1]]. *)
Definition loads (s : string) : option pyval :=
  if bool_decide (s = "[1]") then Some (VList [VInt 1])
  else Samples.sample_loads s.

(** The oracle answers every request with the array. *)
Definition ask_array (i : nat) (q : prompt) : reply := ReplyText "[1]".

(** The world of [Samples.fresh_world] after [post_a1] was accepted. *)
Definition settled_world : world :=
  World (raw_file Samples.fresh_world)
        (Some [Some (VDict (merged Samples.clock 0 Samples.post_a1
                                   Samples.accept_result))])
        None [].

(** A hit whose [url] is a list. *)
Definition post_list_url : dict :=
  {[ "url" := VList [VStr "https://example.org"]; "title" := VStr "odd" ]}.

End Replies.

(** * Facts about lists *)

Module ListFacts.

(** [List.map] and its membership, in the vocabulary of [∈]. *)
Lemma elem_of_map {A B} (f : A -> B) (l : list A) (y : B) :
  y ∈ map f l <-> exists x, y = f x ∧ x ∈ l.
Proof. exact (list_elem_of_fmap f l y). Qed.

Lemma StronglySorted_weaken {A} (R S : A -> A -> Prop) (l : list A) :
  (forall x y, R x y -> S x y) -> StronglySorted R l -> StronglySorted S l.
Proof.
  intros HRS. induction 1 as [|x l _ IH Hx]; [constructor|].
  apply StronglySorted_cons. split; [|done].
  eapply Forall_impl; [exact Hx|]. intros y. apply HRS.
Qed.

End ListFacts.

(** * Properties of the Collector *)

Module ScraperSpec.

Import Scraper.

(** ** [deduplicate_posts] computes the first carriers *)

Lemma dedup_loop_firsts posts : forall seen unique out,
  dedup_loop posts seen unique = Ok out ->
  exists news, out = unique ++ news /\ firsts seen posts news.
Proof.
  induction posts as [|p rest IH]; intros seen unique out H; simpl in H.
  - inversion H; subst. exists []. rewrite app_nil_r. split; [done|constructor].
  - destruct (truthy (url_of p)) eqn:Ht.
    + destruct (hash_key (url_of p)) as [k|] eqn:Hk; [|discriminate].
      case_bool_decide as Hin.
      * destruct (IH _ _ _ H) as (news & -> & Hf).
        exists news. split; [done|]. eapply firsts_seen; eauto. by split.
      * destruct (IH _ _ _ H) as (news & -> & Hf).
        exists (p :: news). rewrite <- app_assoc. split; [done|].
        eapply firsts_new; eauto. by split.
    + destruct (IH _ _ _ H) as (news & -> & Hf).
      exists news. split; [done|]. by apply firsts_no_url.
Qed.

Lemma firsts_dedup_loop seen posts news :
  firsts seen posts news ->
  forall unique, dedup_loop posts seen unique = Ok (unique ++ news).
Proof.
  induction 1 as [seen|seen p rest news Ht _ IH|seen k p rest news [Ht Hk] Hin _ IH
                 |seen k p rest news [Ht Hk] Hin _ IH]; intros unique; simpl.
  - by rewrite app_nil_r.
  - by rewrite Ht.
  - rewrite Ht, Hk. by rewrite bool_decide_true.
  - rewrite Ht, Hk. rewrite bool_decide_false by done.
    rewrite IH. by rewrite <- app_assoc.
Qed.

Lemma firsts_total posts : Forall url_hashable posts ->
  forall seen, exists news, firsts seen posts news.
Proof.
  induction 1 as [|p rest Hp _ IH]; intros seen.
  - exists []. constructor.
  - destruct (truthy (url_of p)) eqn:Ht.
    + destruct (Hp Ht) as [k Hk].
      destruct (decide (k ∈ seen)) as [Hin|Hin].
      * destruct (IH seen) as [news Hf]. exists news.
        eapply firsts_seen; eauto. by split.
      * destruct (IH ({[k]} ∪ seen)) as [news Hf]. exists (p :: news).
        eapply firsts_new; eauto. by split.
    + destruct (IH seen) as [news Hf]. exists news. by apply firsts_no_url.
Qed.

Lemma firsts_sublist seen posts news : firsts seen posts news -> sublist news posts.
Proof.
  induction 1; [constructor| by apply sublist_cons | by apply sublist_cons | by apply sublist_skip].
Qed.

Lemma firsts_carries seen posts news :
  firsts seen posts news ->
  forall q, q ∈ news -> exists k, carries k q /\ k ∉ seen.
Proof.
  induction 1 as [| | |seen k p rest news Hc Hin _ IH]; intros q Hq; auto.
  - inversion Hq.
  - apply elem_of_cons in Hq as [->|Hq]; [eauto|].
    destruct (IH q Hq) as (k' & Hc' & Hk'). exists k'. split; [done|set_solver].
Qed.

Lemma carries_inj k1 k2 p : carries k1 p -> carries k2 p -> k1 = k2.
Proof. intros [_ H1] [_ H2]. congruence. Qed.

(** No two kept posts carry the same key. *)
Lemma firsts_unique seen posts news :
  firsts seen posts news ->
  forall o1 q1 o2 q2 o3 k,
    news = o1 ++ q1 :: o2 ++ q2 :: o3 -> carries k q1 -> carries k q2 -> False.
Proof.
  induction 1 as [| | |seen k p rest news Hc Hin Hf IH];
    intros o1 q1 o2 q2 o3 k' Heq Hq1 Hq2; eauto.
  - by destruct o1.
  - destruct o1 as [|x o1]; simpl in Heq; inversion Heq; subst.
    + assert (k' = k) as -> by eauto using carries_inj.
      destruct (firsts_carries _ _ _ Hf q2) as (k2 & Hc2 & Hn).
      { set_solver. }
      assert (k2 = k) as -> by eauto using carries_inj. set_solver.
    + eauto.
Qed.

(** A kept post splits the input at the first carrier of its key. *)
Lemma firsts_split seen posts news :
  firsts seen posts news ->
  forall o1 q o2, news = o1 ++ q :: o2 ->
  exists l1 l2 k, posts = l1 ++ q :: l2 /\ carries k q /\ (k ∉ seen) /\
    (forall r, r ∈ l1 -> ¬ (carries k r)) /\
    firsts seen l1 o1.
Proof.
  induction 1 as [|seen p rest news Ht Hf IH|seen k p rest news Hc Hin Hf IH
                 |seen k p rest news Hc Hin Hf IH]; intros o1 q o2 Heq.
  - by destruct o1.
  - destruct (IH _ _ _ Heq) as (l1 & l2 & k & -> & Hq & Hk & Hno & Hf1).
    exists (p :: l1), l2, k. split_and!; try done.
    + intros r [->|Hr]%elem_of_cons; [|by apply Hno].
      intros [Ht' _]. congruence.
    + by apply firsts_no_url.
  - destruct (IH _ _ _ Heq) as (l1 & l2 & k' & -> & Hq & Hk & Hno & Hf1).
    exists (p :: l1), l2, k'. split_and!; try done.
    + intros r [->|Hr]%elem_of_cons; [|by apply Hno].
      intros Hc'. assert (k' = k) as -> by eauto using carries_inj. done.
    + eapply firsts_seen; eauto.
  - destruct o1 as [|x o1]; simpl in Heq; inversion Heq; subst.
    + exists [], rest, k. split_and!; try done.
      * intros r Hr. inversion Hr.
      * constructor.
    + destruct (IH _ _ _ eq_refl) as (l1 & l2 & k' & -> & Hq & Hk & Hno & Hf1).
      exists (x :: l1), l2, k'. split_and!; try done.
      * set_solver.
      * intros r [->|Hr]%elem_of_cons; [|by apply Hno].
        intros Hc'. assert (k' = k) as -> by eauto using carries_inj. set_solver.
      * eapply firsts_new; eauto.
Qed.

(** The first carrier of every key outside [seen] is kept. *)
Lemma firsts_complete seen posts news :
  firsts seen posts news ->
  forall k p, p ∈ posts -> carries k p -> k ∉ seen ->
  exists l1 q l2, posts = l1 ++ q :: l2 /\ carries k q /\
    (forall r, r ∈ l1 -> ¬ (carries k r)) /\ q ∈ news.
Proof.
  induction 1 as [|seen p rest news Ht Hf IH|seen k p rest news Hc Hin Hf IH
                 |seen k p rest news Hc Hin Hf IH]; intros k' x Hx Hcx Hk'.
  - inversion Hx.
  - apply elem_of_cons in Hx as [->|Hx]; [destruct Hcx; congruence|].
    destruct (IH _ _ Hx Hcx Hk') as (l1 & q & l2 & -> & Hq & Hno & Hin).
    exists (p :: l1), q, l2. split_and!; try done.
    intros r [->|Hr]%elem_of_cons; [|by apply Hno]. intros [? _]; congruence.
  - assert (k' ≠ k) by (intros ->; done).
    apply elem_of_cons in Hx as [->|Hx]; [exfalso; eauto using carries_inj|].
    destruct (IH _ _ Hx Hcx Hk') as (l1 & q & l2 & -> & Hq & Hno & Hin').
    exists (p :: l1), q, l2. split_and!; try done.
    intros r [->|Hr]%elem_of_cons; [|by apply Hno]. eauto using carries_inj.
  - destruct (decide (k' = k)) as [->|Hne].
    + exists [], p, rest. split_and!; try done; [|set_solver].
      intros r Hr; inversion Hr.
    + apply elem_of_cons in Hx as [->|Hx]; [exfalso; eauto using carries_inj|].
      destruct (IH _ _ Hx Hcx) as (l1 & q & l2 & -> & Hq & Hno & Hin'); [set_solver|].
      exists (p :: l1), q, l2. split_and!; try done; [|set_solver].
      intros r [->|Hr]%elem_of_cons; [|by apply Hno]. eauto using carries_inj.
Qed.

Lemma fetched_carries p : fetched p ->
  exists s, url_of p = VStr s /\ carries (KStr s) p.
Proof.
  intros (s & Hs & Hne). exists s. unfold carries, url_of, get. rewrite Hs. simpl.
  split_and!; try done. by rewrite bool_decide_false.
Qed.

Lemma fetched_hashable p : fetched p -> url_hashable p.
Proof. intros (s & Hs & _) _. unfold url_of, get. rewrite Hs. simpl. eauto. Qed.

Lemma carries_fetched_url k p q : carries k p -> fetched p -> fetched q ->
  carries k q <-> url_of q = url_of p.
Proof.
  intros Hp (s & Hs & Hcs)%fetched_carries (t & Ht & Hct)%fetched_carries.
  assert (k = KStr s) as -> by eauto using carries_inj.
  rewrite Hs, Ht. split.
  - intros Hc. assert (KStr s = KStr t) by eauto using carries_inj. congruence.
  - intros [= ->]. done.
Qed.

(** C1: on fetched candidates, which all carry a non-empty string URL,
    [deduplicate_posts] returns; every URL of the input is represented in
    the output by the first post that has it; no two posts of the output
    share a URL; the output is a sublist of the input; and two posts of the
    output stand in the order in which their URLs are first seen in the
    input. *)
Theorem deduplicate_posts_first_seen (posts : list dict) :
  Forall fetched posts ->
  exists out, deduplicate_posts posts = Ok out ∧
    (forall p, p ∈ posts ->
       exists l1 q l2, posts = l1 ++ q :: l2 ∧ url_of q = url_of p ∧
         (forall r, r ∈ l1 -> url_of r ≠ url_of p) ∧ q ∈ out) ∧
    NoDup (map url_of out) ∧
    sublist out posts ∧
    (forall o1 q1 o2 q2 o3, out = o1 ++ q1 :: o2 ++ q2 :: o3 ->
       exists l1 l2 l3, posts = l1 ++ q1 :: l2 ++ q2 :: l3 ∧
         (forall r, r ∈ l1 -> url_of r ≠ url_of q1) ∧
         (forall r, r ∈ l1 ++ q1 :: l2 -> url_of r ≠ url_of q2)).
Proof.
  intros Hall.
  destruct (firsts_total posts) with (seen := (∅ : gset hkey)) as [out Hf].
  { eapply Forall_impl; [exact Hall|]. apply fetched_hashable. }
  assert (Hin : forall r, r ∈ posts -> fetched r) by (by apply Forall_forall).
  assert (Hout : forall r, r ∈ out -> fetched r).
  { intros r Hr. apply Hin. eapply elem_of_sublist; [exact Hr|]. eauto using firsts_sublist. }
  exists out. split_and!.
  - unfold deduplicate_posts. by rewrite (firsts_dedup_loop _ _ _ Hf []).
  - intros p Hp. destruct (fetched_carries p (Hin p Hp)) as (s & Hs & Hc).
    destruct (firsts_complete _ _ _ Hf _ _ Hp Hc (not_elem_of_empty _))
      as (l1 & q & l2 & Heq & Hq & Hno & Hqo).
    exists l1, q, l2. split_and!; try done.
    + assert (Hfq : fetched q) by (apply Hin; rewrite Heq; set_solver).
      by apply (carries_fetched_url _ _ _ Hc (Hin _ Hp) Hfq).
    + intros r Hr Heq'. apply (Hno r Hr).
      assert (Hfr : fetched r) by (apply Hin; rewrite Heq; set_solver).
      by apply (carries_fetched_url _ _ _ Hc (Hin _ Hp) Hfr).
  - apply NoDup_alt. intros i j u Hi Hj.
    destruct (decide (i = j)) as [|Hne]; [done|exfalso].
    apply list_lookup_fmap_Some in Hi as (q1 & -> & Hi).
    apply list_lookup_fmap_Some in Hj as (q2 & Hu & Hj).
    assert (Hgen : forall i j q1 q2, (i < j)%nat -> out !! i = Some q1 -> out !! j = Some q2 ->
              url_of q1 = url_of q2 -> False).
    { clear i j q1 q2 Hi Hj Hu Hne. intros i j q1 q2 Hlt Hi Hj Hu.
      destruct (list_elem_of_split_length _ _ _ Hi) as (o1 & o' & -> & Hlen).
      rewrite lookup_app_r in Hj by lia.
      destruct (j - length o1)%nat as [|j'] eqn:Hj'; [lia|]. simpl in Hj.
      destruct (list_elem_of_split_length _ _ _ Hj) as (o2 & o3 & -> & _).
      assert (Hq1 : fetched q1) by (apply Hout; set_solver).
      assert (Hq2 : fetched q2) by (apply Hout; set_solver).
      destruct (fetched_carries _ Hq1) as (s & Hs & Hc).
      eapply (firsts_unique _ _ _ Hf o1 q1 o2 q2 o3 (KStr s)); eauto.
      by apply (carries_fetched_url _ _ _ Hc Hq1 Hq2). }
    destruct (decide (i < j)%nat).
    + eapply (Hgen i j); eauto.
    + eapply (Hgen j i); eauto. lia.
  - eauto using firsts_sublist.
  - intros o1 q1 o2 q2 o3 Heq.
    destruct (firsts_split _ _ _ Hf (o1 ++ q1 :: o2) q2 o3) as (L & l3 & k2 & HL & Hc2 & _ & Hno2 & HfL).
    { rewrite Heq. by rewrite <- app_assoc. }
    destruct (firsts_split _ _ _ HfL o1 q1 o2 eq_refl) as (l1 & l2 & k1 & -> & Hc1 & _ & Hno1 & _).
    exists l1, l2, l3. rewrite HL. split_and!.
    + by rewrite <- app_assoc.
    + intros r Hr Hu. apply (Hno1 r Hr).
      assert (Hf1 : fetched q1) by (apply Hout; rewrite Heq; set_solver).
      assert (Hfr : fetched r) by (apply Hin; rewrite HL; set_solver).
      by apply (carries_fetched_url _ _ _ Hc1 Hf1 Hfr).
    + intros r Hr Hu. apply (Hno2 r Hr).
      assert (Hf2 : fetched q2) by (apply Hout; rewrite Heq; set_solver).
      assert (Hfr : fetched r) by (apply Hin; rewrite HL; set_solver).
      by apply (carries_fetched_url _ _ _ Hc2 Hf2 Hfr).
Qed.

Lemma lacks_url_falsy p : lacks_url p -> truthy (url_of p) = false.
Proof. unfold url_of, get. by intros [-> | ->]. Qed.

Lemma truthy_has_url p : truthy (url_of p) = true -> has_url p.
Proof.
  unfold url_of, get, has_url. destruct (p !! "url") as [v|]; simpl; [eauto|].
  intros H. vm_compute in H. discriminate.
Qed.

Lemma firsts_lacking posts seen : Forall lacks_url posts -> firsts seen posts [].
Proof.
  induction 1 as [|p rest Hp _ IH]; [constructor|].
  apply firsts_no_url; [by apply lacks_url_falsy|done].
Qed.

(** C10: whatever [deduplicate_posts] returns holds only posts with a
    present, non-empty [url], so a post whose [url] is absent or the empty
    string is not in it; a batch in which every post lacks a URL
    deduplicates to the empty list; and the function returns whenever the
    non-empty URLs are hashable. *)
Theorem deduplicate_posts_drops_missing_url (posts : list dict) :
  (forall out, deduplicate_posts posts = Ok out ->
     Forall has_url out ∧ (forall p, lacks_url p -> p ∉ out)) ∧
  (Forall lacks_url posts -> deduplicate_posts posts = Ok []) ∧
  (Forall url_hashable posts -> exists out, deduplicate_posts posts = Ok out).
Proof.
  split_and!.
  - intros out Hout. apply dedup_loop_firsts in Hout as (news & -> & Hf). simpl.
    assert (Hall : Forall has_url news).
    { apply Forall_forall. intros q Hq.
      destruct (firsts_carries _ _ _ Hf q Hq) as (k & [Ht _] & _).
      by apply truthy_has_url. }
    split; [done|]. intros p Hl Hp.
    rewrite Forall_forall in Hall. destruct (Hall p Hp) as (v & Hv & Ht).
    apply lacks_url_falsy in Hl. unfold url_of, get in Hl. rewrite Hv in Hl.
    simpl in Hl. congruence.
  - intros Hall. unfold deduplicate_posts.
    by rewrite (firsts_dedup_loop _ _ _ (firsts_lacking posts ∅ Hall) []).
  - intros Hall. destruct (firsts_total posts Hall ∅) as [news Hf].
    exists news. unfold deduplicate_posts.
    by rewrite (firsts_dedup_loop _ _ _ Hf []).
Qed.

Lemma omap_line_key_as_lines recs : omap line_key (as_lines recs) = url_keys recs.
Proof.
  unfold url_keys, as_lines.
  induction recs as [|d recs IH]; [done|]. csimpl.
  destruct (hash_key (url_of d)); by rewrite IH.
Qed.

Lemma load_urls_loop_spec lines : forall urls s,
  load_urls_loop lines urls = Ok s ->
  forall k, k ∈ s <-> k ∈ urls ∨ k ∈ omap line_key lines.
Proof.
  induction lines as [|ln lines IH]; intros urls s H k; simpl in H.
  - inversion H; subst. simpl. set_solver.
  - destruct ln as [v|]; [|by apply IH].
    destruct v; try discriminate.
    simpl. fold (url_of d) in *. destruct (hash_key (url_of d)) as [k0|]; [|discriminate].
    rewrite (IH _ _ H k). set_solver.
Qed.

Lemma load_urls_loop_app l1 l2 urls :
  load_urls_loop (l1 ++ l2) urls = obind (load_urls_loop l1 urls) (load_urls_loop l2).
Proof.
  revert urls. induction l1 as [|ln l1 IH]; intros urls; simpl; [done|].
  destruct ln as [v|]; [|by apply IH].
  destruct v; try done.
  destruct (hash_key _); [|done]. apply IH.
Qed.

Lemma load_urls_loop_carriers recs urls :
  (forall p, p ∈ recs -> exists k, carries k p) ->
  exists s, load_urls_loop (as_lines recs) urls = Ok s.
Proof.
  revert urls. induction recs as [|d recs IH]; intros urls Hall; simpl; [eauto|].
  destruct (Hall d) as (k & _ & Hk); [set_solver|].
  fold (url_of d). rewrite Hk. apply IH. intros p Hp. apply Hall. set_solver.
Qed.

Lemma load_existing_urls_spec f s :
  load_existing_urls f = Ok s -> forall k, k ∈ s <-> k ∈ log_keys f.
Proof.
  destruct f as [lines|]; simpl; intros H k.
  - rewrite (load_urls_loop_spec _ _ _ H k). unfold log_keys. simpl. set_solver.
  - inversion H; subst. unfold log_keys. simpl. set_solver.
Qed.

Lemma carries_get_none k p : carries k p -> get_none p "url" = url_of p.
Proof.
  intros [Ht _]. unfold get_none, url_of, get in *.
  destruct (p !! "url"); [done|]. vm_compute in Ht. discriminate.
Qed.

Lemma filter_new_spec all ex : forall new,
  filter_new all ex = Ok new ->
  sublist new all ∧
  (forall p, p ∈ new ->
     exists k, hash_key (get_none p "url") = Some k ∧ k ∉ ex).
Proof.
  induction all as [|p all IH]; intros new H; simpl in H.
  - inversion H; subst. split; [constructor|]. intros p Hp. inversion Hp.
  - destruct (hash_key (get_none p "url")) as [k|] eqn:Hk; [|discriminate].
    destruct (filter_new all ex) as [tl|] eqn:Htl; [|discriminate]. simpl in H.
    destruct (IH tl eq_refl) as [Hsub Hnew].
    case_bool_decide as Hin; inversion H; subst.
    + split; [by apply sublist_cons|done].
    + split; [by apply sublist_skip|].
      intros q [->|Hq]%elem_of_cons; eauto.
Qed.

Lemma filter_new_all_known all ex :
  (forall p, p ∈ all ->
     exists k, hash_key (get_none p "url") = Some k ∧ k ∈ ex) ->
  filter_new all ex = Ok [].
Proof.
  induction all as [|p all IH]; intros Hall; simpl; [done|].
  destruct (Hall p) as (k & -> & Hin); [set_solver|].
  rewrite IH by (intros q Hq; apply Hall; set_solver). simpl.
  by rewrite bool_decide_true.
Qed.

Lemma filter_new_complete all ex : forall new,
  filter_new all ex = Ok new ->
  forall p k, p ∈ all -> hash_key (get_none p "url") = Some k -> k ∉ ex ->
  p ∈ new.
Proof.
  induction all as [|p all IH]; intros new H q k Hq Hk Hex; simpl in H.
  - inversion Hq.
  - destruct (hash_key (get_none p "url")) as [k'|] eqn:Hk'; [|discriminate].
    destruct (filter_new all ex) as [tl|] eqn:Htl; [|discriminate]. simpl in H.
    apply elem_of_cons in Hq as [->|Hq].
    + assert (k' = k) as -> by congruence.
      rewrite bool_decide_false in H by done. inversion H. set_solver.
    + specialize (IH tl eq_refl q k Hq Hk Hex).
      case_bool_decide; inversion H; set_solver.
Qed.

Lemma url_of_stamped t p : url_of (<["scraped_at" := VStr t]> p) = url_of p.
Proof. unfold url_of, get. by rewrite lookup_insert_ne. Qed.

Lemma carries_stamped k t p :
  carries k (<["scraped_at" := VStr t]> p) <-> carries k p.
Proof. unfold carries. by rewrite url_of_stamped. Qed.

Lemma stamp_elem utcnow ps : forall i q,
  q ∈ stamp utcnow i ps ->
  exists p t, p ∈ ps ∧ q = <["scraped_at" := VStr t]> p.
Proof.
  induction ps as [|p ps IH]; intros i q Hq; simpl in Hq; [inversion Hq|].
  apply elem_of_cons in Hq as [->|Hq].
  - exists p, (utcnow i). split; [set_solver|done].
  - destruct (IH _ _ Hq) as (p' & t & Hp' & ->). exists p', t. split; [set_solver|done].
Qed.

Lemma stamp_elem_inv utcnow ps : forall i p,
  p ∈ ps -> exists t, <["scraped_at" := VStr t]> p ∈ stamp utcnow i ps.
Proof.
  induction ps as [|p0 ps IH]; intros i p Hp; [inversion Hp|]. simpl.
  apply elem_of_cons in Hp as [->|Hp].
  - exists (utcnow i). set_solver.
  - destruct (IH (S i) p Hp) as [t Ht]. exists t. set_solver.
Qed.

Lemma url_keys_stamp utcnow ps i : url_keys (stamp utcnow i ps) = url_keys ps.
Proof.
  revert i. induction ps as [|p ps IH]; intros i; [done|].
  unfold url_keys in *. simpl. rewrite url_of_stamped. by rewrite IH.
Qed.

Lemma firsts_keys seen posts news :
  firsts seen posts news ->
  NoDup (url_keys news) ∧ (forall k, k ∈ url_keys news -> k ∉ seen).
Proof.
  induction 1 as [seen| | |seen k p rest news [Ht Hk] Hin Hf [IH1 IH2]]; try done.
  - split; [constructor|]. intros k Hk. inversion Hk.
  - unfold url_keys in *. simpl. rewrite Hk. simpl. split.
    + constructor; [|done]. intros Hin'. apply IH2 in Hin'. set_solver.
    + intros k' [->|Hk']%elem_of_cons; [done|]. apply IH2 in Hk'. set_solver.
Qed.

Lemma url_keys_sublist l1 l2 : sublist l1 l2 -> sublist (url_keys l1) (url_keys l2).
Proof.
  unfold url_keys. induction 1 as [|x l1 l2 _ IH|x l1 l2 _ IH]; simpl.
  - constructor.
  - destruct (hash_key (url_of x)); [by apply sublist_skip|done].
  - destruct (hash_key (url_of x)); [by apply sublist_cons|done].
Qed.

Lemma url_keys_carries k p ps : p ∈ ps -> carries k p -> k ∈ url_keys ps.
Proof.
  intros Hp [_ Hk]. unfold url_keys. apply list_elem_of_omap. eauto.
Qed.

Lemma log_keys_append f recs :
  log_keys (append_records f recs) = log_keys f ++ url_keys recs.
Proof.
  unfold log_keys, append_records. simpl. rewrite omap_app.
  by rewrite <- omap_line_key_as_lines.
Qed.

Section ScrapeAllSpec.

Variable fetch_reddit_search fetch_reddit_posts fetch_hn_search_algolia
  : string -> list dict.

Let run := scrape_all fetch_reddit_search fetch_reddit_posts
                      fetch_hn_search_algolia.

Lemma scrape_all_unfold utcnow f :
  run utcnow f =
  match load_existing_urls f with
  | Raise e => (Raise e, f)
  | Ok existing_urls =>
      match deduplicate_posts (fetch_all fetch_reddit_search fetch_reddit_posts
                                         fetch_hn_search_algolia) with
      | Raise e => (Raise e, f)
      | Ok all_posts =>
          match filter_new all_posts existing_urls with
          | Raise e => (Raise e, f)
          | Ok [] => (Ok [], f)
          | Ok new_posts =>
              (Ok (stamp utcnow 0 new_posts),
               append_records f (stamp utcnow 0 new_posts))
          end
      end
  end.
Proof.
  unfold run, scrape_all.
  destruct (load_existing_urls f); [|done].
  destruct (deduplicate_posts _); [|done].
  destruct (filter_new _ _) as [[|]|]; done.
Qed.

(** C2: a run of [scrape_all] changes the raw log only by appending
    records, each of which carries a URL that no record of the log had
    before the run; a log in which no URL occurs twice stays so; and a
    second run on the same fetched posts appends nothing. *)
Theorem scrape_all_never_reappends (utcnow : nat -> string) (data_file : file) :
  exists added : list dict,
    (run utcnow data_file).2 =
      match added with [] => data_file | _ => append_records data_file added end ∧
    (forall out, (run utcnow data_file).1 = Ok out -> out = added) ∧
    (forall p, p ∈ added -> exists k, carries k p ∧ k ∉ log_keys data_file) ∧
    (NoDup (log_keys data_file) -> NoDup (log_keys (run utcnow data_file).2)) ∧
    (forall utcnow', (run utcnow' (run utcnow data_file).2).2 = (run utcnow data_file).2).
Proof.
  assert (Htriv : forall e,
    run utcnow data_file = (Raise e, data_file) ∨ run utcnow data_file = (Ok [], data_file) ->
    exists added : list dict,
    (run utcnow data_file).2 =
      match added with [] => data_file | _ => append_records data_file added end ∧
    (forall out, (run utcnow data_file).1 = Ok out -> out = added) ∧
    (forall p, p ∈ added -> exists k, carries k p ∧ k ∉ log_keys data_file) ∧
    (NoDup (log_keys data_file) -> NoDup (log_keys (run utcnow data_file).2)) ∧
    (forall utcnow', (run utcnow' (run utcnow data_file).2).2 = (run utcnow data_file).2)).
  { intros e Hrun. exists [].
    assert (Hsnd : (run utcnow data_file).2 = data_file) by (by destruct Hrun as [-> | ->]).
    split_and!.
    - done.
    - intros out Hout. destruct Hrun as [Hr|Hr]; rewrite Hr in Hout; simpl in Hout; congruence.
    - intros p Hp. inversion Hp.
    - by rewrite Hsnd.
    - intros utcnow'. rewrite Hsnd.
      rewrite scrape_all_unfold in Hrun. rewrite scrape_all_unfold.
      destruct (load_existing_urls data_file); [|done].
      destruct (deduplicate_posts _); [|done].
      destruct (filter_new _ _) as [[|]|]; try done.
      destruct Hrun as [Hr|Hr]; inversion Hr. }
  pose proof (scrape_all_unfold utcnow data_file) as Hrun.
  destruct (load_existing_urls data_file) as [existing|e] eqn:Hload;
    [|by apply (Htriv e); left].
  destruct (deduplicate_posts _) as [all_posts|e] eqn:Hdedup;
    [|by apply (Htriv e); left].
  destruct (filter_new all_posts existing) as [[|p0 new]|e] eqn:Hnew;
    [by apply (Htriv TypeError); right| |by apply (Htriv e); left].
  clear Htriv. set (new_posts := p0 :: new) in *.
  set (written := stamp utcnow 0 new_posts) in *.
  apply dedup_loop_firsts in Hdedup as (news & Heq & Hf). simpl in Heq. subst news.
  destruct (filter_new_spec _ _ _ Hnew) as [Hsub Hfresh].
  pose proof (load_existing_urls_spec _ _ Hload) as Hex.
  assert (Hcar : forall p, p ∈ all_posts -> exists k, carries k p).
  { intros p Hp. destruct (firsts_carries _ _ _ Hf p Hp) as (k & Hk & _). eauto. }
  assert (Hwritten : forall q, q ∈ written ->
            exists k, carries k q ∧ k ∉ log_keys data_file).
  { intros q Hq. apply stamp_elem in Hq as (p & t & Hp & ->).
    destruct (Hfresh p Hp) as (k & Hk & Hnot).
    destruct (Hcar p) as (k' & Hc); [by eapply elem_of_sublist|].
    rewrite (carries_get_none _ _ Hc) in Hk.
    assert (k' = k) as -> by (destruct Hc; congruence).
    exists k. split; [by apply carries_stamped|]. by rewrite <- Hex. }
  assert (Hne : written <> []) by done.
  exists written. rewrite Hrun. simpl. split_and!.
  - by destruct written.
  - by intros out [= <-].
  - done.
  - intros Hnd. rewrite log_keys_append. apply NoDup_app. split_and!; [done| |].
    + intros k Hk Hk'. apply list_elem_of_omap in Hk' as (q & Hq & Hqk).
      destruct (Hwritten q Hq) as (k' & [_ Hc] & Hnot). congruence.
    + unfold written. rewrite url_keys_stamp.
      eapply sublist_NoDup; [|apply url_keys_sublist; exact Hsub].
      by apply (firsts_keys _ _ _ Hf).
  - intros utcnow'. rewrite scrape_all_unfold.
    assert (Hload' : exists s, load_existing_urls (append_records data_file written) = Ok s).
    { unfold append_records, load_existing_urls. rewrite load_urls_loop_app.
      assert (load_urls_loop (file_lines data_file) ∅ = Ok existing) as ->.
      { destruct data_file; simpl in *; [done|by inversion Hload]. }
      unfold obind. apply (load_urls_loop_carriers written existing).
      intros q Hq. destruct (Hwritten q Hq) as (k & Hk & _). eauto. }
    destruct Hload' as [existing' Hload']. rewrite Hload'.
    pose proof (load_existing_urls_spec _ _ Hload') as Hex'.
    unfold deduplicate_posts. rewrite (firsts_dedup_loop _ _ _ Hf []). simpl.
    rewrite filter_new_all_known; [done|].
    intros p Hp. destruct (Hcar p Hp) as (k & Hc).
    exists k. rewrite (carries_get_none _ _ Hc). split; [by destruct Hc|].
    rewrite Hex', log_keys_append, elem_of_app.
    destruct (decide (k ∈ existing)) as [Hin|Hnin]; [left; by rewrite <- Hex|right].
    unfold written. rewrite url_keys_stamp.
    eapply url_keys_carries; [|exact Hc].
    eapply filter_new_complete; eauto.
    rewrite (carries_get_none _ _ Hc). by destruct Hc.
Qed.

End ScrapeAllSpec.

(** The first-seen theorem on a batch in which one URL occurs twice. *)
Lemma deduplicate_posts_first_seen_witness :
  Forall fetched Samples.batch ∧
  exists out, deduplicate_posts Samples.batch = Ok out ∧
    NoDup (map url_of out) ∧ sublist out Samples.batch.
Proof.
  assert (H : Forall fetched Samples.batch).
  { repeat (apply Forall_cons_2;
              [eexists; split; [vm_compute; reflexivity|discriminate]|]).
    apply Forall_nil_2. }
  split; [exact H|].
  destruct (deduplicate_posts_first_seen Samples.batch H)
    as (out & Hout & _ & Hnd & Hsub & _).
  exists out. auto.
Defined.

(** A batch without URLs deduplicates to nothing. *)
Lemma deduplicate_posts_drops_missing_url_witness :
  Forall lacks_url Samples.batch_without_urls ∧
  deduplicate_posts Samples.batch_without_urls = Ok [].
Proof.
  assert (H : Forall lacks_url Samples.batch_without_urls).
  { apply Forall_cons_2; [left; vm_compute; reflexivity|].
    apply Forall_cons_2; [right; vm_compute; reflexivity|]. apply Forall_nil_2. }
  split; [exact H|].
  destruct (deduplicate_posts_drops_missing_url Samples.batch_without_urls)
    as (_ & Hempty & _).
  exact (Hempty H).
Defined.

(** A run that finds one known and one new URL keeps the log free of
    repeated URLs. *)
Lemma scrape_all_never_reappends_witness :
  NoDup (log_keys Samples.raw_with_b) ∧
  NoDup (log_keys (scrape_all Samples.reddit_search Samples.no_posts
                              Samples.no_posts Samples.clock
                              Samples.raw_with_b).2).
Proof.
  assert (H : NoDup (log_keys Samples.raw_with_b)).
  { vm_compute. apply NoDup_singleton. }
  split; [exact H|].
  destruct (scrape_all_never_reappends Samples.reddit_search Samples.no_posts
              Samples.no_posts Samples.clock Samples.raw_with_b)
    as (added & _ & _ & _ & Hnd & _).
  exact (Hnd H).
Defined.

End ScraperSpec.

(** * Properties of the Classifier *)

Module ClassifySpec.

Import Classify ListFacts.

Lemma append_if_app f a b : append_if (append_if f a) b = append_if f (a ++ b).
Proof.
  destruct a as [|x a]; [done|]. destruct b as [|y b].
  - simpl. by rewrite app_nil_r.
  - unfold append_if, append_records, as_lines. simpl.
    by rewrite !map_app, <- !app_assoc.
Qed.

Lemma extend_nil w : extend w [] = w.
Proof. destruct w. unfold extend. simpl. by rewrite app_nil_r. Qed.

Lemma extend_app w e1 e2 : extend (extend w e1) e2 = extend w (e1 ++ e2).
Proof.
  unfold extend, classified_writes, final_writes. simpl.
  rewrite !omap_app, map_app, !append_if_app. by rewrite <- app_assoc.
Qed.

Lemma runs_ret {A} (a : A) w : runs (ret a) w (Ok a) [].
Proof. unfold runs, ret. by rewrite extend_nil. Qed.

Lemma runs_raise {A} e w : runs (@raise A e) w (Raise e) [].
Proof. unfold runs, raise. by rewrite extend_nil. Qed.

Lemma runs_lift {A} (o : outcome A) w : runs (lift o) w o [].
Proof. unfold runs, lift. by rewrite extend_nil. Qed.

Lemma runs_emits evs w :
  classified_writes evs = [] -> final_writes evs = [] ->
  runs (emits evs) w (Ok tt) evs.
Proof. intros H1 H2. unfold runs, emits, extend. by rewrite H1, H2. Qed.

Lemma runs_emit e w :
  classified_writes [e] = [] -> final_writes [e] = [] ->
  runs (emit e) w (Ok tt) [e].
Proof. intros H1 H2. unfold runs, emit, extend. by rewrite H1, H2. Qed.

Lemma runs_append_classified i rec w :
  runs (append_classified i rec) w (Ok tt) [EAppendClassified i rec].
Proof. done. Qed.

Lemma final_writes_map recs : final_writes (map EAppendFinal recs) = recs.
Proof. induction recs as [|r recs IH]; [done|]. unfold final_writes in *. csimpl. by rewrite IH. Qed.

Lemma classified_writes_map_final recs : classified_writes (map EAppendFinal recs) = [].
Proof. induction recs as [|r recs IH]; [done|]. unfold classified_writes in *. by csimpl. Qed.

Lemma runs_append_final recs w :
  recs <> [] -> runs (append_final recs) w (Ok tt) (map EAppendFinal recs).
Proof.
  intros Hne. unfold runs, append_final, extend.
  rewrite final_writes_map, classified_writes_map_final. simpl.
  by destruct recs.
Qed.

Lemma runs_bind {A B} (m : M A) (f : A -> M B) w a e1 res e2 :
  runs m w (Ok a) e1 -> runs (f a) (extend w e1) res e2 ->
  runs (bind m f) w res (e1 ++ e2).
Proof. unfold runs, bind. intros -> ->. by rewrite extend_app. Qed.

Lemma runs_bind_raise {A B} (m : M A) (f : A -> M B) w e e1 :
  runs m w (Raise e) e1 -> runs (bind m f) w (Raise e) e1.
Proof. unfold runs, bind. by intros ->. Qed.

Lemma bind_lift_ok {A B} (a : A) (f : A -> M B) : bind (lift (Ok a)) f = f a.
Proof. reflexivity. Qed.

Lemma runs_fun {A} (m : M A) w res evs : runs m w res evs -> m w = (res, extend w evs).
Proof. done. Qed.


Lemma oracle_calls_app a b : oracle_calls (a ++ b) = oracle_calls a ++ oracle_calls b.
Proof. apply omap_app. Qed.
Lemma classified_writes_app a b :
  classified_writes (a ++ b) = classified_writes a ++ classified_writes b.
Proof. apply omap_app. Qed.
Lemma final_writes_app a b : final_writes (a ++ b) = final_writes a ++ final_writes b.
Proof. apply omap_app. Qed.

Ltac norm_evs :=
  rewrite ?oracle_calls_app, ?classified_writes_app, ?final_writes_app;
  repeat match goal with
  | H : oracle_calls ?l = _ |- _ => rewrite !H
  | H : classified_writes ?l = _ |- _ => rewrite !H
  | H : final_writes ?l = _ |- _ => rewrite !H
  end;
  simpl.

Ltac run_m :=
  cbv beta iota zeta;
  lazymatch goal with
  | |- runs (ret _) _ _ _ => apply runs_ret
  | |- runs (raise _) _ _ _ => apply runs_raise
  | |- runs (lift _) _ _ _ => apply runs_lift
  | |- runs (emit _) _ _ _ => by apply runs_emit
  | |- runs (emits _) _ _ _ => by apply runs_emits
  | |- runs (append_classified _ _) _ _ _ => apply runs_append_classified
  | |- runs (if ?b then _ else _) _ _ _ =>
      match goal with H : b = _ |- _ => rewrite H end; run_m
  | |- runs (bind _ _) _ _ _ =>
      first [ eapply runs_bind; [run_m | rewrite ?extend_nil; run_m]
            | eapply runs_bind_raise; run_m ]
  | |- _ => eassumption
  end.

Ltac solve_idx :=
  repeat (apply Forall_cons_2; [reflexivity|]); apply Forall_nil_2.

Section Spec.

Variable json_loads : string -> option pyval.
Variable ask : nat -> prompt -> reply.
Variable utcnow : nat -> string.
Variable min_confidence min_score : Z.

Local Abbreviation post_result := (Classify.post_result json_loads ask).
Local Abbreviation scored := (Classify.scored min_score).
Local Abbreviation item_ok :=
  (Classify.item_ok json_loads ask utcnow min_confidence min_score).
Local Abbreviation loop_ok :=
  (Classify.loop_ok json_loads ask utcnow min_confidence min_score).
Local Abbreviation run_ok :=
  (Classify.run_ok json_loads ask utcnow min_confidence min_score).

Let item := classify_item json_loads ask utcnow min_confidence min_score.
Let loop := classify_loop json_loads ask utcnow min_confidence min_score.

Lemma classify_post_events i post :
  Forall (fun e => event_index e = Some i) (classify_post json_loads ask i post).2 ∧
  classified_writes (classify_post json_loads ask i post).2 = [] ∧
  final_writes (classify_post json_loads ask i post).2 = [] ∧
  (oracle_calls (classify_post json_loads ask i post).2 = [] ∧
     post_result i post = VNone ∨
   exists q, oracle_calls (classify_post json_loads ask i post).2 = [(i, q)] ∧
     prompt_for post = Ok q).
Proof.
  unfold Classify.post_result, classify_post.
  destruct (prompt_for post) as [q|e]; simpl.
  - destruct (ask i q) as [t|]; simpl.
    + destruct (unwrap_response t) as [u|]; simpl.
      * destruct (json_loads u); simpl;
          (split_and!; [solve_idx|done|done|right; by exists q]).
      * split_and!; [solve_idx|done|done|right; by exists q].
    + split_and!; [solve_idx|done|done|right; by exists q].
  - split_and!; [solve_idx|done|done|by left].
Qed.

Lemma classify_item_runs n i post vm w :
  exists res evs news,
    runs (item n i post vm) w res evs ∧ item_ok i post evs news ∧
    (forall vm', res = Ok vm' -> vm' = vm ++ news).
Proof.
  unfold item, classify_item.
  destruct (slice_to 50 (get post "title" (VStr ""))) as [title|e] eqn:Ht.
  2:{ exists (Raise e), [], []. split_and!.
      - apply runs_bind_raise, runs_lift.
      - split_and!; [solve_idx|done|by left|by left].
      - done. }
  destruct (as_int (get post "score" (VInt 0))) as [score|e] eqn:Hs.
  2:{ exists (Raise e), [EProgress i n title], []. split_and!.
      - eapply (runs_bind _ _ _ _ []); [apply runs_lift|]. rewrite extend_nil.
        eapply (runs_bind _ _ _ _ [_] _ []); [by apply runs_emit|].
        apply runs_bind_raise, runs_lift.
      - split_and!; [solve_idx|done|by left|by left].
      - done. }
  destruct (score <? min_score) eqn:Hlow.
  { exists (Ok vm), [EProgress i n title; ESkipLow i score], []. split_and!.
    - eapply (runs_bind _ _ _ _ []); [apply runs_lift|]. rewrite extend_nil.
      eapply (runs_bind _ _ _ _ [_] _ [_]); [by apply runs_emit|].
      eapply (runs_bind _ _ _ _ [] _ [_]); [apply runs_lift|]. rewrite extend_nil.
      rewrite Hlow.
      eapply (runs_bind _ _ _ _ [_] _ []); [by apply runs_emit|]. apply runs_ret.
    - split_and!; [solve_idx|done|by left|by left].
    - intros vm' [= <-]. by rewrite app_nil_r. }
  apply Z.ltb_ge in Hlow.
  assert (Hsc : scored post) by (exists score; done).
  pose proof (classify_post_events i post) as Hpost. unfold Classify.post_result in *.
  destruct (classify_post json_loads ask i post) as [result pevs] eqn:Hcp.
  simpl in Hpost. destruct Hpost as (Hidx & Hcw & Hfw & Hoc).
  destruct Hoc as [[Hoc Hnone]|(q & Hoc & Hq)].
  { (* no request was made: the result is None *)
    subst result. eexists (Ok vm), _, [].
    split_and!.
    - assert (Hlt : (score <? min_score) = false) by (by apply Z.ltb_ge).
      cbn [truthy]. run_m.
    - unfold Classify.item_ok. norm_evs.
      split_and!; [|done|by left|by left].
      apply Forall_cons_2; [done|]. apply Forall_app_2; [done|solve_idx].
    - intros vm' [= <-]. by rewrite app_nil_r. }
  assert (Hcalls : exists q', oracle_calls pevs = [(i, q')] ∧
            prompt_for post = Ok q' ∧ scored post) by eauto.
  assert (Hlt : (score <? min_score) = false) by (by apply Z.ltb_ge).
  destruct (truthy result) eqn:Htr.
  2:{ eexists (Ok vm), _, []. split_and!.
      - run_m.
      - unfold Classify.item_ok. norm_evs.
        split_and!; [|done|by (right; exists q)|by left].
        apply Forall_cons_2; [done|]. apply Forall_app_2; [done|solve_idx].
      - intros vm' [= <-]. by rewrite app_nil_r. }
  destruct result as [| | | | |r].
  1-5: (eexists (Raise TypeError), _, []; split_and!;
         [ cbn [record_result]; run_m
         | unfold Classify.item_ok; norm_evs; split_and!; [|done|by (right; exists q)|by left];
           apply Forall_cons_2; [done|]; by rewrite app_nil_r
         | done ]).
  cbn [record_result]. cbv beta iota zeta.
  destruct (truthy (get_none r "is_valid_aha_moment")) eqn:Hvalid.
  2:{ eexists (Ok vm), _, []. split_and!.
      - run_m.
      - unfold Classify.item_ok. norm_evs.
        split_and!; [|done|by (right; exists q)|].
        + apply Forall_cons_2; [done|]. apply Forall_app_2; [done|solve_idx].
        + right. exists r. split_and!; [done|by unfold Classify.post_result; rewrite Hcp|done|by left].
      - intros vm' [= <-]. by rewrite app_nil_r. }
  destruct (as_int (get r "confidence" (VInt 0))) as [c|e] eqn:Hconf.
  2:{ eexists (Raise e), _, []. split_and!.
      - run_m.
      - unfold Classify.item_ok. norm_evs.
        split_and!; [|done|by (right; exists q)|].
        + apply Forall_cons_2; [done|]. apply Forall_app_2; [done|solve_idx].
        + right. exists r. split_and!; [done|by unfold Classify.post_result; rewrite Hcp|done|by left].
      - done. }
  destruct (min_confidence <=? c) eqn:Hc.
  - eexists (Ok (vm ++ [merged utcnow i post r])), _, [merged utcnow i post r].
    split_and!.
    + run_m.
    + unfold Classify.item_ok. norm_evs.
      split_and!; [|done|by (right; exists q)|].
      * apply Forall_cons_2; [done|]. apply Forall_app_2; [done|solve_idx].
      * right. exists r. split_and!; [done|by unfold Classify.post_result; rewrite Hcp|done|].
        right. split; [done|].
        split; [done|]. exists c. split; [done|]. by apply Z.leb_le.
    + by intros vm' [= <-].
  - eexists (Ok vm), _, []. split_and!.
    + run_m.
    + unfold Classify.item_ok. norm_evs.
      split_and!; [|done|by (right; exists q)|].
      * apply Forall_cons_2; [done|]. apply Forall_app_2; [done|solve_idx].
      * right. exists r. split_and!; [done|by unfold Classify.post_result; rewrite Hcp|done|by left].
    + intros vm' [= <-]. by rewrite app_nil_r.
Qed.

Lemma loop_ok_nil i0 posts : loop_ok i0 posts [] [].
Proof.
  unfold Classify.loop_ok. split_and!.
  - done.
  - intros j q Hj. inversion Hj.
  - constructor.
  - intros j q Hj. inversion Hj.
  - constructor.
  - intros rec Hr. inversion Hr.
Qed.

Lemma item_ok_loop_ok i0 post rest evs news :
  item_ok i0 post evs news -> loop_ok i0 (post :: rest) evs news.
Proof.
  intros (Hidx & Hfw & Hoc & Hcw). unfold Classify.loop_ok.
  assert (Hself : (i0 - i0)%nat = 0%nat) by lia.
  split_and!.
  - done.
  - intros j q Hj. destruct Hoc as [Hoc|(q' & Hoc & Hq & Hsc)]; rewrite Hoc in Hj.
    + inversion Hj.
    + apply list_elem_of_singleton in Hj as [= -> ->]. rewrite Hself. eauto.
  - destruct Hoc as [->|(q' & -> & _)]; simpl; [constructor|apply NoDup_singleton].
  - intros j rec Hj. destruct Hcw as [[Hcw _]|(r & Hcw & Hres & Hne & _)]; rewrite Hcw in Hj.
    + inversion Hj.
    + apply list_elem_of_singleton in Hj as [= -> ->]. rewrite Hself.
      split_and!; [lia| |by eauto].
      destruct Hoc as [Hoc|(q' & -> & _)]; [done|]. simpl. set_solver.
  - destruct Hcw as [[-> _]|(r & -> & _)]; simpl; [constructor|apply NoDup_singleton].
  - intros rec Hr. destruct Hcw as [[_ ->]|(r & Hcw & Hres & Hne & [->|[-> Hacc]])];
      try by inversion Hr.
    apply list_elem_of_singleton in Hr as ->.
    exists i0, post, r. rewrite Hcw, Hself. split_and!; try done. set_solver.
Qed.

Lemma loop_ok_cons i0 post rest e1 n1 e2 n2 :
  item_ok i0 post e1 n1 -> loop_ok (S i0) rest e2 n2 ->
  loop_ok i0 (post :: rest) (e1 ++ e2) (n1 ++ n2).
Proof.
  intros Hitem (Hfw2 & Hoc2 & Hnd2 & Hcw2 & Hndc2 & Hnews2).
  pose proof (item_ok_loop_ok _ _ rest _ _ Hitem)
    as (Hfw1 & Hoc1 & Hnd1 & Hcw1 & Hndc1 & Hnews1).
  destruct Hitem as (Hidx & _ & Hoc & Hcw).
  assert (Hshift : forall j, (S i0 <= j)%nat ->
            (post :: rest) !! (j - i0)%nat = rest !! (j - S i0)%nat).
  { intros j Hj. replace (j - i0)%nat with (S (j - S i0)) by lia. done. }
  assert (Hoc1' : forall j q, (j, q) ∈ oracle_calls e1 -> j = i0).
  { intros j q Hj. destruct Hoc as [Hoc|(q' & Hoc & _)]; rewrite Hoc in Hj.
    - inversion Hj.
    - by apply list_elem_of_singleton in Hj as [= -> ->]. }
  assert (Hcw1' : forall j rec, (j, rec) ∈ classified_writes e1 -> j = i0).
  { intros j rec Hj. destruct Hcw as [[Hcw _]|(r & Hcw & _)]; rewrite Hcw in Hj.
    - inversion Hj.
    - by apply list_elem_of_singleton in Hj as [= -> ->]. }
  unfold Classify.loop_ok. rewrite oracle_calls_app, classified_writes_app, final_writes_app.
  rewrite !fmap_app. split_and!.
  - by rewrite Hfw1, Hfw2.
  - intros j q [Hj|Hj]%elem_of_app; [by apply Hoc1|].
    destruct (Hoc2 j q Hj) as (Hle & p & Hp & Hq). split; [lia|].
    exists p. by rewrite Hshift.
  - apply NoDup_app. split_and!; [done| |done].
    intros j [[j' q] [-> Hj]]%list_elem_of_fmap [[j'' q'] [Heq Hj']]%list_elem_of_fmap.
    simpl in *. subst j''. apply Hoc1' in Hj. apply Hoc2 in Hj'. lia.
  - intros j rec [Hj|Hj]%elem_of_app.
    + destruct (Hcw1 j rec Hj) as (Hle & Hin & Hrest). split_and!; [done|set_solver|done].
    + destruct (Hcw2 j rec Hj) as (Hle & Hin & p & r & Hp & Hrest).
      split_and!; [lia|set_solver|]. exists p, r. by rewrite Hshift.
  - apply NoDup_app. split_and!; [done| |done].
    intros j [[j' q] [-> Hj]]%list_elem_of_fmap [[j'' q'] [Heq Hj']]%list_elem_of_fmap.
    simpl in *. subst j''. apply Hcw1' in Hj. apply Hcw2 in Hj'. lia.
  - intros rec [Hr|Hr]%elem_of_app.
    + destruct (Hnews1 rec Hr) as (j & p & r & Hj & Hrest).
      exists j, p, r. split; [set_solver|done].
    + destruct (Hnews2 rec Hr) as (j & p & r & Hj & Hp & Hrest).
      destruct (Hcw2 j rec Hj) as (Hle & _).
      exists j, p, r. split; [set_solver|]. by rewrite Hshift.
Qed.

Lemma classify_loop_runs n posts : forall i0 vm w,
  exists res evs news,
    runs (loop n posts i0 vm) w res evs ∧ loop_ok i0 posts evs news ∧
    (forall vm', res = Ok vm' -> vm' = vm ++ news).
Proof.
  induction posts as [|post rest IH]; intros i0 vm w.
  - exists (Ok vm), [], []. split_and!; [apply runs_ret|apply loop_ok_nil|].
    intros vm' [= <-]. by rewrite app_nil_r.
  - destruct (classify_item_runs n i0 post vm w) as (res1 & e1 & n1 & Hrun1 & Hok1 & Hvm1).
    destruct res1 as [vm1|e].
    + rewrite (Hvm1 vm1 eq_refl) in Hrun1.
      destruct (IH (S i0) (vm ++ n1) (extend w e1)) as (res2 & e2 & n2 & Hrun2 & Hok2 & Hvm2).
      exists res2, (e1 ++ e2), (n1 ++ n2). split_and!.
      * simpl. eapply runs_bind; [exact Hrun1|exact Hrun2].
      * by apply loop_ok_cons.
      * intros vm' Hres. rewrite (Hvm2 vm' Hres). by rewrite app_assoc.
    + exists (Raise e), e1, n1. split_and!.
      * simpl. by apply runs_bind_raise.
      * by apply item_ok_loop_ok.
      * done.
Qed.

Let run := classify_all json_loads ask utcnow min_confidence min_score.

Lemma load_classified_urls_spec lines : forall urls s,
  load_classified_urls lines urls = Ok s ->
  forall k, k ∈ s <-> k ∈ urls ∨ k ∈ omap line_key lines.
Proof. exact (ScraperSpec.load_urls_loop_spec lines). Qed.

Lemma load_posts_to_classify_spec lines urls : forall posts,
  load_posts_to_classify lines urls = Ok posts ->
  sublist (as_lines posts) lines ∧
  forall p, p ∈ posts ->
    exists k, hash_key (get_none p "url") = Some k ∧ k ∉ urls.
Proof.
  induction lines as [|ln lines IH]; intros posts H; simpl in H.
  - inversion H; subst. split; [constructor|]. intros p Hp. inversion Hp.
  - destruct ln as [v|].
    2:{ destruct (IH _ H) as [Hsub Hall]. split; [by apply sublist_cons|done]. }
    destruct v as [| | | | |post]; try discriminate.
    destruct (hash_key (get_none post "url")) as [k|] eqn:Hk; [|discriminate].
    destruct (load_posts_to_classify lines urls) as [tl|] eqn:Htl; [|discriminate].
    simpl in H. destruct (IH tl eq_refl) as [Hsub Hall].
    case_bool_decide as Hin; inversion H; subst.
    + split; [by apply sublist_cons|done].
    + split; [by apply sublist_skip|].
      intros q [->|Hq]%elem_of_cons; eauto.
Qed.

Lemma posts_to_classify_spec w posts :
  posts_to_classify w = Ok posts ->
  sublist (as_lines posts) (file_lines (raw_file w)) ∧
  forall p, p ∈ posts ->
    exists k, hash_key (get_none p "url") = Some k ∧
      k ∉ log_keys (classified_file w).
Proof.
  unfold posts_to_classify.
  destruct (load_classified_urls _ _) as [urls|] eqn:Hurls; [|discriminate].
  simpl. intros H. destruct (load_posts_to_classify_spec _ _ _ H) as [Hsub Hall].
  split; [done|]. intros p Hp. destruct (Hall p Hp) as (k & Hk & Hnot).
  exists k. split; [done|]. intros Hin. apply Hnot.
  apply (load_classified_urls_spec _ _ _ Hurls). by right.
Qed.

Lemma extend_classified_lines w evs :
  file_lines (classified_file (extend w evs)) =
  file_lines (classified_file w) ++ as_lines (map snd (classified_writes evs)).
Proof.
  unfold extend, append_if. cbn [classified_file].
  destruct (map snd (classified_writes evs)) as [|r l].
  - unfold as_lines. cbn [map]. by rewrite app_nil_r.
  - done.
Qed.

Lemma extend_final_lines w evs :
  file_lines (final_file (extend w evs)) =
  file_lines (final_file w) ++ as_lines (final_writes evs).
Proof.
  unfold extend, append_if. cbn [final_file].
  destruct (final_writes evs) as [|r l].
  - unfold as_lines. cbn [map]. by rewrite app_nil_r.
  - done.
Qed.

Lemma classify_all_runs w :
  exists res evs, runs run w res evs ∧ run_ok w evs.
Proof.
  unfold run, classify_all, runs. cbv beta.
  destruct (raw_file w) as [raw_lines|] eqn:Hraw.
  2:{ eexists (Ok []), _. split; [apply runs_fun; run_m|].
      exists [], [ENoRaw], [], [], []. split_and!; try done.
      - by left.
      - apply loop_ok_nil.
      - by left. }
  destruct (posts_to_classify w) as [posts|e] eqn:Hposts.
  2:{ eexists (Raise e), _. split; [apply runs_fun; run_m|].
      exists [], [], [], [], []. split_and!; try done.
      - by left.
      - apply loop_ok_nil.
      - by left. }
  destruct (decide (posts = [])) as [->|Hne].
  { eexists (Ok []), _. split; [apply runs_fun; run_m|].
    exists [], [ENoNew], [], [], []. split_and!; try done.
    - by left.
    - apply loop_ok_nil.
    - by left. }
  assert (Hmatch : forall (A B : M (list dict)),
            match posts with [] => A | _ :: _ => B end = B)
    by (intros; by destruct posts).
  rewrite bind_lift_ok. cbv beta. rewrite Hmatch. clear Hmatch.
  destruct (classify_loop_runs (length posts) posts 0 []
              (extend w [EClassifying (length posts)]))
    as (res & levs & news & Hloop & Hok & Hvm).
  fold loop.
  destruct res as [vm|e].
  2:{ eexists (Raise e), _. split; [apply runs_fun; run_m|].
      exists posts, [EClassifying (length posts)], levs, [], news.
      rewrite app_nil_r. split_and!; try done; first [by right|by left]. }
  specialize (Hvm vm eq_refl). rewrite app_nil_l in Hvm. subst vm.
  destruct (decide (news = [])) as [Hn|Hn].
  { eexists (Ok []), _. split.
    - apply runs_fun. rewrite Hn in Hloop.
      eapply runs_bind; [by apply runs_emit|].
      eapply runs_bind; [exact Hloop|]. apply runs_ret.
    - exists posts, [EClassifying (length posts)], levs, [], news.
      split_and!; try done; first [by right|by left]. }
  assert (Hfin : runs (match news with
                       | [] => ret []
                       | _ :: _ =>
                           append_final news ;;; emit (EAdded (length news)) ;;; ret news
                       end)%classify
                   (extend (extend w [EClassifying (length posts)]) levs)
                   (Ok news) (map EAppendFinal news ++ [EAdded (length news)] ++ [])).
  { clear Hloop Hok. destruct news as [|m news']; [done|]. cbv beta iota.
    eapply runs_bind; [by apply runs_append_final|].
    eapply runs_bind; [by apply runs_emit|]. apply runs_ret. }
  eexists (Ok news), _. split.
  - apply runs_fun.
    eapply runs_bind; [by apply runs_emit|].
    eapply runs_bind; [exact Hloop|]. exact Hfin.
  - exists posts, [EClassifying (length posts)], levs,
      (map EAppendFinal news ++ [EAdded (length news)] ++ []), news.
    split_and!; try done.
    + by right.
    + rewrite oracle_calls_app. cbn [app]. rewrite app_nil_r.
      clear. induction news as [|m news IH]; [done|]. by csimpl.
    + by rewrite classified_writes_app, classified_writes_map_final.
    + right. rewrite final_writes_app, final_writes_map. by rewrite app_nil_r.
Qed.

(** What the parts of a run contribute to its three projections. *)
Lemma run_ok_projections w evs :
  run_ok w evs ->
  exists posts pre loop_evs fin news,
    evs = pre ++ loop_evs ++ fin ∧
    (posts = [] ∨ posts_to_classify w = Ok posts) ∧
    loop_ok 0 posts loop_evs news ∧
    oracle_calls evs = oracle_calls loop_evs ∧
    classified_writes evs = classified_writes loop_evs ∧
    final_writes evs = final_writes fin ∧
    final_writes pre = [] ∧
    (final_writes fin = [] ∨ final_writes fin = news).
Proof.
  intros (posts & pre & levs & fin & news & -> & Hposts & Hok & Ho1 & Hc1 & Hf1 & Ho2 & Hc2 & Hf2).
  exists posts, pre, levs, fin, news.
  rewrite !oracle_calls_app, !classified_writes_app, !final_writes_app.
  rewrite Ho1, Hc1, Hf1, Ho2, Hc2. pose proof Hok as (Hfl & _).
  rewrite Hfl. cbn [app]. rewrite !app_nil_r. split_and!; done.
Qed.

(** C3: in a run of [classify_all], a pending post whose score (0 when
    missing) is below [min_score] gets no oracle request and no record in
    the classified log, and every record the run appends to the final
    log is the classified record of another post. *)
Theorem classify_all_skips_low_score w posts i post s :
  posts_to_classify w = Ok posts ->
  posts !! i = Some post ->
  as_int (get post "score" (VInt 0)) = Ok s ->
  s < min_score ->
  exists evs, (run w).2 = extend w evs ∧
    (i ∉ (oracle_calls evs).*1) ∧
    (i ∉ (classified_writes evs).*1) ∧
    (forall rec, rec ∈ final_writes evs ->
       exists j, j ≠ i ∧ (j, rec) ∈ classified_writes evs).
Proof.
  intros Hposts Hi Hs Hlow.
  destruct (classify_all_runs w) as (res & evs & Hrun & Hok).
  exists evs. split; [by rewrite (runs_fun _ _ _ _ Hrun)|].
  apply run_ok_projections in Hok
    as (posts' & pre & levs & fin & news & -> & Hp' & Hok & -> & -> & -> & _ & Hfin).
  destruct Hok as (_ & Hoc & _ & Hcw & _ & Hnews).
  assert (Hnot : forall j, j ∈ (oracle_calls levs).*1 -> j ≠ i).
  { intros j [[j' q] [-> Hj]]%list_elem_of_fmap. simpl. intros ->.
    destruct (Hoc _ _ Hj) as (_ & p & Hp & _ & s' & Hs' & Hge).
    destruct Hp' as [->|Hp']; [done|].
    rewrite Nat.sub_0_r in Hp. assert (posts' = posts) as -> by congruence.
    assert (p = post) as -> by congruence. rewrite Hs in Hs'. inversion Hs'. lia. }
  assert (Hnotc : forall j rec, (j, rec) ∈ classified_writes levs -> j ≠ i).
  { intros j rec Hj. destruct (Hcw _ _ Hj) as (_ & Hin & _). by apply Hnot. }
  split_and!.
  - intros Hin. by apply (Hnot i).
  - intros [[j rec] [-> Hj]]%list_elem_of_fmap. by apply (Hnotc _ _ Hj).
  - intros rec Hr. destruct Hfin as [Hfin|Hfin]; rewrite Hfin in Hr; [inversion Hr|].
    destruct (Hnews rec Hr) as (j & p & r & Hj & _). exists j. split; [|done].
    by apply (Hnotc _ _ Hj).
Qed.

Lemma posts_to_classify_raw w posts p :
  posts_to_classify w = Ok posts -> p ∈ posts ->
  Some (VDict p) ∈ file_lines (raw_file w).
Proof.
  intros [Hsub _]%posts_to_classify_spec Hp.
  eapply elem_of_sublist; [|exact Hsub].
  unfold as_lines. apply elem_of_map. eauto.
Qed.



Lemma classify_loop_cons n post rest i vm w :
  loop n (post :: rest) i vm w =
  match item n i post vm w with
  | (Ok vm', w') => loop n rest (S i) vm' w'
  | (Raise e, w') => (Raise e, w')
  end.
Proof. reflexivity. Qed.

Lemma classify_post_unparsable i post q text u :
  prompt_for post = Ok q -> ask i q = ReplyText text ->
  unwrap_response text = Ok u -> json_loads u = None ->
  classify_post json_loads ask i post =
    (VNone, [EOracle i q; EJsonError i (PyStr.take 200 u)]).
Proof. intros Hq Ha Hu Hl. unfold classify_post. by rewrite Hq, Ha, Hu, Hl. Qed.

(** C7: when the reply for a post is not valid JSON after unwrapping,
    the loop prints the error, makes that one request only, pauses, and
    goes on with the remaining posts in a world whose three logs are
    unchanged and with the same [valid_moments]. *)
Theorem classify_loop_skips_unparsable n post rest i vm w title s q text u :
  slice_to 50 (get post "title" (VStr "")) = Ok title ->
  as_int (get post "score" (VInt 0)) = Ok s ->
  min_score <= s ->
  prompt_for post = Ok q ->
  ask i q = ReplyText text ->
  unwrap_response text = Ok u ->
  json_loads u = None ->
  exists w',
    w' = extend w [EProgress i n title; EOracle i q;
                   EJsonError i (PyStr.take 200 u); ESleep i] ∧
    loop n (post :: rest) i vm w = loop n rest (S i) vm w' ∧
    raw_file w' = raw_file w ∧
    classified_file w' = classified_file w ∧
    final_file w' = final_file w.
Proof.
  intros Ht Hs Hge Hq Ha Hu Hl. eexists. split; [reflexivity|].
  split; [|done].
  rewrite classify_loop_cons.
  assert (Hitem : exists evs, runs (item n i post vm) w (Ok vm) evs ∧
            evs = [EProgress i n title; EOracle i q;
                   EJsonError i (PyStr.take 200 u); ESleep i]).
  { eexists. split; [|shelve]. unfold item, classify_item.
    rewrite Ht, Hs, (classify_post_unparsable _ _ _ _ _ Hq Ha Hu Hl).
    assert (Hlt : (s <? min_score) = false) by (by apply Z.ltb_ge).
    cbn [truthy]. run_m. Unshelve. reflexivity. }
  destruct Hitem as (evs & Hitem & ->).
  by rewrite (runs_fun _ _ _ _ Hitem).
Qed.

Theorem classify_loop_skips_low_score n post rest i vm w title s :
  slice_to 50 (get post "title" (VStr "")) = Ok title ->
  as_int (get post "score" (VInt 0)) = Ok s ->
  s < min_score ->
  loop n (post :: rest) i vm w =
  loop n rest (S i) vm (extend w [EProgress i n title; ESkipLow i s]).
Proof.
  intros Ht Hs Hlow. rewrite classify_loop_cons.
  assert (Hitem : exists evs, runs (item n i post vm) w (Ok vm) evs ∧
            evs = [EProgress i n title; ESkipLow i s]).
  { eexists. split; [|shelve]. unfold item, classify_item. rewrite Ht, Hs.
    assert (Hlt : (s <? min_score) = true) by (by apply Z.ltb_lt).
    run_m. Unshelve. reflexivity. }
  destruct Hitem as (evs & Hitem & ->).
  by rewrite (runs_fun _ _ _ _ Hitem).
Qed.

End Spec.

(** ** What a run records and what is pending after it *)

Lemma runs_det {A} (m : M A) w r1 e1 r2 e2 :
  runs m w r1 e1 -> runs m w r2 e2 -> r1 = r2 ∧ e1 = e2.
Proof.
  unfold runs. intros H1 H2. rewrite H1 in H2.
  assert (Hr : r1 = r2) by congruence.
  assert (Hw : trace (extend w e1) = trace (extend w e2)) by congruence.
  split; [done|]. cbn [extend trace] in Hw. by apply app_inv_head in Hw.
Qed.

Lemma oracle_calls_index evs j q :
  (j, q) ∈ oracle_calls evs -> exists e, e ∈ evs ∧ event_index e = Some j.
Proof.
  intros (e & He & Hf)%list_elem_of_omap. exists e. split; [done|].
  destruct e; try discriminate Hf. by injection Hf as -> _.
Qed.

Lemma classified_writes_index evs j rec :
  (j, rec) ∈ classified_writes evs ->
  exists e, e ∈ evs ∧ event_index e = Some j.
Proof.
  intros (e & He & Hf)%list_elem_of_omap. exists e. split; [done|].
  destruct e; try discriminate Hf. by injection Hf as -> _.
Qed.

Lemma load_classified_urls_app l1 l2 urls :
  load_classified_urls (l1 ++ l2) urls =
  obind (load_classified_urls l1 urls) (load_classified_urls l2).
Proof. exact (ScraperSpec.load_urls_loop_app l1 l2 urls). Qed.

Lemma load_posts_to_classify_later lines (s s' : gset hkey) recs :
  (forall k, k ∈ s' <-> k ∈ s ∨ k ∈ url_keys recs) ->
  forall posts posts',
    load_posts_to_classify lines s = Ok posts ->
    load_posts_to_classify lines s' = Ok posts' ->
    posts' = filter (fun p => still_pending recs p = true) posts.
Proof.
  intros Hs. induction lines as [|ln lines IH]; intros posts posts' H H'; simpl in H, H'.
  - by inversion H; inversion H'.
  - destruct ln as [v|]; [|by apply IH].
    destruct v as [| | | | |post]; try discriminate.
    destruct (hash_key (get_none post "url")) as [k|] eqn:Hk; [|discriminate].
    destruct (load_posts_to_classify lines s) as [tl|] eqn:Htl; [|discriminate].
    destruct (load_posts_to_classify lines s') as [tl'|] eqn:Htl'; [|discriminate].
    simpl in H, H'. specialize (IH tl tl' eq_refl eq_refl).
    injection H as <-. injection H' as <-.
    destruct (decide (k ∈ s)) as [Hin|Hnin].
    + rewrite (bool_decide_true _ Hin).
      rewrite bool_decide_true by (apply Hs; by left). done.
    + rewrite (bool_decide_false _ Hnin). rewrite filter_cons.
      assert (Hsp : still_pending recs post = bool_decide (k ∉ url_keys recs))
        by (unfold still_pending; by rewrite Hk).
      destruct (decide (still_pending recs post = true)) as [Hp|Hp];
        rewrite Hsp in Hp.
      * apply bool_decide_eq_true in Hp.
        rewrite bool_decide_false by (rewrite Hs; tauto). by rewrite IH.
      * apply not_true_is_false, bool_decide_eq_false in Hp.
        rewrite bool_decide_true; [done|]. apply Hs. right.
        destruct (decide (k ∈ url_keys recs)); [done|by destruct Hp].
Qed.

Lemma posts_to_classify_later w evs posts posts' :
  posts_to_classify w = Ok posts ->
  posts_to_classify (extend w evs) = Ok posts' ->
  posts' = filter (fun p => still_pending (map snd (classified_writes evs)) p = true)
                  posts.
Proof.
  unfold posts_to_classify. rewrite extend_classified_lines.
  rewrite load_classified_urls_app. cbn [extend raw_file].
  destruct (load_classified_urls (file_lines (classified_file w)) ∅)
    as [s|] eqn:Hs; [|discriminate].
  cbn [obind].
  destruct (load_classified_urls (as_lines _) s) as [s'|] eqn:Hs'; [|discriminate].
  cbn [obind]. intros H H'.
  eapply load_posts_to_classify_later; [|exact H|exact H'].
  intros k. rewrite (load_classified_urls_spec _ _ _ Hs' k).
  by rewrite ScraperSpec.omap_line_key_as_lines.
Qed.

Section Attempts.

Variable json_loads : string -> option pyval.
Variable ask : nat -> prompt -> reply.
Variable utcnow : nat -> string.
Variable min_confidence min_score : Z.

Local Abbreviation post_result := (Classify.post_result json_loads ask).
Local Abbreviation item :=
  (classify_item json_loads ask utcnow min_confidence min_score).
Local Abbreviation loop :=
  (classify_loop json_loads ask utcnow min_confidence min_score).
Local Abbreviation run :=
  (classify_all json_loads ask utcnow min_confidence min_score).

(** The record written for the attempt on [post] at position [i]. *)
Local Abbreviation recorded i post rec :=
  (exists r, post_result i post = VDict r ∧ r ≠ ∅ ∧
             rec = merged utcnow i post r).

Lemma truthy_dict (r : dict) : truthy (VDict r) = true <-> r ≠ ∅.
Proof. simpl. rewrite negb_true_iff, bool_decide_eq_false. done. Qed.

Ltac item_case :=
  eexists _, _; split; [run_m|]; split; [solve_idx|].

Lemma classify_item_recorded n i post vm w :
  exists res evs, runs (item n i post vm) w res evs ∧
    Forall (fun e => event_index e = Some i) evs ∧
    (oracle_calls evs ≠ [] ->
     forall rec, (i, rec) ∈ classified_writes evs <-> recorded i post rec).
Proof.
  unfold classify_item, Classify.post_result.
  destruct (slice_to 50 (get post "title" (VStr ""))) as [title|e] eqn:Ht.
  2:{ item_case. done. }
  destruct (as_int (get post "score" (VInt 0))) as [score|e] eqn:Hs.
  2:{ item_case. done. }
  destruct (score <? min_score) eqn:Hlow.
  { item_case. done. }
  unfold classify_post.
  destruct (prompt_for post) as [q|e] eqn:Hq.
  2:{ cbn [truthy]. item_case. done. }
  destruct (ask i q) as [text|] eqn:Ha.
  2:{ cbn [truthy fst]. item_case. intros _ rec. split; [intros H; inversion H|].
      by intros (r & Hr & _). }
  destruct (unwrap_response text) as [u|e] eqn:Hu.
  2:{ cbn [truthy fst]. item_case. intros _ rec. split; [intros H; inversion H|].
      by intros (r & Hr & _). }
  destruct (json_loads u) as [result|] eqn:Hl.
  2:{ cbn [truthy fst]. item_case. intros _ rec. split; [intros H; inversion H|].
      by intros (r & Hr & _). }
  cbn [fst].
  destruct (truthy result) eqn:Htr.
  2:{ item_case. intros _ rec. split; [intros H; inversion H|].
      intros (r & -> & Hr & _). apply truthy_dict in Hr. congruence. }
  destruct result as [| | | | |r];
    try (eexists _, _; split; [cbn [record_result]; run_m|]; split; [solve_idx|];
         intros _ rec; split; [intros H; inversion H|];
         by intros (r & Hr & _)).
  assert (Hiff : forall rec,
    (i, rec) ∈ [(i, merged utcnow i post r)] <->
    exists r0, VDict r = VDict r0 ∧ r0 ≠ ∅ ∧ rec = merged utcnow i post r0).
  { intros rec. rewrite list_elem_of_singleton. split.
    - intros [= ->]. exists r. split_and!; [done|by apply truthy_dict|done].
    - intros (r' & [= <-] & _ & ->). done. }
  cbn [record_result]. cbv beta iota zeta.
  destruct (truthy (get_none r "is_valid_aha_moment")) eqn:Hvalid.
  2:{ item_case. intros _. exact Hiff. }
  destruct (as_int (get r "confidence" (VInt 0))) as [c|e] eqn:Hconf.
  2:{ item_case. intros _. exact Hiff. }
  destruct (min_confidence <=? c) eqn:Hc.
  - item_case. intros _. exact Hiff.
  - item_case. intros _. exact Hiff.
Qed.

Lemma classify_loop_recorded n posts : forall i0 vm w,
  exists res evs, runs (loop n posts i0 vm) w res evs ∧
    Forall (fun e => exists j, event_index e = Some j ∧ (i0 <= j)%nat) evs ∧
    (forall j q, (j, q) ∈ oracle_calls evs ->
       forall post, posts !! (j - i0)%nat = Some post ->
       forall rec, (j, rec) ∈ classified_writes evs <-> recorded j post rec).
Proof.
  induction posts as [|post rest IH]; intros i0 vm w.
  - exists (Ok vm), []. split; [apply runs_ret|]. split; [apply Forall_nil_2|].
    intros j q H. inversion H.
  - destruct (classify_item_recorded n i0 post vm w) as (res1 & e1 & Hrun1 & Hidx1 & Hrec1).
    assert (Hfirst : forall j q, (j, q) ∈ oracle_calls e1 ->
              j = i0 ∧ oracle_calls e1 ≠ []).
    { intros j q Hj. split.
      - apply oracle_calls_index in Hj as (e & He & Hi).
        rewrite Forall_forall in Hidx1. rewrite (Hidx1 e He) in Hi. congruence.
      - intros Hnil. rewrite Hnil in Hj. inversion Hj. }
    assert (Hw1 : forall j rec, (j, rec) ∈ classified_writes e1 -> j = i0).
    { intros j rec Hj. apply classified_writes_index in Hj as (e & He & Hi).
      rewrite Forall_forall in Hidx1. rewrite (Hidx1 e He) in Hi. congruence. }
    assert (Hidx1' : Forall (fun e => exists j, event_index e = Some j ∧ (i0 <= j)%nat) e1).
    { eapply Forall_impl; [exact Hidx1|]. intros e He. exists i0. split; [done|lia]. }
    destruct res1 as [vm1|e].
    + destruct (IH (S i0) vm1 (extend w e1)) as (res2 & e2 & Hrun2 & Hidx2 & Hrec2).
      assert (Hlater : forall j, (exists e, e ∈ e2 ∧ event_index e = Some j) ->
                (S i0 <= j)%nat).
      { intros j (e & He & Hi). rewrite Forall_forall in Hidx2.
        destruct (Hidx2 e He) as (j' & Hj' & Hle). congruence. }
      exists res2, (e1 ++ e2). split_and!.
      * simpl. eapply runs_bind; [exact Hrun1|exact Hrun2].
      * apply Forall_app_2; [done|]. eapply Forall_impl; [exact Hidx2|].
        intros e (j & Hj & Hle). exists j. split; [done|lia].
      * intros j q Hj post' Hpost rec.
        rewrite oracle_calls_app, elem_of_app in Hj.
        rewrite classified_writes_app, elem_of_app.
        destruct Hj as [Hj|Hj].
        -- destruct (Hfirst j q Hj) as [-> Hne].
           rewrite Nat.sub_diag in Hpost. injection Hpost as <-.
           rewrite <- (Hrec1 Hne rec). split; [|by left].
           intros [H|H]; [done|].
           apply classified_writes_index, Hlater in H. lia.
        -- assert (Hle : (S i0 <= j)%nat)
             by (by eapply Hlater, oracle_calls_index).
           assert (Hpost' : rest !! (j - S i0)%nat = Some post').
           { replace (j - i0)%nat with (S (j - S i0)) in Hpost by lia. done. }
           rewrite <- (Hrec2 j q Hj post' Hpost' rec). split; [|by right].
           intros [H|H]; [|done]. apply Hw1 in H. lia.
    + exists (Raise e), e1. split_and!.
      * simpl. by apply runs_bind_raise.
      * done.
      * intros j q Hj post' Hpost rec.
        destruct (Hfirst j q Hj) as [-> Hne].
        rewrite Nat.sub_diag in Hpost. injection Hpost as <-.
        by apply Hrec1.
Qed.

Lemma classify_all_recorded w :
  exists res evs, runs run w res evs ∧
    forall j q, (j, q) ∈ oracle_calls evs ->
      forall posts post, posts_to_classify w = Ok posts ->
        posts !! j = Some post ->
        forall rec, (j, rec) ∈ classified_writes evs <-> recorded j post rec.
Proof.
  unfold classify_all, runs. cbv beta.
  destruct (raw_file w) as [raw_lines|] eqn:Hraw.
  2:{ eexists (Ok []), _. split; [apply runs_fun; run_m|].
      intros j q Hj. cbn in Hj. inversion Hj. }
  destruct (posts_to_classify w) as [posts|e] eqn:Hposts.
  2:{ eexists (Raise e), _. split; [apply runs_fun; run_m|].
      intros j q Hj. inversion Hj. }
  destruct (decide (posts = [])) as [->|Hne].
  { eexists (Ok []), _. split; [apply runs_fun; run_m|].
    intros j q Hj. cbn in Hj. inversion Hj. }
  assert (Hmatch : forall (A B : M (list dict)),
            match posts with [] => A | _ :: _ => B end = B)
    by (intros; by destruct posts).
  rewrite bind_lift_ok. cbv beta. rewrite Hmatch. clear Hmatch.
  destruct (classify_loop_recorded (length posts) posts 0%nat []
              (extend w [EClassifying (length posts)]))
    as (res & levs & Hloop & _ & Hrec).
  assert (Hgoal : forall fin, oracle_calls fin = [] -> classified_writes fin = [] ->
    forall j q, (j, q) ∈ oracle_calls ([EClassifying (length posts)] ++ levs ++ fin) ->
      forall posts0 post, Ok posts = Ok posts0 -> posts0 !! j = Some post ->
      forall rec,
        (j, rec) ∈ classified_writes ([EClassifying (length posts)] ++ levs ++ fin)
        <-> recorded j post rec).
  { intros fin Ho Hc j q Hj posts0 post [= <-] Hpost rec.
    rewrite !oracle_calls_app, Ho, app_nil_r in Hj.
    rewrite !classified_writes_app, Hc, app_nil_r.
    cbn [oracle_calls classified_writes omap list_omap app] in *.
    apply (Hrec j q Hj post); by rewrite Nat.sub_0_r. }
  destruct res as [vm|e].
  2:{ eexists (Raise e), _. split; [apply runs_fun; run_m|].
      rewrite <- (app_nil_r levs). by apply Hgoal. }
  destruct vm as [|m vm].
  { eexists (Ok []), _. split.
    - apply runs_fun.
      eapply runs_bind; [by apply runs_emit|].
      eapply runs_bind; [exact Hloop|]. apply runs_ret.
    - by apply Hgoal. }
  eexists (Ok (m :: vm)), _. split.
  - apply runs_fun.
    eapply runs_bind; [by apply runs_emit|].
    eapply runs_bind; [exact Hloop|]. cbv beta iota.
    eapply runs_bind; [by apply runs_append_final|].
    eapply runs_bind; [by apply runs_emit|]. apply runs_ret.
  - apply Hgoal.
    + rewrite oracle_calls_app. cbn [app]. rewrite app_nil_r.
      generalize (m :: vm). intros l. induction l as [|x l IHl]; [done|]. by csimpl.
    + by rewrite classified_writes_app, classified_writes_map_final.
Qed.

(** C5, as amended: a run of [classify_all] makes at most one oracle
    request per pending post, and only for raw items whose URL is not in
    the classified log when the run starts; every record it appends to
    the classified log comes from a request of the run and is in the log
    afterwards; the URLs of the classified log are never removed; a
    request is recorded exactly when its result is a non-empty object;
    and the posts pending after the run are the posts pending before it
    whose URL is not the URL of a record the run appended, so a post that
    was skipped or whose attempt failed is pending again unless a record
    with its URL was written. *)
Theorem classify_all_one_attempt_per_pending w :
  exists evs, (run w).2 = extend w evs ∧
    NoDup (oracle_calls evs).*1 ∧
    (forall j q, (j, q) ∈ oracle_calls evs ->
       exists posts post k, posts_to_classify w = Ok posts ∧
         posts !! j = Some post ∧
         Some (VDict post) ∈ file_lines (raw_file w) ∧
         hash_key (get_none post "url") = Some k ∧
         k ∉ log_keys (classified_file w)) ∧
    (forall j rec, (j, rec) ∈ classified_writes evs ->
       j ∈ (oracle_calls evs).*1 ∧
       Some (VDict rec) ∈ file_lines (classified_file (run w).2)) ∧
    (forall k, k ∈ log_keys (classified_file w) ->
       k ∈ log_keys (classified_file (run w).2)) ∧
    (forall j q posts post, (j, q) ∈ oracle_calls evs ->
       posts_to_classify w = Ok posts -> posts !! j = Some post ->
       forall rec, (j, rec) ∈ classified_writes evs <->
         exists r, post_result j post = VDict r ∧ r ≠ ∅ ∧
                   rec = merged utcnow j post r) ∧
    (forall posts posts', posts_to_classify w = Ok posts ->
       posts_to_classify (run w).2 = Ok posts' ->
       posts' = filter (fun p => still_pending (map snd (classified_writes evs)) p
                                 = true) posts).
Proof.
  destruct (classify_all_runs json_loads ask utcnow min_confidence min_score w)
    as (res & evs & Hrun & Hok).
  destruct (classify_all_recorded w) as (res' & evs' & Hrun' & Hrec).
  destruct (runs_det _ _ _ _ _ _ Hrun Hrun') as [_ <-]. clear Hrun'.
  exists evs. rewrite (runs_fun _ _ _ _ Hrun). cbn [snd]. split; [done|].
  apply run_ok_projections in Hok
    as (posts & pre & levs & fin & news & Hevs & Hp & Hok & Hoc & Hcw & _).
  destruct Hok as (_ & Hcalls & Hnd & Hwrites & _).
  split_and!.
  - by rewrite Hoc.
  - intros j q Hj. rewrite Hoc in Hj.
    destruct (Hcalls _ _ Hj) as (_ & post & Hpost & _).
    rewrite Nat.sub_0_r in Hpost.
    destruct Hp as [->|Hp]; [done|].
    assert (Hin : post ∈ posts) by (eapply list_elem_of_lookup_2; eauto).
    destruct (posts_to_classify_spec _ _ Hp) as [_ Hfresh].
    destruct (Hfresh post Hin) as (k & Hk & Hnot).
    exists posts, post, k. split_and!; try done.
    by eapply posts_to_classify_raw.
  - intros j rec Hj. split.
    + rewrite Hoc. rewrite Hcw in Hj. by destruct (Hwrites _ _ Hj) as (_ & ? & _).
    + rewrite extend_classified_lines. apply elem_of_app. right.
      unfold as_lines. apply elem_of_map. eexists; split; [done|].
      apply elem_of_map. by exists (j, rec).
  - intros k Hk. unfold log_keys in *. rewrite extend_classified_lines.
    rewrite omap_app. set_solver.
  - intros j q posts0 post Hj Hposts Hpost rec. by eapply Hrec.
  - intros posts0 posts' Hposts Hposts'. by eapply posts_to_classify_later.
Qed.

End Attempts.


(** The post with score 2 under a floor of 5. *)
Lemma classify_all_skips_low_score_witness :
  exists evs,
    (classify_all Samples.sample_loads Samples.ask_accept Samples.clock 60 5
                  Samples.fresh_world).2
      = extend Samples.fresh_world evs ∧
    (1%nat ∉ (oracle_calls evs).*1) ∧ (1%nat ∉ (classified_writes evs).*1).
Proof.
  destruct (classify_all_skips_low_score Samples.sample_loads Samples.ask_accept
              Samples.clock 60 5 Samples.fresh_world
              [Samples.post_a1; Samples.post_b] 1 Samples.post_b 2)
    as (evs & H1 & H2 & H3 & _).
  - vm_compute. reflexivity.
  - reflexivity.
  - vm_compute. reflexivity.
  - lia.
  - exists evs. auto.
Defined.


(** The oracle answers "oops" for the first post. *)
Lemma classify_loop_skips_unparsable_witness :
  exists w',
    classify_loop Samples.sample_loads Samples.ask_garbage Samples.clock 60 5
                  2 [Samples.post_a1; Samples.post_b] 0 [] Samples.fresh_world
    = classify_loop Samples.sample_loads Samples.ask_garbage Samples.clock 60 5
                    2 [Samples.post_b] 1 [] w' ∧
    classified_file w' = None ∧ final_file w' = None ∧
    trace w' = [EProgress 0 2 (VStr "first"); EOracle 0 Samples.prompt_a1;
                EJsonError 0 "oops"; ESleep 0].
Proof.
  destruct (classify_loop_skips_unparsable Samples.sample_loads
              Samples.ask_garbage Samples.clock 60 5
              2 Samples.post_a1 [Samples.post_b] 0 [] Samples.fresh_world
              (VStr "first") 10 Samples.prompt_a1 "oops" "oops")
    as (w' & Hw' & Hloop & _ & Hc & Hf).
  - vm_compute. reflexivity.
  - vm_compute. reflexivity.
  - lia.
  - vm_compute. reflexivity.
  - reflexivity.
  - vm_compute. reflexivity.
  - vm_compute. reflexivity.
  - exists w'. split; [exact Hloop|]. split; [exact Hc|]. split; [exact Hf|].
    rewrite Hw'. reflexivity.
Defined.

(** Against C5 as stated: the oracle answers "oops" in two successive
    runs.  The post with score 10 is pending in both and is requested in
    both, so it gets two classification attempts; the post with score 2 is
    pending in both and gets none. *)
Lemma classify_all_retries_failed_attempt :
  let run := classify_all Samples.sample_loads Samples.ask_garbage
                          Samples.clock 60 5 in
  let w1 := (run Samples.fresh_world).2 in
  let w2 := (run w1).2 in
  posts_to_classify Samples.fresh_world = Ok [Samples.post_a1; Samples.post_b] ∧
  oracle_calls (trace w1) = [(0%nat, Samples.prompt_a1)] ∧
  posts_to_classify w1 = Ok [Samples.post_a1; Samples.post_b] ∧
  oracle_calls (trace w2)
    = [(0%nat, Samples.prompt_a1); (0%nat, Samples.prompt_a1)] ∧
  classified_file w2 = None.
Proof. split_and!; vm_compute; reflexivity. Qed.

(** One run on the sample world with an oracle that accepts: the post
    with score 10 is recorded, the post with score 2 is pending again. *)
Lemma classify_all_one_attempt_per_pending_witness :
  exists evs,
    (classify_all Samples.sample_loads Samples.ask_accept Samples.clock 60 5
                  Samples.fresh_world).2
      = extend Samples.fresh_world evs ∧
    NoDup (oracle_calls evs).*1 ∧
    filter (fun p => still_pending (map snd (classified_writes evs)) p = true)
           [Samples.post_a1; Samples.post_b] = [Samples.post_b].
Proof.
  destruct (classify_all_one_attempt_per_pending Samples.sample_loads
              Samples.ask_accept Samples.clock 60 5 Samples.fresh_world)
    as (evs & H1 & H2 & _ & _ & _ & _ & H7).
  exists evs. split; [exact H1|]. split; [exact H2|].
  symmetry. apply H7; vm_compute; exact eq_refl.
Defined.

(** C6: the reply is the valid JSON object [{"quote": "```"}] in a fenced
    block with the [json] tag.  Parsed directly the object is recovered;
    unwrapping cuts the text at the fence inside the string, what is left
    is not JSON, and [classify_post] returns [None]. *)
Theorem unwrap_response_cuts_at_inner_fence :
  Samples.sample_loads Samples.fence_quote_text
    = Some (VDict Samples.fence_quote_result) ∧
  unwrap_response Samples.fence_quote_text = Ok Samples.fence_quote_text ∧
  unwrap_response (Samples.fenced Samples.fence_quote_text)
    = Ok ("{" +:+ Samples.dq +:+ "quote" +:+ Samples.dq +:+ ": " +:+ Samples.dq) ∧
  (classify_post Samples.sample_loads
     (fun _ _ => ReplyText (Samples.fenced Samples.fence_quote_text))
     0 Samples.post_a1).1 = VNone.
Proof. split_and!; vm_compute; reflexivity. Qed.

End ClassifySpec.

(** * Properties of the Renderer *)

Module GenerateHtmlSpec.

Import GenerateHtml ListFacts Samples.

(** ** The stable descending sort *)

Section SortFacts.

Context {A K : Type} `{EqDecision K} (key : A -> K) (ltk : K -> K -> bool).

Hypothesis ltk_irrefl : forall k, ltk k k = false.
Hypothesis ltk_asym : forall a b, ltk a b = true -> ltk b a = false.
Hypothesis ltk_ge_trans :
  forall a b c, ltk a b = false -> ltk b c = false -> ltk a c = false.

Let lt (a b : A) : bool := ltk (key a) (key b).
Let ge (a b : A) : Prop := ltk (key a) (key b) = false.

Lemma insert_desc_perm x l : insert_desc lt x l ≡ₚ x :: l.
Proof.
  induction l as [|y r IH]; simpl; [done|].
  destruct (lt x y); [|done]. rewrite IH. apply Permutation_swap.
Qed.

Lemma sort_desc_perm l : sort_desc lt l ≡ₚ l.
Proof.
  induction l as [|x l IH]; simpl; [done|].
  rewrite insert_desc_perm. by rewrite IH.
Qed.

Lemma insert_desc_sorted x l :
  StronglySorted ge l -> StronglySorted ge (insert_desc lt x l).
Proof.
  induction l as [|y r IH]; intros Hs; simpl.
  - repeat constructor.
  - apply StronglySorted_cons in Hs as [Hy Hr].
    destruct (lt x y) eqn:Hlt.
    + apply StronglySorted_cons. split; [|by apply IH].
      rewrite insert_desc_perm. apply Forall_cons. split; [|done].
      by apply ltk_asym.
    + apply StronglySorted_cons. split.
      * apply Forall_cons. split; [done|].
        eapply Forall_impl; [exact Hy|]. intros z Hz. unfold ge in *.
        by eapply ltk_ge_trans.
      * apply StronglySorted_cons. by split.
Qed.

Lemma sort_desc_sorted l : StronglySorted ge (sort_desc lt l).
Proof.
  induction l as [|x l IH]; simpl; [constructor|]. by apply insert_desc_sorted.
Qed.



End SortFacts.





(** The moments paired with their keys. *)
Lemma with_keys_spec ms : forall keyed,
  with_keys ms = Ok keyed ->
  map snd keyed = ms ∧ Forall (fun p => sort_key p.2 = Ok p.1) keyed.
Proof.
  induction ms as [|m ms IH]; intros keyed H; simpl in H.
  - inversion H. split; [done|constructor].
  - destruct (sort_key m) as [k|] eqn:Hk; [|discriminate]. simpl in H.
    destruct (with_keys ms) as [tl|] eqn:Htl; [|discriminate]. simpl in H.
    inversion H; subst. destruct (IH tl eq_refl) as [Hmap Hall].
    split; [simpl; by rewrite Hmap|]. by constructor.
Qed.




(** ** [analyze_patterns] *)

Lemma count_of_add k k' c :
  count_of (counter_add k c) k' = (count_of c k' + if bool_decide (k = k') then 1 else 0)%nat.
Proof.
  unfold counter_add, count_of. case_bool_decide as Hk.
  - subst. rewrite lookup_insert_eq. simpl. lia.
  - rewrite lookup_insert_ne by done. lia.
Qed.

Lemma count_field_spec field dflt ms : forall c res,
  count_field field dflt ms c = Ok res ->
  forall k, count_of res k = (count_of c k + field_count field dflt k ms)%nat.
Proof.
  induction ms as [|m ms IH]; intros c res H k; simpl in H.
  - inversion H; subst. unfold field_count. rewrite filter_nil. simpl. lia.
  - destruct (hash_key (get m field dflt)) as [k0|] eqn:Hk0; [|discriminate].
    rewrite (IH _ _ H k), count_of_add. unfold field_count.
    rewrite filter_cons. rewrite Hk0.
    case_bool_decide as Hk.
    + subst. rewrite decide_True by done. simpl. lia.
    + rewrite decide_False by congruence. lia.
Qed.

Lemma count_all_spec vs : forall c res,
  count_all vs c = Ok res ->
  forall k, count_of res k =
    (count_of c k + length (filter (fun v => hash_key v = Some k) vs))%nat.
Proof.
  induction vs as [|v vs IH]; intros c res H k; simpl in H.
  - inversion H; subst. rewrite filter_nil. simpl. lia.
  - destruct (hash_key v) as [k0|] eqn:Hk0; [|discriminate].
    rewrite (IH _ _ H k), count_of_add, filter_cons, Hk0.
    case_bool_decide as Hk.
    + subst. rewrite decide_True by done. simpl. lia.
    + rewrite decide_False by congruence. lia.
Qed.

Lemma lever_count_cons k m ms :
  lever_count k (m :: ms) =
  (length (filter (fun v => hash_key v = Some k) (levers_of m)) + lever_count k ms)%nat.
Proof. reflexivity. Qed.

Lemma count_levers_spec ms : forall c res,
  count_levers ms c = Ok res ->
  forall k, count_of res k = (count_of c k + lever_count k ms)%nat.
Proof.
  induction ms as [|m ms IH]; intros c res H k; simpl in H.
  - inversion H; subst. unfold lever_count. simpl. lia.
  - destruct (iterate (get m "growth_levers" (VList []))) as [ls|] eqn:Hls; [|discriminate].
    simpl in H. destruct (count_all ls c) as [c'|] eqn:Hc'; [|discriminate]. simpl in H.
    rewrite (IH _ _ H k), (count_all_spec _ _ _ Hc' k).
    rewrite lever_count_cons. unfold levers_of. rewrite Hls. lia.
Qed.

(** ** The ordered counter of phrases *)

Lemma counter_incr_count k k' c :
  assoc_count k' (counter_incr k c) =
  (assoc_count k' c + if bool_decide (k = k') then 1 else 0)%nat.
Proof.
  induction c as [|[k0 n] r IH]; simpl.
  - repeat case_bool_decide; subst; try done; congruence.
  - destruct (decide (k = k0)) as [->|H0].
    + rewrite (bool_decide_true (k0 = k0)) by done. simpl.
      repeat case_bool_decide; subst; try lia; congruence.
    + rewrite (bool_decide_false (k = k0)) by done. simpl. rewrite IH.
      repeat case_bool_decide; subst; try lia; congruence.
Qed.

Lemma counter_incr_keys k c k' :
  k' ∈ (counter_incr k c).*1 <-> k' = k ∨ k' ∈ c.*1.
Proof.
  induction c as [|[k0 n] r IH]; simpl.
  - set_solver.
  - case_bool_decide as H0; simpl; [subst; set_solver|].
    rewrite !elem_of_cons, IH. tauto.
Qed.

Lemma counter_incr_inv k c : counter_inv c -> counter_inv (counter_incr k c).
Proof.
  induction c as [|[k0 n] r IH]; intros [Hnd Hpos]; simpl.
  - split; [apply NoDup_singleton|]. repeat constructor.
  - simpl in Hnd. apply NoDup_cons in Hnd as [Hk0 Hnd].
    apply Forall_cons in Hpos as [Hn Hpos].
    case_bool_decide as H0.
    + split; [by apply NoDup_cons|]. apply Forall_cons. simpl in *. split; [lia|done].
    + destruct (IH (conj Hnd Hpos)) as [Hnd' Hpos'].
      split; [|by apply Forall_cons]. simpl. apply NoDup_cons. split; [|done].
      rewrite counter_incr_keys. intros [->|?]; done.
Qed.

Lemma assoc_count_mem c : counter_inv c ->
  forall k n, (k, n) ∈ c <-> n = assoc_count k c ∧ (0 < n)%nat.
Proof.
  induction c as [|[k0 n0] r IH]; intros [Hnd Hpos] k n; simpl.
  - split; [intros H; inversion H|lia].
  - simpl in Hnd. apply NoDup_cons in Hnd as [Hk0 Hnd].
    apply Forall_cons in Hpos as [Hn Hpos]. simpl in Hn.
    rewrite elem_of_cons, (IH (conj Hnd Hpos)).
    case_bool_decide as H0.
    + subst k0. split.
      * intros [[= ->]|[-> Hp]]; [done|].
        exfalso. apply Hk0. apply list_elem_of_fmap.
        exists (k, assoc_count k r). split; [done|]. by apply (IH (conj Hnd Hpos)).
      * intros [-> _]. by left.
    + split.
      * intros [[= -> ->]|?]; done.
      * intros ?. by right.
Qed.

Lemma scan_phrases_count r ps : forall c k,
  assoc_count k (scan_phrases r ps c) =
  (assoc_count k c +
   length (filter (fun p => p = k ∧ PyStr.contains p r = true) ps))%nat.
Proof.
  induction ps as [|p ps IH]; intros c k; cbn [scan_phrases].
  - rewrite filter_nil. simpl. lia.
  - rewrite IH, filter_cons. destruct (PyStr.contains p r) eqn:Hc.
    + rewrite counter_incr_count. case_bool_decide as Hk.
      * rewrite decide_True by done. simpl. lia.
      * rewrite decide_False by (intros [? _]; done). lia.
    + rewrite decide_False by (intros [_ ?]; done). lia.
Qed.

Lemma scan_phrases_inv r ps : forall c,
  counter_inv c -> counter_inv (scan_phrases r ps c).
Proof.
  induction ps as [|p ps IH]; intros c Hc; simpl; [done|].
  apply IH. destruct (PyStr.contains p r); [by apply counter_incr_inv|done].
Qed.

Lemma scan_phrases_keys r ps : forall c k,
  k ∈ (scan_phrases r ps c).*1 -> k ∈ ps ∨ k ∈ c.*1.
Proof.
  induction ps as [|p ps IH]; intros c k Hk; simpl in Hk; [by right|].
  apply IH in Hk as [Hk|Hk]; [left; set_solver|].
  destruct (PyStr.contains p r); [|by right].
  apply counter_incr_keys in Hk as [->|Hk]; [left; set_solver|by right].
Qed.

Lemma phrases_nodup : NoDup phrases.
Proof. apply (bool_decide_unpack _). vm_compute. exact I. Qed.

Lemma filter_unique_phrase k (P : string -> bool) ps :
  NoDup ps ->
  length (filter (fun p => p = k ∧ P p = true) ps) =
  if bool_decide (k ∈ ps) then (if P k then 1 else 0)%nat else 0%nat.
Proof.
  induction 1 as [|p ps Hp Hnd IH].
  - rewrite filter_nil. by rewrite bool_decide_false by set_solver.
  - rewrite filter_cons. destruct (decide (p = k ∧ P p = true)) as [[-> HP]|Hn].
    + simpl. rewrite IH. rewrite (bool_decide_false (k ∈ ps)) by done.
      rewrite bool_decide_true by set_solver. by rewrite HP.
    + rewrite IH. destruct (decide (p = k)) as [->|Hne].
      * rewrite (bool_decide_false (k ∈ ps)) by done.
        rewrite bool_decide_true by set_solver.
        destruct (P k) eqn:HP; [|done]. exfalso. by apply Hn.
      * case_bool_decide as H1; case_bool_decide as H2; try done; set_solver.
Qed.

Lemma count_realizations_spec ms : forall c res,
  count_realizations ms c = Ok res ->
  (counter_inv c -> counter_inv res) ∧
  (forall k, k ∈ res.*1 -> k ∈ phrases ∨ k ∈ c.*1) ∧
  forall k, assoc_count k res =
    (assoc_count k c +
     if bool_decide (k ∈ phrases) then phrase_count k ms else 0)%nat.
Proof.
  induction ms as [|m ms IH]; intros c res H; cbn [count_realizations] in H.
  - inversion H; subst. split_and!; [done|by right|].
    intros k. unfold phrase_count. rewrite filter_nil. simpl. case_bool_decide; lia.
  - destruct (get m "realization" (VStr "")) as [| | |s| |] eqn:Hr; try discriminate.
    destruct (IH _ _ H) as (Hinv & Hkeys & Hcount). split_and!.
    + intros Hc. by apply Hinv, scan_phrases_inv.
    + intros k Hk. apply Hkeys in Hk as [?|Hk]; [by left|].
      by apply scan_phrases_keys in Hk.
    + intros k. rewrite Hcount, scan_phrases_count.
      rewrite (filter_unique_phrase k (fun p => PyStr.contains p (PyStr.lower s)))
        by apply phrases_nodup.
      unfold phrase_count. rewrite filter_cons.
      assert (Hm : mentions k m = PyStr.contains k (PyStr.lower s))
        by (unfold mentions, realization_of; by rewrite Hr).
      case_bool_decide as Hk; [|lia].
      destruct (decide (mentions k m = true)) as [Hc|Hc]; rewrite Hm in Hc.
      * rewrite Hc. simpl. lia.
      * apply not_true_is_false in Hc. rewrite Hc. lia.
Qed.

Lemma count_realizations_total ms : forall c,
  Forall moment_ok ms -> exists res, count_realizations ms c = Ok res.
Proof.
  induction ms as [|m ms IH]; intros c Hall; cbn [count_realizations]; [eauto|].
  apply Forall_cons in Hall as [((s & ->) & _) Hall]. by apply IH.
Qed.

Lemma count_field_total field dflt ms : forall c,
  Forall (fun m => is_Some (hash_key (get m field dflt))) ms ->
  exists res, count_field field dflt ms c = Ok res.
Proof.
  induction ms as [|m ms IH]; intros c Hall; simpl; [eauto|].
  apply Forall_cons in Hall as [[k ->] Hall]. by apply IH.
Qed.

Lemma count_all_total vs : forall c,
  Forall (fun v => is_Some (hash_key v)) vs -> exists res, count_all vs c = Ok res.
Proof.
  induction vs as [|v vs IH]; intros c Hall; simpl; [eauto|].
  apply Forall_cons in Hall as [[k ->] Hall]. by apply IH.
Qed.

Lemma count_levers_total ms : forall c,
  Forall moment_ok ms -> exists res, count_levers ms c = Ok res.
Proof.
  induction ms as [|m ms IH]; intros c Hall; simpl; [eauto|].
  apply Forall_cons in Hall as [(_ & _ & (ls & -> & Hls) & _) Hall]. simpl.
  destruct (count_all_total ls c Hls) as [c' ->]. simpl. by apply IH.
Qed.

Lemma nat_ltb_asym a b : (a <? b)%nat = true -> (b <? a)%nat = false.
Proof. rewrite Nat.ltb_lt, Nat.ltb_ge. lia. Qed.

Lemma nat_ltb_ge_trans a b c :
  (a <? b)%nat = false -> (b <? c)%nat = false -> (a <? c)%nat = false.
Proof. rewrite !Nat.ltb_ge. lia. Qed.

(** C9, as amended: on moments on which no pass raises,
    [analyze_patterns] counts the moments by [layer] and by [ai_tool],
    counts every occurrence of a lever among the [growth_levers] of all
    moments, and ranks the phrases of the vocabulary that some realization
    mentions by the number of moments mentioning them, in descending
    order; [patterns] holds the first five of the ranking and the insights
    card lists the first four. *)
Theorem analyze_patterns_counts (ms : list dict) :
  Forall moment_ok ms ->
  exists a, analyze_patterns ms = Ok a ∧
    (forall k, count_of (layers a) k = field_count "layer" (VStr "unknown") k ms) ∧
    (forall k, count_of (levers a) k = lever_count k ms) ∧
    (forall k, count_of (tools a) k = field_count "ai_tool" (VStr "Unknown") k ms) ∧
    total a = length ms ∧
    exists ranked,
      patterns a = take 5 ranked ∧
      insight_patterns a = map pattern_line (take 4 ranked) ∧
      NoDup ranked.*1 ∧
      StronglySorted (fun x y => (y.2 <= x.2)%nat) ranked ∧
      forall ph n, (ph, n) ∈ ranked <->
        ph ∈ phrases ∧ n = phrase_count ph ms ∧ (0 < n)%nat.
Proof.
  intros Hall.
  destruct (count_realizations_total ms [] Hall) as [c Hc].
  destruct (count_field_total "layer" (VStr "unknown") ms ∅) as [ly Hly].
  { eapply Forall_impl; [exact Hall|]. by intros m (_ & ? & _). }
  destruct (count_levers_total ms ∅ Hall) as [lv Hlv].
  destruct (count_field_total "ai_tool" (VStr "Unknown") ms ∅) as [tl Htl].
  { eapply Forall_impl; [exact Hall|]. by intros m (_ & _ & _ & ?). }
  eexists. split.
  { unfold analyze_patterns. rewrite Hc. cbn [obind]. rewrite Hly. cbn [obind].
    rewrite Hlv. cbn [obind]. rewrite Htl. cbn [obind]. reflexivity. }
  cbn [layers levers tools total patterns].
  split_and!.
  - intros k. rewrite (count_field_spec _ _ _ _ _ Hly k). unfold count_of.
    by rewrite lookup_empty.
  - intros k. rewrite (count_levers_spec _ _ _ Hlv k). unfold count_of.
    by rewrite lookup_empty.
  - intros k. rewrite (count_field_spec _ _ _ _ _ Htl k). unfold count_of.
    by rewrite lookup_empty.
  - done.
  - set (ranked := sort_desc (fun a b : string * nat => (a.2 <? b.2)%nat) c).
    assert (Hperm : ranked ≡ₚ c)
      by apply (sort_desc_perm snd Nat.ltb).
    destruct (count_realizations_spec _ _ _ Hc) as (Hinv & Hkeys & Hcount).
    assert (Hcinv : counter_inv c).
    { apply Hinv. split; constructor. }
    exists ranked. split_and!.
    + done.
    + unfold insight_patterns. cbn [patterns]. unfold most_common. fold ranked.
      rewrite take_take. done.
    + rewrite Hperm. apply Hcinv.
    + pose proof (sort_desc_sorted snd Nat.ltb nat_ltb_asym
                    nat_ltb_ge_trans c) as Hs.
      eapply StronglySorted_weaken; [|exact Hs].
      intros x y Hxy. simpl in Hxy. apply Nat.ltb_ge in Hxy. lia.
    + intros ph n. rewrite Hperm, (assoc_count_mem c Hcinv), Hcount. simpl.
      case_bool_decide as Hph.
      * split; [intros [-> ?]; done|]. intros (_ & -> & ?). done.
      * split; [lia|]. intros (? & _). done.
Qed.

(** Against C9 as stated: a realization that mentions five phrases.  The
    analysis holds five patterns, the card lists four of them, and "time"
    is not reported. *)
Lemma analyze_patterns_reports_four :
  exists a, analyze_patterns five_themes = Ok a ∧
    patterns a = [("conversation", 1); ("partner", 1); ("thinking", 1);
                  ("trust", 1); ("time", 1)]%nat ∧
    length (patterns a) = 5%nat ∧
    length (insight_patterns a) = 4%nat ∧
    (insight_patterns a).*1 = [1; 1; 1; 1]%nat ∧
    insight_patterns a = map pattern_line
      [("conversation", 1); ("partner", 1); ("thinking", 1); ("trust", 1)]%nat.
Proof. eexists. split; [vm_compute; reflexivity|]. vm_compute. repeat split; reflexivity. Qed.


(** The counts of the one-moment sample. *)
Lemma analyze_patterns_counts_witness :
  exists a, analyze_patterns five_themes = Ok a ∧
    total a = 1%nat ∧
    count_of (levers a) (KStr "retention") = lever_count (KStr "retention") five_themes.
Proof.
  destruct (analyze_patterns_counts five_themes) as (a & H1 & _ & H2 & _ & H3 & _).
  - apply Forall_cons_2; [|apply Forall_nil_2].
    split_and!; [by eexists|by eexists|eexists; split; [reflexivity|]|by eexists].
    repeat (apply Forall_cons_2; [by eexists|]). apply Forall_nil_2.
  - exists a. auto.
Defined.

End GenerateHtmlSpec.

(** * Properties of the text predicates and the fetchers *)

(** * Further properties of the Collector *)

Module ScraperRun.

(** ** Runs that return *)

Lemma load_urls_loop_total lines : forall urls,
  Forall (fun ln : line =>
            match ln with
            | None => True
            | Some (VDict d) => is_Some (hash_key (url_of d))
            | Some _ => False
            end) lines ->
  exists s, Scraper.load_urls_loop lines urls = Ok s.
Proof.
  induction lines as [|ln lines IH]; intros urls Hall; simpl; [eauto|].
  apply Forall_cons in Hall as [Hln Hall].
  destruct ln as [[| | | | |d]|]; try done; [|by apply IH].
  fold (url_of d). destruct Hln as [k ->]. by apply IH.
Qed.

Lemma load_existing_urls_total f :
  Scraper.loadable f -> exists s, Scraper.load_existing_urls f = Ok s.
Proof.
  unfold Scraper.loadable, Scraper.load_existing_urls.
  destruct f as [lines|]; [apply load_urls_loop_total|eauto].
Qed.

Lemma filter_new_total all ex :
  (forall p, p ∈ all -> exists k, carries k p) ->
  exists new, Scraper.filter_new all ex = Ok new.
Proof.
  induction all as [|p all IH]; intros Hall; simpl; [eauto|].
  destruct (Hall p) as [k Hk]; [set_solver|].
  rewrite (ScraperSpec.carries_get_none _ _ Hk). destruct Hk as [_ ->].
  destruct IH as [new ->]; [intros q Hq; apply Hall; set_solver|].
  simpl. eauto.
Qed.

Lemma scrape_all_complete f1 f2 f3 utcnow data_file :
  Scraper.loadable data_file ->
  Forall Scraper.url_hashable (Scraper.fetch_all f1 f2 f3) ->
  exists added,
    Scraper.scrape_all f1 f2 f3 utcnow data_file =
      (Ok (Scraper.stamp utcnow 0 added),
       match added with
       | [] => data_file
       | _ :: _ => append_records data_file (Scraper.stamp utcnow 0 added)
       end) ∧
    sublist added (Scraper.fetch_all f1 f2 f3) ∧
    (forall p k, p ∈ Scraper.fetch_all f1 f2 f3 -> carries k p ->
       k ∉ log_keys data_file -> exists q, q ∈ added ∧ carries k q) ∧
    (forall q, q ∈ added -> exists k, carries k q ∧ k ∉ log_keys data_file).
Proof.
  intros Hload Hhash.
  destruct (load_existing_urls_total _ Hload) as [existing Hex].
  destruct (ScraperSpec.firsts_total _ Hhash ∅) as [news Hf].
  pose proof (ScraperSpec.firsts_dedup_loop _ _ _ Hf []) as Hdedup.
  rewrite app_nil_l in Hdedup.
  assert (Hcar : forall p, p ∈ news -> exists k, carries k p).
  { intros p Hp. destruct (ScraperSpec.firsts_carries _ _ _ Hf p Hp) as (k & Hk & _).
    eauto. }
  destruct (filter_new_total news existing Hcar) as [new Hnew].
  destruct (ScraperSpec.filter_new_spec _ _ _ Hnew) as [Hsub Hfresh].
  pose proof (ScraperSpec.load_existing_urls_spec _ _ Hex) as Hkeys.
  exists new. split_and!.
  - unfold Scraper.scrape_all, Scraper.deduplicate_posts.
    rewrite Hex, Hdedup, Hnew. by destruct new.
  - etrans; [exact Hsub|]. by eapply ScraperSpec.firsts_sublist.
  - intros p k Hp Hk Hnot.
    destruct (ScraperSpec.firsts_complete _ _ _ Hf k p Hp Hk)
      as (l1 & q & l2 & _ & Hq & _ & Hin); [set_solver|].
    exists q. split; [|done].
    eapply ScraperSpec.filter_new_complete; [exact Hnew|exact Hin| |].
    + rewrite (ScraperSpec.carries_get_none _ _ Hq). by destruct Hq.
    + by rewrite Hkeys.
  - intros q Hq. destruct (Hfresh q Hq) as (k & Hk & Hnot).
    destruct (Hcar q) as [k' Hc]; [by eapply elem_of_sublist|].
    rewrite (ScraperSpec.carries_get_none _ _ Hc) in Hk.
    assert (k' = k) as -> by (destruct Hc; congruence).
    exists k. split; [done|]. by rewrite <- Hkeys.
Qed.

(** ** Runs that raise *)

(** A log line that decodes to something other than an object. *)
Lemma load_urls_loop_non_object lines v : forall urls,
  Some v ∈ lines -> (forall d, v ≠ VDict d) ->
  (forall d, Some (VDict d) ∈ lines -> is_Some (hash_key (url_of d))) ->
  Scraper.load_urls_loop lines urls = Raise AttributeError.
Proof.
  induction lines as [|ln lines IH]; intros urls Hin Hv Hd; [inversion Hin|].
  simpl. destruct ln as [[| | | | |d]|]; try done.
  - fold (url_of d). destruct (Hd d) as [k ->]; [set_solver|].
    apply IH; [|done|intros d' Hd'; apply Hd; set_solver].
    apply elem_of_cons in Hin as [Hin|Hin]; [|done].
    injection Hin as ->. by destruct (Hv d).
  - apply IH; [|done|intros d' Hd'; apply Hd; set_solver].
    apply elem_of_cons in Hin as [Hin|Hin]; [discriminate Hin|done].
Qed.

(** X9: [load_existing_urls] passes over the lines of the raw log that
    do not decode, but a line that decodes to something other than an
    object makes it raise [AttributeError]; [scrape_all] then raises too
    and leaves the log as it was, whatever the fetchers would find. *)
Theorem scrape_all_rejects_non_object_line
    (f1 f2 f3 : string -> list dict) (utcnow : nat -> string)
    (lines : list line) (v : pyval) :
  Some v ∈ lines ->
  (forall d, v ≠ VDict d) ->
  (forall d, Some (VDict d) ∈ lines -> is_Some (hash_key (url_of d))) ->
  Scraper.load_existing_urls (Some lines) = Raise AttributeError ∧
  Scraper.scrape_all f1 f2 f3 utcnow (Some lines) =
    (Raise AttributeError, Some lines).
Proof.
  intros Hin Hv Hd. split.
  - simpl. by eapply load_urls_loop_non_object.
  - unfold Scraper.scrape_all. simpl.
    by rewrite (load_urls_loop_non_object lines v ∅ Hin Hv Hd).
Qed.

Lemma dedup_loop_unhashable posts p : forall seen unique,
  p ∈ posts -> truthy (url_of p) = true -> hash_key (url_of p) = None ->
  Scraper.dedup_loop posts seen unique = Raise TypeError.
Proof.
  induction posts as [|x posts IH]; intros seen unique Hin Ht Hk; [inversion Hin|].
  cbn [Scraper.dedup_loop]. cbv zeta.
  apply elem_of_cons in Hin as [<-|Hin]; [by rewrite Ht, Hk|].
  destruct (truthy (url_of x)); [|by apply IH].
  destruct (hash_key (url_of x)) as [k|]; [|done].
  case_bool_decide; by apply IH.
Qed.

(** X19: a fetched post whose [url] is truthy but cannot be put into a
    set (a list or an object) makes [deduplicate_posts] raise
    [TypeError]; [scrape_all] then raises and leaves the raw log as it
    was, so the other posts of the run are not saved either. *)
Theorem scrape_all_raises_on_unhashable_url
    (f1 f2 f3 : string -> list dict) (utcnow : nat -> string)
    (data_file : file) (p : dict) :
  p ∈ Scraper.fetch_all f1 f2 f3 ->
  truthy (url_of p) = true ->
  hash_key (url_of p) = None ->
  Scraper.deduplicate_posts (Scraper.fetch_all f1 f2 f3) = Raise TypeError ∧
  exists e, Scraper.scrape_all f1 f2 f3 utcnow data_file = (Raise e, data_file).
Proof.
  intros Hin Ht Hk.
  assert (Hd : Scraper.deduplicate_posts (Scraper.fetch_all f1 f2 f3)
               = Raise TypeError)
    by (by eapply dedup_loop_unhashable).
  split; [done|]. unfold Scraper.scrape_all. rewrite Hd.
  destruct (Scraper.load_existing_urls data_file); eauto.
Qed.

(** ** Instances *)

(** A raw log whose second line is a number. *)
Lemma scrape_all_rejects_non_object_line_witness :
  Scraper.scrape_all Samples.reddit_search Samples.no_posts Samples.no_posts
                     Samples.clock
                     (Some [Some (VDict Samples.post_b); Some (VInt 7)]) =
  (Raise AttributeError, Some [Some (VDict Samples.post_b); Some (VInt 7)]).
Proof.
  apply (scrape_all_rejects_non_object_line _ _ _ _ _ (VInt 7)).
  - apply list_elem_of_further, list_elem_of_here.
  - discriminate.
  - intros d [Hd|Hd]%elem_of_cons.
    + injection Hd as ->. by eexists.
    + apply elem_of_cons in Hd as [Hd|Hd]; [discriminate Hd|inversion Hd].
Defined.

(** The Algolia search returns a hit whose [url] is a list. *)
Lemma scrape_all_raises_on_unhashable_url_witness :
  exists e,
    Scraper.scrape_all Samples.reddit_search Samples.no_posts
                       (fun _ => [Replies.post_list_url]) Samples.clock
                       Samples.raw_with_b = (Raise e, Samples.raw_with_b).
Proof.
  apply (scrape_all_raises_on_unhashable_url Samples.reddit_search
           Samples.no_posts (fun _ => [Replies.post_list_url]) Samples.clock
           Samples.raw_with_b Replies.post_list_url).
  - unfold Scraper.fetch_all. apply elem_of_app. right. apply elem_of_app. right.
    apply list_elem_of_here.
  - reflexivity.
  - reflexivity.
Defined.

End ScraperRun.

Module FetchSpec.

Import Fetch ListFacts.

(** ** Keywords and lowered text *)

Lemma lower_char_not_upper c : PyStr.is_upper (PyStr.lower_char c) = false.
Proof.
  destruct c as [[] [] [] [] [] [] [] []]; vm_compute; reflexivity.
Qed.

Lemma lower_has_no_upper s c :
  PyStr.is_upper c = true -> PyStr.has_char c (PyStr.lower s) = false.
Proof.
  intros Hc. induction s as [|c' s IH]; simpl; [done|].
  rewrite IH, orb_false_r. apply bool_decide_eq_false. intros ->.
  by rewrite lower_char_not_upper in Hc.
Qed.

Lemma prefix_has_char c needle : forall hay,
  String.prefix needle hay = true -> PyStr.has_char c needle = true ->
  PyStr.has_char c hay = true.
Proof.
  induction needle as [|n needle IH]; intros hay Hp Hc; simpl in *; [done|].
  destruct hay as [|h hay]; simpl in *; [done|].
  destruct (Ascii.ascii_dec n h) as [->|Hne]; [|done].
  apply orb_true_iff in Hc as [Hc|Hc]; apply orb_true_iff; [by left|right; eauto].
Qed.

Lemma contains_has_char c needle hay :
  PyStr.contains needle hay = true -> PyStr.has_char c needle = true ->
  PyStr.has_char c hay = true.
Proof.
  induction hay as [|h hay IH]; simpl; intros H Hc.
  - rewrite orb_false_r in H. by apply (prefix_has_char c needle "").
  - apply orb_true_iff in H as [H|H].
    + by apply (prefix_has_char c needle (String h hay)).
    + apply orb_true_iff. right. by apply IH.
Qed.

Lemma upper_keyword_never_matches kw c text :
  PyStr.has_char c kw = true -> PyStr.is_upper c = true ->
  PyStr.contains kw (PyStr.lower text) = false.
Proof.
  intros Hkw Hc. destruct (PyStr.contains kw (PyStr.lower text)) eqn:H; [|done].
  pose proof (contains_has_char c _ _ H Hkw) as Hin.
  by rewrite lower_has_no_upper in Hin.
Qed.

(** X1: [has_aha_signal] lowers the text before it looks for the
    keywords, so the two keywords written with a capital I can never be
    found: the signal is decided by the sixteen other keywords alone. *)
Theorem has_aha_signal_ignores_capital_keywords (text : string) :
  has_aha_signal text = any_in lowercase_keywords (PyStr.lower text) ∧
  filter (fun kw => kw ∉ lowercase_keywords) AHA_KEYWORDS =
    ["now I understand"; "changed how I"] ∧
  PyStr.contains "now I understand" (PyStr.lower text) = false ∧
  PyStr.contains "changed how I" (PyStr.lower text) = false.
Proof.
  assert (H1 : PyStr.contains "now I understand" (PyStr.lower text) = false).
  { apply (upper_keyword_never_matches _ "I"%char); by vm_compute. }
  assert (H2 : PyStr.contains "changed how I" (PyStr.lower text) = false).
  { apply (upper_keyword_never_matches _ "I"%char); by vm_compute. }
  split_and!; [|by vm_compute|done|done].
  assert (Hl : lowercase_keywords =
    ["aha moment"; "finally clicked"; "finally understood"; "mind blown";
     "game changer"; "changed everything"; "holy shit"; "blew my mind";
     "lightbulb moment"; "eureka"; "finally get it"; "never going back";
     "completely changed"; "revelation"; "breakthrough"; "wow moment"])
    by (by vm_compute).
  rewrite Hl. unfold has_aha_signal, any_in, AHA_KEYWORDS.
  cbn [existsb]. rewrite H1, H2. cbn [orb]. reflexivity.
Qed.

(** ** [extract_ai_tool] *)

Lemma first_tool_spec mapping text_lower :
  (no_match mapping text_lower ∧ first_tool mapping text_lower = "General") ∨
  exists skipped kws name rest,
    mapping = skipped ++ (kws, name) :: rest ∧
    no_match skipped text_lower ∧
    any_in kws text_lower = true ∧
    first_tool mapping text_lower = name.
Proof.
  induction mapping as [|[kws name] mapping IH]; simpl.
  - left. split; [constructor|done].
  - destruct (any_in kws text_lower) eqn:Hk.
    + right. exists [], kws, name, mapping. split_and!; try done. constructor.
    + destruct IH as [[Hno Hg]|(skipped & kws' & name' & rest & -> & Hno & Hk' & Hf)].
      * left. split; [|done]. by constructor.
      * right. exists ((kws, name) :: skipped), kws', name', rest.
        split_and!; try done. by constructor.
Qed.

(** X2: [extract_ai_tool] returns the name of the first group of
    [tool_mapping] one of whose keywords occurs in the lowered text, and
    [General] exactly when no keyword of any group occurs. *)
Theorem extract_ai_tool_first_match (text : string) :
  (no_match tool_mapping (PyStr.lower text) ∧ extract_ai_tool text = "General") ∨
  exists skipped kws name rest,
    tool_mapping = skipped ++ (kws, name) :: rest ∧
    no_match skipped (PyStr.lower text) ∧
    any_in kws (PyStr.lower text) = true ∧
    extract_ai_tool text = name ∧
    name ≠ "General".
Proof.
  destruct (first_tool_spec tool_mapping (PyStr.lower text))
    as [H|(skipped & kws & name & rest & Hm & Hno & Hk & Hf)]; [by left|].
  right. exists skipped, kws, name, rest. split_and!; try done.
  assert (Hin : (kws, name) ∈ tool_mapping) by (rewrite Hm; set_solver).
  intros ->. revert Hin. unfold tool_mapping. rewrite !elem_of_cons, elem_of_nil.
  intros H. repeat destruct H as [H|H]; try discriminate H. done.
Qed.

(** X3: the two vocabularies do not agree.  A text that
    [has_ai_mention] rejects is labelled [General], or [Gemini] on the
    strength of the keyword [bard], which [AI_TOOLS] lacks; a text it
    accepts and that is labelled [General] contains one of the three
    generic terms. *)
Theorem has_ai_mention_and_tool_label (text : string) :
  (has_ai_mention text = true ∨ extract_ai_tool text = "General" ∨
   (extract_ai_tool text = "Gemini" ∧
    PyStr.contains "bard" (PyStr.lower text) = true)) ∧
  (has_ai_mention text = false ∨ extract_ai_tool text ≠ "General" ∨
   any_in ["llm"; "ai assistant"; "ai tool"] (PyStr.lower text) = true).
Proof.
  assert (Hnone : no_match tool_mapping (PyStr.lower text) ->
            PyStr.contains "claude" (PyStr.lower text) = false ∧
            PyStr.contains "anthropic" (PyStr.lower text) = false ∧
            PyStr.contains "chatgpt" (PyStr.lower text) = false ∧
            PyStr.contains "gpt-4" (PyStr.lower text) = false ∧
            PyStr.contains "gpt4" (PyStr.lower text) = false ∧
            PyStr.contains "openai" (PyStr.lower text) = false ∧
            PyStr.contains "gemini" (PyStr.lower text) = false ∧
            PyStr.contains "grok" (PyStr.lower text) = false ∧
            PyStr.contains "perplexity" (PyStr.lower text) = false ∧
            PyStr.contains "copilot" (PyStr.lower text) = false ∧
            PyStr.contains "cursor" (PyStr.lower text) = false).
  { unfold no_match, tool_mapping, any_in. rewrite !Forall_cons. cbn [fst existsb].
    rewrite !orb_false_iff. tauto. }
  unfold has_ai_mention, extract_ai_tool.
  set (l := PyStr.lower text) in *.
  destruct (any_in AI_TOOLS l) eqn:Hm.
  - split; [by left|]. right.
    destruct (first_tool_spec tool_mapping l)
      as [[Hno Hg]|(skipped & kws & name & rest & Hmap & _ & _ & Hf)].
    + right. destruct (Hnone Hno) as (H1 & H2 & H3 & H4 & H5 & H6 & H7 & H8 & H9 & H10 & H11).
      unfold any_in, AI_TOOLS in Hm. cbn [existsb] in Hm.
      rewrite H1, H2, H3, H4, H5, H6, H7, H8, H9, H10, H11 in Hm. cbn [orb] in Hm.
      unfold any_in. cbn [existsb]. exact Hm.
    + left. rewrite Hf. intros ->.
      assert (Hin : (kws, "General") ∈ tool_mapping) by (rewrite Hmap; set_solver).
      revert Hin. unfold tool_mapping. rewrite !elem_of_cons, elem_of_nil.
      intros H. repeat destruct H as [H|H]; try discriminate H. done.
  - split; [|by left]. right.
    unfold any_in, AI_TOOLS in Hm. cbn [existsb] in Hm.
    rewrite !orb_false_iff in Hm.
    destruct Hm as (H1 & H2 & H3 & H4 & H5 & H6 & H7 & H8 & H9 & H10 & H11 & _).
    unfold tool_mapping. cbn [first_tool]. unfold any_in. cbn [existsb].
    rewrite H1, H2, H3, H4, H5, H6, H7, H8, H9, H10, H11. cbn [orb].
    rewrite orb_false_r.
    destruct (PyStr.contains "bard" l); [by right|by left].
Qed.

(** ** The fetchers *)

Lemma collect_Forall (P : dict -> Prop) build rs : forall posts,
  (forall r p, build r = Ok (Some p) -> P p) ->
  Forall P posts -> Forall P (collect build rs posts).
Proof.
  induction rs as [|r rs IH]; intros posts Hb Hp; simpl; [done|].
  destruct (build r) as [[p|]|] eqn:Hr; [|by apply IH|done].
  apply IH; [done|]. apply Forall_app_2; [done|].
  apply Forall_cons_2; [by eapply Hb|apply Forall_nil_2].
Qed.

Lemma collect_elem build rs p : forall posts,
  p ∈ collect build rs posts ->
  p ∈ posts ∨ exists r, r ∈ rs ∧ build r = Ok (Some p).
Proof.
  induction rs as [|r rs IH]; intros posts Hp; simpl in Hp; [by left|].
  destruct (build r) as [[q|]|] eqn:Hr; [| |by left].
  - apply IH in Hp as [Hp|(r' & Hr' & Hb)].
    + apply elem_of_app in Hp as [Hp|Hp]; [by left|].
      apply list_elem_of_singleton in Hp as ->. right. exists r.
      split; [apply list_elem_of_here|done].
    + right. exists r'. split; [by apply list_elem_of_further|done].
  - apply IH in Hp as [Hp|(r' & Hr' & Hb)]; [by left|].
    right. exists r'. split; [by apply list_elem_of_further|done].
Qed.

Lemma collect_stops build good bad e rest : forall posts,
  build bad = Raise e ->
  collect build (good ++ bad :: rest) posts = collect build good posts.
Proof.
  induction good as [|r good IH]; intros posts Hbad; simpl.
  - by rewrite Hbad.
  - destruct (build r) as [[p|]|]; [by apply IH|by apply IH|done].
Qed.

Lemma collect_all_ok build good : forall posts,
  Forall (fun r => exists o, build r = Ok o) good ->
  collect build good posts = posts ++ omap (built build) good.
Proof.
  induction good as [|r good IH]; intros posts Hgood; csimpl.
  - by rewrite app_nil_r.
  - apply Forall_cons in Hgood as [[o Ho] Hgood]. unfold built at 1.
    rewrite Ho. destruct o as [p|]; rewrite IH by done; [|done].
    by rewrite <- app_assoc.
Qed.

Lemma collect_good build good :
  Forall (fun r => exists o, build r = Ok o) good ->
  collect build good [] = omap (built build) good.
Proof. intros H. by rewrite collect_all_ok. Qed.

Lemma Forall_concat_map {A B} (P : B -> Prop) (f : A -> list B) l :
  (forall x, Forall P (f x)) -> Forall P (concat (map f l)).
Proof.
  intros Hf. induction l as [|x l IH]; simpl; [apply Forall_nil_2|].
  by apply Forall_app_2.
Qed.

Section FetchersSpec.

Variable http : string -> outcome pyval.
Variable py_str : pyval -> string.

Lemma fetch_with_Forall (P : dict -> Prop) url records_of build :
  (forall r p, build r = Ok (Some p) -> P p) ->
  Forall P (fetch_with http url records_of build).
Proof.
  intros Hb. unfold fetch_with.
  destruct (http url) as [data|]; [|apply Forall_nil_2].
  destruct (records_of data) as [rs|]; [|apply Forall_nil_2].
  apply collect_Forall; [done|apply Forall_nil_2].
Qed.

Lemma fetch_with_elem url records_of build p :
  p ∈ fetch_with http url records_of build ->
  exists data records r,
    http url = Ok data ∧ records_of data = Ok records ∧ r ∈ records ∧
    build r = Ok (Some p).
Proof.
  unfold fetch_with.
  destruct (http url) as [data|]; [|intros H; inversion H].
  destruct (records_of data) as [rs|] eqn:Hrs; [|intros H; inversion H].
  intros [Hp|(r & Hr & Hb)]%collect_elem; [inversion Hp|].
  by exists data, rs, r.
Qed.

Ltac bind_ok H :=
  repeat match type of H with
  | context [obind ?o _] =>
      let v := fresh "v" in let E := fresh "E" in
      destruct o as [v|] eqn:E; cbn [obind] in H; [|discriminate H]
  end.

Ltac look := rewrite ?lookup_insert_ne by done; by rewrite lookup_insert_eq.

Lemma site_url_nonempty s : "https://reddit.com" +:+ s ≠ "".
Proof. discriminate. Qed.

Lemma reddit_listing_post_spec subreddit child p :
  reddit_listing_post py_str subreddit child = Ok (Some p) ->
  Scraper.fetched p ∧
  p !! "subreddit" = Some (VStr subreddit) ∧
  exists title selftext text,
    p !! "title" = Some title ∧
    excerpt 2000 selftext = Ok text ∧ p !! "text" = Some text ∧
    has_aha_signal (full_text_of py_str title selftext) = true ∧
    tagged "Reddit" (full_text_of py_str title selftext) p.
Proof.
  unfold reddit_listing_post. intros H.
  destruct (get_of child "data" (VDict ∅)) as [post|] eqn:Hpost;
    cbn [obind] in H; [|discriminate H].
  destruct (get_of post "title" (VStr "")) as [title|] eqn:Htitle;
    cbn [obind] in H; [|discriminate H].
  destruct (get_of post "selftext" (VStr "")) as [selftext|] eqn:Hself;
    cbn [obind] in H; [|discriminate H].
  cbv zeta in H.
  destruct (has_aha_signal _) eqn:Haha; cbn [andb] in H; [|discriminate H].
  destruct (has_ai_mention _) eqn:Hai; [|discriminate H].
  bind_ok H. injection H as <-.
  split_and!.
  - eexists. split; [|apply site_url_nonempty].
    rewrite !lookup_insert_ne by done. by rewrite lookup_insert_eq.
  - rewrite !lookup_insert_ne by done. by rewrite lookup_insert_eq.
  - exists title, selftext, v. unfold tagged. split_and!; first [done|look].
Qed.

Lemma reddit_search_post_spec child p :
  reddit_search_post py_str child = Ok (Some p) ->
  Scraper.fetched p ∧
  exists title selftext text,
    p !! "title" = Some title ∧
    excerpt 2000 selftext = Ok text ∧ p !! "text" = Some text ∧
    tagged "Reddit" (full_text_of py_str title selftext) p.
Proof.
  unfold reddit_search_post. intros H.
  destruct (get_of child "data" (VDict ∅)) as [post|] eqn:Hpost;
    cbn [obind] in H; [|discriminate H].
  destruct (get_of post "title" (VStr "")) as [title|] eqn:Htitle;
    cbn [obind] in H; [|discriminate H].
  destruct (get_of post "selftext" (VStr "")) as [selftext|] eqn:Hself;
    cbn [obind] in H; [|discriminate H].
  cbv zeta in H.
  destruct (has_ai_mention _) eqn:Hai; [|discriminate H].
  destruct (get_of post "subreddit" (VStr "")) as [subreddit|] eqn:Hsub;
    cbn [obind] in H; [|discriminate H].
  destruct (excerpt 2000 selftext) as [text|] eqn:Htext;
    cbn [obind] in H; [|discriminate H].
  bind_ok H. injection H as <-.
  split.
  - eexists. split; [|apply site_url_nonempty].
    rewrite !lookup_insert_ne by done. by rewrite lookup_insert_eq.
  - exists title, selftext, text. unfold tagged. split_and!; first [done|look].
Qed.

Lemma hn_item_url_truthy id : truthy (VStr (hn_item_url py_str id)) = true.
Proof. done. Qed.

Lemma hn_search_post_spec hit p :
  hn_search_post py_str hit = Ok (Some p) ->
  Scraper.has_url p ∧
  exists object_id title story,
    p !! "hn_url" = Some (VStr (hn_item_url py_str object_id)) ∧
    (p !! "url" = Some (VStr (hn_item_url py_str object_id)) ∨
     exists u, get_of hit "url" VNone = Ok u ∧ truthy u = true ∧
               p !! "url" = Some u) ∧
    p !! "title" = Some title ∧
    tagged "HackerNews" (full_text_of py_str title story) p.
Proof.
  unfold hn_search_post. intros H.
  destruct (get_of hit "title" (VStr "")) as [title|] eqn:Htitle;
    cbn [obind] in H; [|discriminate H].
  destruct (get_of hit "story_text" (VStr "")) as [story|] eqn:Hstory;
    cbn [obind] in H; [|discriminate H].
  cbv zeta in H.
  destruct (has_ai_mention _) eqn:Hai; [|discriminate H].
  destruct (excerpt 2000 (py_or story (VStr ""))) as [text|] eqn:Htext;
    cbn [obind] in H; [|discriminate H].
  destruct (get_of hit "url" VNone) as [url|] eqn:Hurl;
    cbn [obind] in H; [|discriminate H].
  destruct (get_of hit "objectID" VNone) as [object_id|] eqn:Hid;
    cbn [obind] in H; [|discriminate H].
  bind_ok H. injection H as <-.
  split.
  - eexists. split.
    + rewrite !lookup_insert_ne by done. by rewrite lookup_insert_eq.
    + unfold py_or. by destruct (truthy url) eqn:Ht.
  - exists object_id, title, (py_or story (VStr "")). unfold tagged.
    split_and!; try first [done|look].
    rewrite !lookup_insert_ne by done. rewrite lookup_insert_eq.
    unfold py_or. destruct (truthy url) eqn:Ht; [right|by left].
    by exists url.
Qed.

Lemma reddit_listing_post_fields subreddit child p :
  reddit_listing_post py_str subreddit child = Ok (Some p) ->
  exists (c d : dict) text,
    child = VDict c ∧ get c "data" (VDict ∅) = VDict d ∧
    let title := get d "title" (VStr "") in
    let selftext := get d "selftext" (VStr "") in
    let full_text := full_text_of py_str title selftext in
    p !! "url" = Some (VStr ("https://reddit.com"
                             +:+ py_str (get d "permalink" (VStr "")))) ∧
    p !! "subreddit" = Some (VStr subreddit) ∧
    p !! "title" = Some title ∧
    excerpt 2000 selftext = Ok text ∧ p !! "text" = Some text ∧
    has_aha_signal full_text = true ∧
    tagged "Reddit" full_text p.
Proof.
  unfold reddit_listing_post. intros H.
  destruct child as [| | | | |c]; try discriminate H. cbn [get_of obind] in H.
  destruct (get c "data" (VDict ∅)) as [| | | | |d] eqn:Hd; try discriminate H.
  cbn [get_of obind] in H. cbv zeta in H.
  destruct (has_aha_signal _) eqn:Haha; cbn [andb] in H; [|discriminate H].
  destruct (has_ai_mention _) eqn:Hai; [|discriminate H].
  destruct (excerpt 2000 _) as [text|] eqn:Htext; cbn [obind] in H;
    [|discriminate H].
  injection H as <-. exists c, d, text. cbv zeta. unfold tagged.
  split_and!; first [done|look].
Qed.

Lemma reddit_search_post_fields child p :
  reddit_search_post py_str child = Ok (Some p) ->
  exists (c d : dict) text,
    child = VDict c ∧ get c "data" (VDict ∅) = VDict d ∧
    let title := get d "title" (VStr "") in
    let selftext := get d "selftext" (VStr "") in
    let full_text := full_text_of py_str title selftext in
    p !! "url" = Some (VStr ("https://reddit.com"
                             +:+ py_str (get d "permalink" (VStr "")))) ∧
    p !! "subreddit" = Some (get d "subreddit" (VStr "")) ∧
    p !! "title" = Some title ∧
    excerpt 2000 selftext = Ok text ∧ p !! "text" = Some text ∧
    tagged "Reddit" full_text p.
Proof.
  unfold reddit_search_post. intros H.
  destruct child as [| | | | |c]; try discriminate H. cbn [get_of obind] in H.
  destruct (get c "data" (VDict ∅)) as [| | | | |d] eqn:Hd; try discriminate H.
  cbn [get_of obind] in H. cbv zeta in H.
  destruct (has_ai_mention _) eqn:Hai; [|discriminate H].
  destruct (excerpt 2000 _) as [text|] eqn:Htext; cbn [obind] in H;
    [|discriminate H].
  injection H as <-. exists c, d, text. cbv zeta. unfold tagged.
  split_and!; first [done|look].
Qed.

Lemma hn_search_post_fields hit p :
  hn_search_post py_str hit = Ok (Some p) ->
  exists (h : dict) text,
    hit = VDict h ∧
    let title := get h "title" (VStr "") in
    let story := py_or (get h "story_text" (VStr "")) (VStr "") in
    let item_url := VStr (hn_item_url py_str (get_none h "objectID")) in
    p !! "hn_url" = Some item_url ∧
    p !! "url" = Some (if truthy (get_none h "url") then get_none h "url"
                       else item_url) ∧
    p !! "title" = Some title ∧
    excerpt 2000 story = Ok text ∧ p !! "text" = Some text ∧
    tagged "HackerNews" (full_text_of py_str title story) p.
Proof.
  unfold hn_search_post. intros H.
  destruct hit as [| | | | |h]; try discriminate H.
  cbn [get_of obind] in H. cbv zeta in H.
  destruct (has_ai_mention _) eqn:Hai; [|discriminate H].
  destruct (excerpt 2000 _) as [text|] eqn:Htext; cbn [obind] in H;
    [|discriminate H].
  injection H as <-. exists h, text. cbv zeta. unfold tagged.
  split_and!; first [done|look].
Qed.

(** X4: every post [fetch_reddit_posts] returns is built from a child
    of the listing the site answered with: its URL is the address of the
    site followed by the permalink of the child, it carries the
    subreddit asked for, the title of the child and its body cut to 2000
    characters; title and body passed both filters, and the tool label is
    the one [extract_ai_tool] gives for them. *)
Theorem fetch_reddit_posts_candidates (subreddit : string) (limit : nat)
    (p : dict) :
  p ∈ fetch_reddit_posts http py_str subreddit limit ->
  exists data children (c d : dict) text,
    http ("https://www.reddit.com/r/" +:+ subreddit
          +:+ "/new.json?limit=" +:+ pretty limit) = Ok data ∧
    reddit_children data = Ok children ∧
    VDict c ∈ children ∧ get c "data" (VDict ∅) = VDict d ∧
    let title := get d "title" (VStr "") in
    let selftext := get d "selftext" (VStr "") in
    let full_text := full_text_of py_str title selftext in
    Scraper.fetched p ∧
    p !! "url" = Some (VStr ("https://reddit.com"
                             +:+ py_str (get d "permalink" (VStr "")))) ∧
    p !! "subreddit" = Some (VStr subreddit) ∧
    p !! "title" = Some title ∧
    excerpt 2000 selftext = Ok text ∧ p !! "text" = Some text ∧
    has_aha_signal full_text = true ∧
    tagged "Reddit" full_text p.
Proof.
  intros Hp. unfold fetch_reddit_posts in Hp.
  apply fetch_with_elem in Hp as (data & children & child & Hd & Hc & Hin & Hb).
  pose proof (reddit_listing_post_spec _ _ _ Hb) as [Hf _].
  apply reddit_listing_post_fields in Hb
    as (c & d & text & -> & Hdata & Hrest).
  exists data, children, c, d, text. cbv zeta in *.
  destruct Hrest as (? & ? & ? & ? & ? & ? & ?). split_and!; done.
Qed.

(** X5: every post [fetch_reddit_search] returns is built from a child
    of the result the site answered with: its URL is the address of the
    site followed by the permalink of the child, and it carries the
    subreddit, the title and the cut body of the child; title and body
    mention an AI tool, and no aha keyword is asked for. *)
Theorem fetch_reddit_search_candidates (query : string) (limit : nat)
    (p : dict) :
  p ∈ fetch_reddit_search http py_str query limit ->
  exists data children (c d : dict) text,
    http ("https://www.reddit.com/search.json?q=" +:+ query
          +:+ "&sort=relevance&limit=" +:+ pretty limit) = Ok data ∧
    reddit_children data = Ok children ∧
    VDict c ∈ children ∧ get c "data" (VDict ∅) = VDict d ∧
    let title := get d "title" (VStr "") in
    let selftext := get d "selftext" (VStr "") in
    let full_text := full_text_of py_str title selftext in
    Scraper.fetched p ∧
    p !! "url" = Some (VStr ("https://reddit.com"
                             +:+ py_str (get d "permalink" (VStr "")))) ∧
    p !! "subreddit" = Some (get d "subreddit" (VStr "")) ∧
    p !! "title" = Some title ∧
    excerpt 2000 selftext = Ok text ∧ p !! "text" = Some text ∧
    tagged "Reddit" full_text p.
Proof.
  intros Hp. unfold fetch_reddit_search in Hp.
  apply fetch_with_elem in Hp as (data & children & child & Hd & Hc & Hin & Hb).
  pose proof (reddit_search_post_spec _ _ Hb) as [Hf _].
  apply reddit_search_post_fields in Hb
    as (c & d & text & -> & Hdata & Hrest).
  exists data, children, c, d, text. cbv zeta in *.
  destruct Hrest as (? & ? & ? & ? & ? & ?). split_and!; done.
Qed.

(** X6: every post [fetch_hn_search_algolia] returns is built from a
    hit of the answer: its [hn_url] is the address of the item on the
    site, made from the [objectID] of the hit; its [url] is the [url] of
    the hit when that is truthy and the address of the item otherwise,
    so it is always truthy; title and story text mention an AI tool. *)
Theorem fetch_hn_search_algolia_candidates (query : string) (limit : nat)
    (p : dict) :
  p ∈ fetch_hn_search_algolia http py_str query limit ->
  exists (answer h : dict) hits text,
    http ("https://hn.algolia.com/api/v1/search?query=" +:+ query
          +:+ "&tags=story&hitsPerPage=" +:+ pretty limit) = Ok (VDict answer) ∧
    GenerateHtml.iterate (get answer "hits" (VList [])) = Ok hits ∧
    VDict h ∈ hits ∧
    let title := get h "title" (VStr "") in
    let story := py_or (get h "story_text" (VStr "")) (VStr "") in
    let item_url := VStr (hn_item_url py_str (get_none h "objectID")) in
    Scraper.has_url p ∧
    p !! "hn_url" = Some item_url ∧
    p !! "url" = Some (if truthy (get_none h "url") then get_none h "url"
                       else item_url) ∧
    p !! "title" = Some title ∧
    excerpt 2000 story = Ok text ∧ p !! "text" = Some text ∧
    tagged "HackerNews" (full_text_of py_str title story) p.
Proof.
  intros Hp. unfold fetch_hn_search_algolia in Hp.
  apply fetch_with_elem in Hp as (data & hits & hit & Hd & Hh & Hin & Hb).
  pose proof (hn_search_post_spec _ _ Hb) as [Hu _].
  apply hn_search_post_fields in Hb as (h & text & -> & Hrest).
  destruct data as [| | | | |answer]; try discriminate Hh.
  cbn [get_of obind] in Hh.
  exists answer, h, hits, text. cbv zeta in *.
  destruct Hrest as (? & ? & ? & ? & ? & ?). split_and!; done.
Qed.

(** X7: a fetcher returns the posts its loop body builds from the
    records of the answer, in their order, up to the first record on
    which the body raises; the records after that one are not looked
    at. *)
Theorem fetch_with_until_exception (url : string)
    (records_of : pyval -> outcome (list pyval))
    (build : pyval -> outcome (option dict))
    (data : pyval) (good tail : list pyval) :
  http url = Ok data ->
  records_of data = Ok (good ++ tail) ->
  Forall (fun r => exists o, build r = Ok o) good ->
  match tail with [] => True | bad :: _ => exists e, build bad = Raise e end ->
  fetch_with http url records_of build = omap (built build) good.
Proof.
  intros Hh Hr Hgood Htail. unfold fetch_with. rewrite Hh, Hr.
  assert (Hcut : collect build (good ++ tail) [] = collect build good []).
  { destruct tail as [|bad rest]; [by rewrite app_nil_r|].
    destruct Htail as [e He]. by eapply collect_stops. }
  rewrite Hcut. by apply collect_good.
Qed.
(** ** [scrape_all] over the fetchers *)

(** X8: on a raw log that can be read, and when the URLs of the
    Hacker News hits can be put into a set, [scrape_all] over the three
    fetchers returns: what it returns and appends to the log are fetched
    posts, in the order they were fetched, each with the reading of the
    clock added as [scraped_at]; every fetched URL that the log lacked is
    among them, and none that the log had. *)
Theorem scrape_all_appends_every_new_url (utcnow : nat -> string)
    (data_file : file) :
  Scraper.loadable data_file ->
  (forall q p, p ∈ fetch_hn_search_algolia http py_str q 50 ->
     Scraper.url_hashable p) ->
  let fetched :=
    Scraper.fetch_all (fun q => fetch_reddit_search http py_str q 50)
                      (fun s => fetch_reddit_posts http py_str s 50)
                      (fun q => fetch_hn_search_algolia http py_str q 50) in
  exists added,
    scrape_all http py_str utcnow data_file =
      (Ok (Scraper.stamp utcnow 0 added),
       match added with
       | [] => data_file
       | _ :: _ => append_records data_file (Scraper.stamp utcnow 0 added)
       end) ∧
    sublist added fetched ∧
    (forall p k, p ∈ fetched -> carries k p -> k ∉ log_keys data_file ->
       exists q, q ∈ added ∧ carries k q) ∧
    (forall q, q ∈ added -> exists k, carries k q ∧ k ∉ log_keys data_file).
Proof.
  intros Hload Hhn fetched. apply ScraperRun.scrape_all_complete; [done|].
  unfold Scraper.fetch_all. apply Forall_app_2; [|apply Forall_app_2].
  - apply Forall_concat_map. intros q. unfold fetch_reddit_search.
    apply fetch_with_Forall. intros r p Hr.
    apply ScraperSpec.fetched_hashable. by apply reddit_search_post_spec in Hr as [? _].
  - apply Forall_concat_map. intros q. unfold fetch_reddit_posts.
    apply fetch_with_Forall. intros r p Hr.
    apply ScraperSpec.fetched_hashable.
    by apply reddit_listing_post_spec in Hr as [? _].
  - apply Forall_concat_map. intros q. apply Forall_forall. apply Hhn.
Qed.

End FetchersSpec.

(** A log line that decodes to something other than an object. *)
(** ** Instances *)

Lemma sample_fetch_reddit_posts :
  fetch_reddit_posts Network.http Network.str_of "ClaudeAI" 50 =
    [Network.reddit_post].
Proof. vm_compute. exact eq_refl. Qed.

Lemma sample_fetch_reddit_search :
  fetch_reddit_search Network.http Network.str_of "aha moment AI" 50 =
    [Network.reddit_post].
Proof. vm_compute. exact eq_refl. Qed.

Lemma sample_fetch_hn :
  fetch_hn_search_algolia Network.http Network.str_of "ChatGPT workflow" 50
    !! 1%nat = Some Network.hn_post.
Proof. vm_compute. exact eq_refl. Qed.

(** The one post the sample subreddit yields. *)
Lemma fetch_reddit_posts_candidates_witness :
  Network.reddit_post ∈
    fetch_reddit_posts Network.http Network.str_of "ClaudeAI" 50 ∧
  Scraper.fetched Network.reddit_post.
Proof.
  assert (H : Network.reddit_post ∈
                fetch_reddit_posts Network.http Network.str_of "ClaudeAI" 50).
  { rewrite sample_fetch_reddit_posts. apply list_elem_of_here. }
  split; [exact H|].
  destruct (fetch_reddit_posts_candidates _ _ _ _ _ H)
    as (data & children & c & d & text & _ & _ & _ & _ & Hf & _).
  exact Hf.
Defined.

Lemma fetch_reddit_search_candidates_witness :
  Network.reddit_post ∈
    fetch_reddit_search Network.http Network.str_of "aha moment AI" 50 ∧
  Scraper.fetched Network.reddit_post.
Proof.
  assert (H : Network.reddit_post ∈
                fetch_reddit_search Network.http Network.str_of
                                    "aha moment AI" 50).
  { rewrite sample_fetch_reddit_search. apply list_elem_of_here. }
  split; [exact H|].
  destruct (fetch_reddit_search_candidates _ _ _ _ _ H)
    as (data & children & c & d & text & _ & _ & _ & _ & Hf & _).
  exact Hf.
Defined.

(** The hit without a URL gets the address of its item. *)
Lemma fetch_hn_search_algolia_candidates_witness :
  Network.hn_post ∈
    fetch_hn_search_algolia Network.http Network.str_of
                            "ChatGPT workflow" 50 ∧
  Scraper.has_url Network.hn_post.
Proof.
  assert (H : Network.hn_post ∈
                fetch_hn_search_algolia Network.http Network.str_of
                                        "ChatGPT workflow" 50).
  { eapply list_elem_of_lookup_2. exact sample_fetch_hn. }
  split; [exact H|].
  destruct (fetch_hn_search_algolia_candidates _ _ _ _ _ H)
    as (answer & h & hits & text & _ & _ & _ & Hu & _).
  exact Hu.
Defined.

(** The listing whose third child is a number: the fourth child is lost. *)
Lemma fetch_with_until_exception_witness :
  fetch_with Network.http "https://www.reddit.com/search.json?q=x"
             reddit_children (reddit_search_post Network.str_of) =
  omap (built (reddit_search_post Network.str_of))
       [Network.child_off_topic; Network.child_claude].
Proof.
  apply (fetch_with_until_exception Network.http _ reddit_children
           (reddit_search_post Network.str_of) Network.listing
           [Network.child_off_topic; Network.child_claude]
           [Network.child_broken; Network.child_claude]).
  - vm_compute. reflexivity.
  - vm_compute. reflexivity.
  - apply Forall_cons_2; [eexists; vm_compute; exact eq_refl|].
    apply Forall_cons_2; [eexists; vm_compute; exact eq_refl|].
    apply Forall_nil_2.
  - eexists. vm_compute. reflexivity.
Defined.

Lemma sample_hn_hashable q p :
  p ∈ fetch_hn_search_algolia Network.http Network.str_of q 50 ->
  Scraper.url_hashable p.
Proof.
  unfold fetch_hn_search_algolia, fetch_with, Network.http.
  set (records_of := fun data =>
         let! hits := get_of data "hits" (VList []) in GenerateHtml.iterate hits).
  assert (Hnone : match records_of Network.listing with
                  | Ok records =>
                      collect (hn_search_post Network.str_of) records []
                  | Raise _ => []
                  end = []) by (vm_compute; reflexivity).
  assert (Hall : forallb (fun p => bool_decide (is_Some (hash_key (url_of p))))
            (match records_of Network.hits with
             | Ok records => collect (hn_search_post Network.str_of) records []
             | Raise _ => []
             end) = true) by (vm_compute; reflexivity).
  unfold records_of in Hnone, Hall. cbv beta in Hnone, Hall.
  destruct (PyStr.contains "reddit.com" _).
  - cbv beta iota. rewrite Hnone. intros H. inversion H.
  - cbv beta iota. intros Hp _. rewrite forallb_forall in Hall.
    apply list_elem_of_In in Hp. apply Hall in Hp.
    by apply bool_decide_eq_true in Hp.
Qed.

(** A run on the sample network over a log that holds one other post. *)
Lemma scrape_all_appends_every_new_url_witness :
  Scraper.loadable Samples.raw_with_b ∧
  exists added,
    (scrape_all Network.http Network.str_of Samples.clock
                Samples.raw_with_b).1 =
    Ok (Scraper.stamp Samples.clock 0 added).
Proof.
  assert (H : Scraper.loadable Samples.raw_with_b).
  { apply Forall_cons_2; [by eexists|apply Forall_nil_2]. }
  split; [exact H|].
  destruct (scrape_all_appends_every_new_url Network.http Network.str_of
              Samples.clock Samples.raw_with_b H sample_hn_hashable)
    as (added & Hrun & _).
  exists added. by rewrite Hrun.
Defined.

End FetchSpec.

(** * Further properties of the Classifier *)

Module ClassifyRun.

Import Classify ListFacts ClassifySpec.
Local Open Scope classify_scope.

Section Run.

Variable json_loads : string -> option pyval.
Variable ask : nat -> prompt -> reply.
Variable utcnow : nat -> string.
Variable min_confidence min_score : Z.

Local Abbreviation item :=
  (classify_item json_loads ask utcnow min_confidence min_score).
Local Abbreviation loop :=
  (classify_loop json_loads ask utcnow min_confidence min_score).
Local Abbreviation run :=
  (classify_all json_loads ask utcnow min_confidence min_score).

(** What a run returns is what its trace appends to the final log. *)
Lemma classify_all_result w :
  exists res evs, runs run w res evs ∧
    final_writes evs = match res with Ok out => out | Raise _ => [] end.
Proof.
  unfold classify_all, runs. cbv beta.
  destruct (raw_file w) as [raw_lines|] eqn:Hraw.
  2:{ eexists (Ok []), _. split; [apply runs_fun; run_m|done]. }
  destruct (posts_to_classify w) as [posts|e] eqn:Hposts.
  2:{ eexists (Raise e), _. split; [apply runs_fun; run_m|done]. }
  destruct (decide (posts = [])) as [->|Hne].
  { eexists (Ok []), _. split; [apply runs_fun; run_m|done]. }
  assert (Hmatch : forall (A B : M (list dict)),
            match posts with [] => A | _ :: _ => B end = B)
    by (intros; by destruct posts).
  rewrite bind_lift_ok. cbv beta. rewrite Hmatch. clear Hmatch.
  destruct (classify_loop_runs json_loads ask utcnow min_confidence min_score
              (length posts) posts 0%nat []
              (extend w [EClassifying (length posts)]))
    as (res & levs & news & Hloop & Hok & Hvm).
  destruct Hok as (Hfl & _).
  destruct res as [vm|e].
  2:{ eexists (Raise e), _. split; [apply runs_fun; run_m|].
      rewrite final_writes_app, Hfl. done. }
  destruct vm as [|m vm].
  { eexists (Ok []), _. split.
    - apply runs_fun.
      eapply runs_bind; [by apply runs_emit|].
      eapply runs_bind; [exact Hloop|]. apply runs_ret.
    - rewrite !final_writes_app, Hfl. done. }
  eexists (Ok (m :: vm)), _. split.
  - apply runs_fun.
    eapply runs_bind; [by apply runs_emit|].
    eapply runs_bind; [exact Hloop|]. cbv beta iota.
    eapply runs_bind; [by apply runs_append_final|].
    eapply runs_bind; [by apply runs_emit|]. apply runs_ret.
  - rewrite !final_writes_app, Hfl, final_writes_map. cbn [final_writes omap app].
    by rewrite !app_nil_r.
Qed.

(** X10: the moments a run of [classify_all] returns are exactly the
    records it appends to the final log, in the same order, and a run
    that raises appends none; [load_all_moments] after the run gives what
    it gave before, followed by the returned moments.  The raw log is
    not written. *)
Theorem classify_all_returns_what_it_appends (w : world) :
  let added := match (run w).1 with Ok out => out | Raise _ => [] end in
  raw_file (run w).2 = raw_file w ∧
  file_lines (final_file (run w).2) =
    file_lines (final_file w) ++ as_lines added ∧
  load_all_moments (final_file (run w).2) =
    load_all_moments (final_file w) ++ map VDict added.
Proof.
  destruct (classify_all_result w) as (res & evs & Hrun & Hfin).
  rewrite (runs_fun _ _ _ _ Hrun). cbn [fst snd]. rewrite <- Hfin.
  assert (Hlines : file_lines (final_file (extend w evs)) =
            file_lines (final_file w) ++ as_lines (final_writes evs))
    by apply extend_final_lines.
  split_and!; [done|done|].
  unfold load_all_moments. rewrite Hlines, omap_app. f_equal.
  generalize (final_writes evs). intros l. unfold as_lines.
  induction l as [|d l IH]; [done|]. csimpl. by rewrite IH.
Qed.

(** X11: when the reply for a post decodes to a truthy value that is
    not an object (an array, a number, a string), merging it into the
    post raises [TypeError] outside any handler: the loop ends there,
    the remaining posts are not looked at and nothing is written. *)
Theorem classify_loop_raises_on_non_object n post rest i vm w title s q
    text u v :
  slice_to 50 (get post "title" (VStr "")) = Ok title ->
  as_int (get post "score" (VInt 0)) = Ok s ->
  min_score <= s ->
  prompt_for post = Ok q ->
  ask i q = ReplyText text ->
  unwrap_response text = Ok u ->
  json_loads u = Some v ->
  truthy v = true ->
  (forall r, v ≠ VDict r) ->
  exists w',
    loop n (post :: rest) i vm w = (Raise TypeError, w') ∧
    trace w' = trace w ++ [EProgress i n title; EOracle i q] ∧
    raw_file w' = raw_file w ∧
    classified_file w' = classified_file w ∧
    final_file w' = final_file w.
Proof.
  intros Ht Hs Hge Hq Ha Hu Hl Htr Hv.
  assert (Hitem : exists evs, runs (item n i post vm) w (Raise TypeError) evs ∧
            evs = [EProgress i n title; EOracle i q]).
  { eexists. split; [|shelve]. unfold classify_item.
    assert (Hcp : classify_post json_loads ask i post = (v, [EOracle i q])).
    { unfold classify_post. by rewrite Hq, Ha, Hu, Hl. }
    rewrite Ht, Hs, Hcp.
    assert (Hlt : (s <? min_score) = false) by (by apply Z.ltb_ge).
    assert (Hrec : forall vm0, record_result utcnow min_confidence i post v vm0
                     = raise TypeError).
    { intros vm0. destruct v; try done. by destruct (Hv d). }
    rewrite Htr, Hrec. run_m. Unshelve. reflexivity. }
  destruct Hitem as (evs & Hitem & ->).
  eexists. split.
  - cbn [classify_loop]. unfold bind at 1. by rewrite (runs_fun _ _ _ _ Hitem).
  - done.
Qed.

(** ** Pauses *)

Lemma pace_app b e1 e2 :
  pace b (e1 ++ e2) =
  match pace b e1 with Some b' => pace b' e2 | None => None end.
Proof.
  revert b. induction e1 as [|e e1 IH]; intros b; [done|].
  destruct e; simpl; try apply IH. by destruct b.
Qed.

Lemma is_busy_index j e : is_busy j e = true -> event_index e = Some j.
Proof.
  destruct e; try discriminate; simpl; intros H%Nat.eqb_eq; by subst.
Qed.

Lemma existsb_busy j evs :
  existsb (is_busy j) evs = true ->
  exists e, e ∈ evs ∧ event_index e = Some j.
Proof.
  induction evs as [|e evs IH]; [discriminate|]. cbn [existsb].
  intros [H|H]%orb_true_iff.
  - exists e. split; [apply list_elem_of_here|by apply is_busy_index].
  - destruct (IH H) as (e' & He' & Hi). exists e'. split; [|done].
    by apply list_elem_of_further.
Qed.

Ltac paced_case :=
  eexists _, _; split; [run_m|]; split; [by eexists|];
  split; [done|]; split; [solve_idx|].

Lemma classify_item_paced n i post vm w :
  exists res evs, runs (item n i post vm) w res evs ∧
    is_Some (pace false evs) ∧
    (forall vm', res = Ok vm' -> pace false evs = Some false) ∧
    Forall (fun e => event_index e = Some i) evs ∧
    (existsb (is_busy i) evs = true -> scored min_score post).
Proof.
  unfold classify_item.
  destruct (slice_to 50 (get post "title" (VStr ""))) as [title|e] eqn:Ht.
  2:{ paced_case. discriminate. }
  destruct (as_int (get post "score" (VInt 0))) as [score|e] eqn:Hs.
  2:{ paced_case. discriminate. }
  destruct (score <? min_score) eqn:Hlow.
  { paced_case. discriminate. }
  assert (Hsc : scored min_score post).
  { exists score. split; [done|]. by apply Z.ltb_ge. }
  unfold classify_post.
  destruct (prompt_for post) as [q|e] eqn:Hq.
  2:{ cbn [truthy]. paced_case. done. }
  destruct (ask i q) as [text|] eqn:Ha.
  2:{ cbn [truthy]. paced_case. done. }
  destruct (unwrap_response text) as [u|e] eqn:Hu.
  2:{ cbn [truthy]. paced_case. done. }
  destruct (json_loads u) as [result|] eqn:Hl.
  2:{ cbn [truthy]. paced_case. done. }
  destruct (truthy result) eqn:Htr.
  2:{ paced_case. done. }
  destruct result as [| | | | |r];
    try (eexists _, _; split; [cbn [record_result]; run_m|];
         split; [by eexists|]; split; [done|]; split; [solve_idx|done]).
  cbn [record_result]. cbv beta iota zeta.
  destruct (truthy (get_none r "is_valid_aha_moment")) eqn:Hvalid.
  2:{ paced_case. done. }
  destruct (as_int (get r "confidence" (VInt 0))) as [c|e] eqn:Hconf.
  2:{ paced_case. done. }
  destruct (min_confidence <=? c) eqn:Hc.
  - paced_case. done.
  - paced_case. done.
Qed.

Lemma classify_loop_paced n posts : forall i vm w,
  exists res evs, runs (loop n posts i vm) w res evs ∧
    is_Some (pace false evs) ∧
    (forall vm', res = Ok vm' -> pace false evs = Some false) ∧
    Forall (fun e => exists j, event_index e = Some j ∧ (i <= j)%nat) evs ∧
    (forall j, existsb (is_busy j) evs = true ->
       exists post, posts !! (j - i)%nat = Some post ∧ scored min_score post).
Proof.
  induction posts as [|post rest IH]; intros i vm w.
  - exists (Ok vm), []. split; [apply runs_ret|]. split; [by eexists|].
    split; [done|]. split; [apply Forall_nil_2|]. discriminate.
  - destruct (classify_item_paced n i post vm w)
      as (res1 & e1 & Hrun1 & Hs1 & Hok1 & Hidx1 & Hbusy1).
    assert (Hfirst : forall j, existsb (is_busy j) e1 = true ->
              exists post', (post :: rest) !! (j - i)%nat = Some post' ∧
                            scored min_score post').
    { intros j Hj. destruct (existsb_busy _ _ Hj) as (e & He & Hi).
      rewrite Forall_forall in Hidx1. rewrite (Hidx1 e He) in Hi.
      injection Hi as <-. rewrite Nat.sub_diag. exists post. split; [done|].
      by apply Hbusy1. }
    assert (Hidx1' : Forall (fun e => exists j, event_index e = Some j ∧ (i <= j)%nat) e1).
    { eapply Forall_impl; [exact Hidx1|]. intros e He. exists i. split; [done|lia]. }
    destruct res1 as [vm1|e].
    + destruct (IH (S i) vm1 (extend w e1))
        as (res2 & e2 & Hrun2 & Hs2 & Hok2 & Hidx2 & Hbusy2).
      exists res2, (e1 ++ e2). split_and!.
      * simpl. eapply runs_bind; [exact Hrun1|exact Hrun2].
      * by rewrite pace_app, (Hok1 vm1 eq_refl).
      * intros vm' Hvm. rewrite pace_app, (Hok1 vm1 eq_refl). by apply (Hok2 vm').
      * apply Forall_app_2; [done|]. eapply Forall_impl; [exact Hidx2|].
        intros e (j & Hj & Hle). exists j. split; [done|lia].
      * intros j Hj. rewrite existsb_app in Hj.
        apply orb_true_iff in Hj as [Hj|Hj]; [by apply Hfirst|].
        destruct (Hbusy2 j Hj) as (post' & Hpost' & Hsc).
        destruct (existsb_busy _ _ Hj) as (e & He & Hi).
        rewrite Forall_forall in Hidx2. destruct (Hidx2 e He) as (j' & Hj' & Hle).
        assert (j' = j) as -> by congruence.
        exists post'. split; [|done].
        replace (j - i)%nat with (S (j - S i)) by lia. done.
    + exists (Raise e), e1. split; [simpl; by apply runs_bind_raise|].
      split_and!; done.
Qed.

(** X12: in the trace of a run of [classify_all], two requests to the
    oracle are always separated by a pause, and a run that returns has
    paused after its last request; for a pending post whose score is
    below [min_score] the run makes no request and no pause. *)
Theorem classify_all_pauses_between_requests (w : world) :
  exists evs,
    trace (run w).2 = trace w ++ evs ∧
    is_Some (pace false evs) ∧
    (forall out, (run w).1 = Ok out -> pace false evs = Some false) ∧
    (forall posts i post s,
       posts_to_classify w = Ok posts -> posts !! i = Some post ->
       as_int (get post "score" (VInt 0)) = Ok s -> s < min_score ->
       existsb (is_busy i) evs = false).
Proof.
  assert (H : exists res evs, runs run w res evs ∧ is_Some (pace false evs) ∧
            (forall out, res = Ok out -> pace false evs = Some false) ∧
            (forall posts j, posts_to_classify w = Ok posts ->
               existsb (is_busy j) evs = true ->
               exists post, posts !! j = Some post ∧ scored min_score post)).
  { unfold classify_all, runs. cbv beta.
    destruct (raw_file w) as [raw_lines|] eqn:Hraw.
    2:{ eexists _, _. split; [apply runs_fun; run_m|]. split; [by eexists|].
        split; [done|]. discriminate. }
    destruct (posts_to_classify w) as [posts|e] eqn:Hposts.
    2:{ eexists _, _. split; [apply runs_fun; run_m|]. split; [by eexists|].
        split; [done|]. discriminate. }
    destruct posts as [|p posts].
    { eexists _, _. split; [apply runs_fun; run_m|]. split; [by eexists|].
      split; [done|]. discriminate. }
    rewrite bind_lift_ok. cbv beta iota.
    destruct (classify_loop_paced (length (p :: posts)) (p :: posts) 0%nat []
                (extend w [EClassifying (length (p :: posts))]))
      as (res & levs & Hloop & Hs & Hok & _ & Hbusy).
    assert (Hquiet : forall fin, existsb (is_busy 0) fin = false ->
              (forall j, existsb (is_busy j) fin = existsb (is_busy 0) fin) ->
              forall posts0 j, Ok (p :: posts) = Ok posts0 ->
                existsb (is_busy j)
                  ([EClassifying (length (p :: posts))] ++ levs ++ fin) = true ->
                exists post, posts0 !! j = Some post ∧ scored min_score post).
    { intros fin Hf0 Hfj posts0 j [= <-] Hj.
      rewrite !existsb_app, Hfj, Hf0, orb_false_r in Hj. cbn [existsb is_busy orb] in Hj.
      destruct (Hbusy j Hj) as (post & Hpost & Hsc). rewrite Nat.sub_0_r in Hpost.
      by exists post. }
    destruct res as [vm|e].
    2:{ eexists (Raise e), _. split; [apply runs_fun; run_m|].
        split; [by rewrite pace_app|]. split; [done|].
        rewrite <- (app_nil_r levs). by apply Hquiet. }
    specialize (Hok vm eq_refl).
    destruct vm as [|m vm].
    { eexists (Ok []), _. split.
      - apply runs_fun.
        eapply runs_bind; [by apply runs_emit|].
        eapply runs_bind; [exact Hloop|]. apply runs_ret.
      - rewrite pace_app. cbn [pace]. rewrite pace_app, Hok.
        split; [by eexists|]. split; [done|]. by apply Hquiet. }
    eexists (Ok (m :: vm)), _. split.
    - apply runs_fun.
      eapply runs_bind; [by apply runs_emit|].
      eapply runs_bind; [exact Hloop|]. cbv beta iota.
      eapply runs_bind; [by apply runs_append_final|].
      eapply runs_bind; [by apply runs_emit|]. apply runs_ret.
    - assert (Hfin : forall l : list dict, pace false (map EAppendFinal l) = Some false)
        by (induction l; done).
      assert (Hfb : forall j (l : list dict),
                existsb (is_busy j) (map EAppendFinal l ++ [EAdded (length (m :: vm))] ++ [])
                = false).
      { intros j l. induction l as [|x l IHl]; [done|]. exact IHl. }
      rewrite pace_app. cbn [pace]. rewrite pace_app, Hok.
      rewrite pace_app, (Hfin (m :: vm)). split; [by eexists|]. split; [done|].
      apply Hquiet; [apply Hfb|]. intros j. by rewrite !Hfb. }
  destruct H as (res & evs & Hrun & Hs & Hok & Hbusy).
  exists evs. rewrite (runs_fun _ _ _ _ Hrun). cbn [fst snd extend trace].
  split_and!; [done|done|done|].
  intros posts i post s Hposts Hpost Hscore Hlow.
  destruct (existsb (is_busy i) evs) eqn:Hb; [|done].
  destruct (Hbusy posts i Hposts Hb) as (post' & Hpost' & s' & Hs' & Hge).
  assert (post' = post) as -> by congruence.
  rewrite Hscore in Hs'. injection Hs' as <-. lia.
Qed.

(** ** Merged records and the next run *)

Lemma url_of_merged i post r :
  r !! "url" = None -> url_of (merged utcnow i post r) = url_of post.
Proof.
  intros Hr. unfold url_of, get, merged.
  rewrite lookup_insert_ne by done. by rewrite lookup_union_r.
Qed.

(** X13: the classified record of a post is filed under the URL of the
    post unless the answer of the oracle has a [url] field of its own;
    so once the record of an answer without that field is in the
    classified log, no post with that URL is pending. *)
Theorem merged_record_settles_post (w : world) (i : nat) (post r : dict)
    (posts : list dict) :
  Some (VDict (merged utcnow i post r)) ∈ file_lines (classified_file w) ->
  r !! "url" = None ->
  is_Some (post !! "url") ->
  posts_to_classify w = Ok posts ->
  url_of (merged utcnow i post r) = url_of post ∧
  forall p, p ∈ posts ->
    hash_key (get_none p "url") ≠ hash_key (get_none post "url").
Proof.
  intros Hin Hr [u Hu] Hposts. split; [by apply url_of_merged|].
  intros p Hp Heq.
  destruct (posts_to_classify_spec _ _ Hposts) as [_ Hfresh].
  destruct (Hfresh p Hp) as (k & Hk & Hnot). apply Hnot.
  unfold log_keys. apply list_elem_of_omap.
  exists (Some (VDict (merged utcnow i post r))). split; [done|].
  cbn [line_key]. rewrite url_of_merged by done.
  rewrite <- Hk, Heq. unfold get_none, url_of, get. by rewrite Hu.
Qed.

End Run.

(** ** Instances *)

(** The oracle answers with an array for the first post. *)
Lemma classify_loop_raises_on_non_object_witness :
  exists w',
    classify_loop Replies.loads Replies.ask_array Samples.clock 60 5
                  2 [Samples.post_a1; Samples.post_b] 0 [] Samples.fresh_world
    = (Raise TypeError, w') ∧
    classified_file w' = None ∧ final_file w' = None.
Proof.
  destruct (classify_loop_raises_on_non_object Replies.loads Replies.ask_array
              Samples.clock 60 5 2 Samples.post_a1 [Samples.post_b] 0 []
              Samples.fresh_world (VStr "first") 10 Samples.prompt_a1
              "[1]" "[1]" (VList [VInt 1]))
    as (w' & Hloop & _ & _ & Hc & Hf).
  - vm_compute. reflexivity.
  - vm_compute. reflexivity.
  - lia.
  - vm_compute. reflexivity.
  - reflexivity.
  - vm_compute. reflexivity.
  - vm_compute. reflexivity.
  - reflexivity.
  - discriminate.
  - exists w'. split; [exact Hloop|]. split; [exact Hc|exact Hf].
Defined.

(** The accepted post is settled; the other one is still pending. *)
Lemma merged_record_settles_post_witness :
  posts_to_classify Replies.settled_world = Ok [Samples.post_b] ∧
  url_of (merged Samples.clock 0 Samples.post_a1 Samples.accept_result)
    = url_of Samples.post_a1 ∧
  hash_key (get_none Samples.post_b "url")
    ≠ hash_key (get_none Samples.post_a1 "url").
Proof.
  assert (H : posts_to_classify Replies.settled_world = Ok [Samples.post_b])
    by (vm_compute; exact eq_refl).
  split; [exact H|].
  destruct (merged_record_settles_post Samples.clock Replies.settled_world 0
              Samples.post_a1 Samples.accept_result [Samples.post_b])
    as [Hurl Hpending].
  - apply list_elem_of_here.
  - reflexivity.
  - eexists. reflexivity.
  - exact H.
  - split; [exact Hurl|]. apply Hpending. apply list_elem_of_here.
Defined.

End ClassifyRun.

Module UnwrapSpec.

Import Classify.

#[local] Arguments String.append !_ _ / : simpl nomatch.

Lemma append_assoc (a b c : string) : (a +:+ b) +:+ c = a +:+ (b +:+ c).
Proof. induction a as [|x a IH]; simpl; [done|]. by rewrite IH. Qed.

Lemma append_nil_r (a : string) : a +:+ "" = a.
Proof. induction a as [|x a IH]; simpl; [done|]. by rewrite IH. Qed.

Lemma rstrip_app_kept s t :
  PyStr.rstrip t ≠ "" -> PyStr.rstrip (s +:+ t) = s +:+ PyStr.rstrip t.
Proof.
  intros Ht. induction s as [|c s IH]; simpl; [done|].
  rewrite IH. destruct (s +:+ PyStr.rstrip t) eqn:E; [|done].
  destruct s; simpl in E; [done|discriminate].
Qed.

Lemma rstrip_all_space t : PyStr.all_space t = true -> PyStr.rstrip t = "".
Proof.
  induction t as [|c t IH]; simpl; [done|].
  intros [Hc Ht]%andb_true_iff. by rewrite IH, Hc.
Qed.

Lemma rstrip_app_space s t :
  PyStr.all_space t = true -> PyStr.rstrip (s +:+ t) = PyStr.rstrip s.
Proof.
  intros Ht. induction s as [|c s IH]; simpl; [by apply rstrip_all_space|].
  by rewrite IH.
Qed.

Lemma lstrip_app_space t s :
  PyStr.all_space t = true -> PyStr.lstrip (t +:+ s) = PyStr.lstrip s.
Proof.
  induction t as [|c t IH]; simpl; [done|].
  intros [Hc Ht]%andb_true_iff. rewrite Hc. by apply IH.
Qed.

Lemma lstrip_all_space t : PyStr.all_space t = true -> PyStr.lstrip t = "".
Proof.
  induction t as [|c t IH]; simpl; [done|].
  intros [Hc Ht]%andb_true_iff. rewrite Hc. by apply IH.
Qed.

Lemma strip_padded a s b :
  PyStr.all_space a = true -> PyStr.all_space b = true ->
  PyStr.strip (a +:+ s +:+ b) = PyStr.strip s.
Proof.
  intros Ha Hb. unfold PyStr.strip. rewrite lstrip_app_space by done.
  clear a Ha. induction s as [|c s IH].
  - change ("" +:+ b) with b. by rewrite lstrip_all_space.
  - change (String c s +:+ b) with (String c (s +:+ b)).
    cbn [PyStr.lstrip]. destruct (PyStr.is_space c) eqn:Hc; [exact IH|].
    change (String c (s +:+ b)) with (String c s +:+ b).
    by rewrite rstrip_app_space.
Qed.

Lemma prefix_fence_other c s :
  c ≠ PyStr.tick -> String.prefix fence (String c s) = false.
Proof.
  intros Hc. destruct c as [[] [] [] [] [] [] [] []]; try reflexivity.
  by destruct Hc.
Qed.

Lemma split_go_at_fence cur rest :
  PyStr.split_go fence (fence +:+ rest) 0 cur =
  cur :: PyStr.split_go fence (PyStr.drop 3 (fence +:+ rest)) 0 "".
Proof. by destruct rest. Qed.

Lemma split_go_to_fence inner : forall cur rest,
  PyStr.has_char PyStr.tick inner = false ->
  exists tl, PyStr.split_go fence (inner +:+ fence +:+ rest) 0 cur
             = (cur +:+ inner) :: tl.
Proof.
  induction inner as [|c inner IH]; intros cur rest Hno.
  - rewrite append_nil_r. change ("" +:+ fence +:+ rest) with (fence +:+ rest).
    rewrite split_go_at_fence. by eexists.
  - simpl in Hno. apply orb_false_iff in Hno as [Hc Hno].
    apply bool_decide_eq_false in Hc.
    change (String c inner +:+ fence +:+ rest)
      with (String c (inner +:+ fence +:+ rest)).
    cbn [PyStr.split_go]. rewrite prefix_fence_other by done.
    destruct (IH (cur +:+ String c "") rest Hno) as [tl ->].
    exists tl. by rewrite append_assoc.
Qed.

(** X14: a reply that consists of one fenced block whose content has no
    backtick is unwrapped to that content, without the [json] tag if it
    starts with one, and stripped; for a block that holds the tag, a line
    break, the body and a line break this is the stripped body. *)
Theorem unwrap_response_fenced_block (inner : string) :
  PyStr.has_char PyStr.tick inner = false ->
  unwrap_response (fence +:+ inner +:+ fence) =
    Ok (PyStr.strip (if PyStr.startswith inner "json"
                     then PyStr.drop 4 inner else inner)) ∧
  forall a body b,
    inner = "json" +:+ a +:+ body +:+ b ->
    PyStr.all_space a = true -> PyStr.all_space b = true ->
    unwrap_response (fence +:+ inner +:+ fence) = Ok (PyStr.strip body).
Proof.
  intros Hno.
  assert (Hstrip : PyStr.strip (fence +:+ inner +:+ fence)
                   = fence +:+ inner +:+ fence).
  { unfold PyStr.strip.
    assert (Hl : PyStr.lstrip (fence +:+ inner +:+ fence)
                 = fence +:+ inner +:+ fence) by done.
    rewrite Hl, <- append_assoc. by rewrite rstrip_app_kept. }
  assert (Hmain : unwrap_response (fence +:+ inner +:+ fence) =
    Ok (PyStr.strip (if PyStr.startswith inner "json"
                     then PyStr.drop 4 inner else inner))).
  { unfold unwrap_response. cbv zeta. rewrite Hstrip.
    assert (Hp : PyStr.startswith (fence +:+ inner +:+ fence) fence = true)
      by (by destruct inner).
    rewrite Hp. unfold PyStr.split.
    destruct (split_go_to_fence inner "" "" Hno) as [tl Htl].
    rewrite append_nil_r in Htl. change ("" +:+ inner) with inner in Htl.
    assert (Hs : PyStr.split_go fence (fence +:+ inner +:+ fence) 0 ""
                 = "" :: inner :: tl).
    { rewrite split_go_at_fence.
      change (PyStr.drop 3 (fence +:+ inner +:+ fence)) with (inner +:+ fence).
      by rewrite Htl. }
    by rewrite Hs. }
  split; [exact Hmain|].
  intros a body b -> Ha Hb. rewrite Hmain.
  assert (Hsw : forall s, PyStr.startswith ("json" +:+ s) "json" = true).
  { intros s. by destruct s. }
  rewrite Hsw. change (PyStr.drop 4 ("json" +:+ a +:+ body +:+ b))
    with (a +:+ body +:+ b).
  by rewrite strip_padded.
Qed.

(** The accepting answer in a fenced block with the tag. *)
Lemma unwrap_response_fenced_block_witness :
  unwrap_response (Samples.fenced Samples.accept_text) = Ok Samples.accept_text.
Proof.
  assert (Hno : PyStr.has_char PyStr.tick
            ("json" +:+ Samples.nl +:+ Samples.accept_text +:+ Samples.nl)
          = false) by (vm_compute; exact eq_refl).
  destruct (unwrap_response_fenced_block _ Hno) as [_ Hbody].
  exact (Hbody Samples.nl Samples.accept_text Samples.nl eq_refl eq_refl eq_refl).
Defined.

End UnwrapSpec.

(** * Further properties of the Renderer *)

Module GenerateHtmlRun.

Import GenerateHtml ListFacts.

Lemma as_dicts_spec vs : forall ms, as_dicts vs = Ok ms -> map VDict ms = vs.
Proof.
  induction vs as [|v vs IH]; intros ms H; simpl in H.
  - by inversion H.
  - destruct v as [| | | | |d]; try discriminate.
    destruct (as_dicts vs) as [tl|]; [|discriminate]. simpl in H.
    inversion H; subst. simpl. by rewrite (IH tl).
Qed.

Lemma as_dicts_non_object vs v :
  v ∈ vs -> (forall d, v ≠ VDict d) -> as_dicts vs = Raise AttributeError.
Proof.
  induction vs as [|x vs IH]; intros Hin Hv; [inversion Hin|].
  apply elem_of_cons in Hin as [<-|Hin].
  - destruct v; try done. by destruct (Hv d).
  - simpl. destruct x; try done. by rewrite IH.
Qed.

(** X15: when [load_moments] returns, the moments it hands to the page
    are, up to their order, exactly the values [load_all_moments] reads
    from the same log: the page shows as many moments as the pipeline
    reports. *)
Theorem load_moments_shows_all_moments (moments_file : file)
    (sorted : list dict) :
  load_moments moments_file = Ok sorted ->
  map VDict sorted ≡ₚ Classify.load_all_moments moments_file ∧
  length sorted = length (Classify.load_all_moments moments_file).
Proof.
  unfold load_moments, Classify.load_all_moments. cbv zeta.
  destruct (as_dicts (omap id (file_lines moments_file))) as [ms|] eqn:Hms;
    [|discriminate].
  cbn [obind].
  destruct (with_keys ms) as [keyed|] eqn:Hk; [|discriminate].
  cbn [obind]. intros [= <-].
  destruct (GenerateHtmlSpec.with_keys_spec _ _ Hk) as [Hmap _].
  assert (Hperm : sort_moments keyed ≡ₚ ms).
  { unfold sort_moments. rewrite <- Hmap. apply Permutation_map.
    apply (GenerateHtmlSpec.sort_desc_perm fst key_lt). }
  rewrite <- (as_dicts_spec _ _ Hms).
  split; [by apply Permutation_map|].
  rewrite length_map. by apply Permutation_length.
Qed.

(** X16: a line of the final log that decodes to something other than
    an object is among the values [load_all_moments] returns and counts,
    while [load_moments] raises [AttributeError] on the same log when
    it computes the sort keys. *)
Theorem load_moments_rejects_non_object_line (moments_file : file)
    (v : pyval) :
  Some v ∈ file_lines moments_file ->
  (forall d, v ≠ VDict d) ->
  v ∈ Classify.load_all_moments moments_file ∧
  load_moments moments_file = Raise AttributeError.
Proof.
  intros Hin Hv.
  assert (Hall : v ∈ omap id (file_lines moments_file)).
  { apply list_elem_of_omap. by exists (Some v). }
  split; [done|].
  unfold load_moments. cbv zeta. by rewrite (as_dicts_non_object _ v Hall Hv).
Qed.

Lemma count_realizations_non_string ms m v : forall c,
  m ∈ ms -> m !! "realization" = Some v -> (forall s, v ≠ VStr s) ->
  count_realizations ms c = Raise AttributeError.
Proof.
  induction ms as [|x ms IH]; intros c Hin Hm Hv; [inversion Hin|].
  cbn [count_realizations].
  destruct (get x "realization" (VStr "")) as [| | |s| |] eqn:Hx; try done.
  apply elem_of_cons in Hin as [<-|Hin]; [|by eapply IH].
  unfold get in Hx. rewrite Hm in Hx. simpl in Hx. by destruct (Hv s).
Qed.

(** X17: one moment whose [realization] is present but not a string
    (a null, a number, a list) makes [analyze_patterns] raise
    [AttributeError], whatever the other moments are. *)
Theorem analyze_patterns_needs_string_realization (ms : list dict)
    (m : dict) (v : pyval) :
  m ∈ ms ->
  m !! "realization" = Some v ->
  (forall s, v ≠ VStr s) ->
  analyze_patterns ms = Raise AttributeError.
Proof.
  intros Hin Hm Hv. unfold analyze_patterns.
  by rewrite (count_realizations_non_string ms m v [] Hin Hm Hv).
Qed.

(** ** Instances *)

Lemma sample_load_moments :
  load_moments Samples.final_log =
    Ok [Samples.moment_curated; Samples.moment_plain;
        Samples.moment_plain_later].
Proof. vm_compute. exact eq_refl. Qed.

(** The log of three moments and one undecodable line. *)
Lemma load_moments_shows_all_moments_witness :
  load_moments Samples.final_log =
    Ok [Samples.moment_curated; Samples.moment_plain;
        Samples.moment_plain_later] ∧
  length [Samples.moment_curated; Samples.moment_plain;
          Samples.moment_plain_later] =
    length (Classify.load_all_moments Samples.final_log).
Proof.
  split; [exact sample_load_moments|].
  exact (proj2 (load_moments_shows_all_moments _ _ sample_load_moments)).
Defined.

(** A final log whose second line is the number 7. *)
Lemma load_moments_rejects_non_object_line_witness :
  load_moments (Some [Some (VDict Samples.moment_plain); Some (VInt 7)]) =
    Raise AttributeError.
Proof.
  apply (load_moments_rejects_non_object_line _ (VInt 7)).
  - apply list_elem_of_further, list_elem_of_here.
  - discriminate.
Defined.

(** A moment whose realization is null. *)
Lemma analyze_patterns_needs_string_realization_witness :
  analyze_patterns [Samples.moment_plain; {[ "realization" := VNone ]}] =
    Raise AttributeError.
Proof.
  apply (analyze_patterns_needs_string_realization _
           {[ "realization" := VNone ]} VNone).
  - apply list_elem_of_further, list_elem_of_here.
  - reflexivity.
  - discriminate.
Defined.

End GenerateHtmlRun.

(** * Properties of the pipeline *)

Module CollectSpec.

Import Classify.

(** X18: [main] runs the classifier only when the scrape returned new
    posts.  When every fetched URL is already in the raw log, the three
    logs are left as they were: no oracle request is made, also for raw
    posts that are still waiting to be classified. *)
Theorem main_skips_classifier_without_new_posts
    (f1 f2 f3 : string -> list dict) (scraped_at classified_at : nat -> string)
    (json_loads : string -> option pyval) (ask : nat -> prompt -> reply)
    (w : world) :
  Scraper.loadable (raw_file w) ->
  Forall Scraper.url_hashable (Scraper.fetch_all f1 f2 f3) ->
  (forall p k, p ∈ Scraper.fetch_all f1 f2 f3 -> carries k p ->
     k ∈ log_keys (raw_file w)) ->
  Collect.main_logs f1 f2 f3 scraped_at classified_at json_loads ask w = w.
Proof.
  intros Hload Hhash Hknown.
  destruct (ScraperRun.scrape_all_complete f1 f2 f3 scraped_at (raw_file w)
              Hload Hhash) as (added & Hrun & Hsub & _ & Hfresh).
  assert (added = []) as ->.
  { destruct added as [|q added]; [done|].
    destruct (Hfresh q) as (k & Hk & Hnot); [apply list_elem_of_here|].
    destruct Hnot. apply (Hknown q k); [|done].
    eapply elem_of_sublist; [apply list_elem_of_here|exact Hsub]. }
  unfold Collect.main_logs. rewrite Hrun. cbn [Scraper.stamp]. by destruct w.
Qed.

(** The search finds the two posts of the raw log again; both are still
    pending and stay so. *)
Lemma main_skips_classifier_without_new_posts_witness :
  posts_to_classify Samples.fresh_world
    = Ok [Samples.post_a1; Samples.post_b] ∧
  Collect.main_logs Samples.reddit_search Samples.no_posts Samples.no_posts
                    Samples.clock Samples.clock Samples.sample_loads
                    Samples.ask_accept Samples.fresh_world
    = Samples.fresh_world.
Proof.
  split; [vm_compute; exact eq_refl|].
  assert (Hall : Scraper.fetch_all Samples.reddit_search Samples.no_posts
                   Samples.no_posts = Samples.batch) by (vm_compute; exact eq_refl).
  apply main_skips_classifier_without_new_posts.
  - apply Forall_cons_2; [by eexists|].
    apply Forall_cons_2; [by eexists|apply Forall_nil_2].
  - rewrite Hall.
    repeat (apply Forall_cons_2; [intros _; by eexists|]). apply Forall_nil_2.
  - rewrite Hall. intros p k Hp [_ Hk].
    assert (Hkeys : log_keys (raw_file Samples.fresh_world) =
              [KStr "https://reddit.com/r/ClaudeAI/a";
               KStr "https://reddit.com/r/ChatGPT/b"])
      by (vm_compute; exact eq_refl).
    rewrite Hkeys. unfold Samples.batch in Hp.
    rewrite !elem_of_cons, elem_of_nil in Hp.
    destruct Hp as [->|[->|[->|[]]]]; vm_compute in Hk; injection Hk as <-;
      rewrite !elem_of_cons; auto.
Defined.

End CollectSpec.
